(** * civic-backend/server.js: the blockchain synchronisation engine

    A shallow embedding of the engine in [civic-backend/server.js]:
    [mapStatusToEnum], [mintComplaintToBlockchain],
    [updateComplaintStatusOnChain], [processExistingComplaints], the two
    realtime handlers of [setupRealtimeListener] and the ordering of
    [startServer].

    The JavaScript is single threaded: an [async] function runs without
    interruption from one [await] to the next.  Every segment between two
    [await]s is therefore one atomic transition here, a suspended
    invocation is a [task] that remembers at which [await] it waits, and the
    environment (ledger, record store, timers, realtime feed) decides which
    suspended task is resumed next and with which answer.

    Left out of the engine: the Express endpoints (lines 287-365), which
    are modelled on top of it further down, the shutdown handlers and
    every [console] line except the two skip messages of
    [mintComplaintToBlockchain] and the one of
    [updateComplaintStatusOnChain].  The only change to the table that
    does not come from the engine is the insertion of a new row. *)

From stdpp Require Import base decidable option list sorting gmap strings pretty.
From Stdlib Require Import ZArith Ascii String Lia.

#[local] Set Warnings "-clear-no-such-hyp".

Local Open Scope Z_scope.
Local Open Scope string_scope.

(** ** Strings

    A JavaScript string is modelled as a [string]; its elements stand for
    code units.  [toLowerCase] folds the letters A-Z and leaves every other
    code unit alone.  (The full Unicode folding of JavaScript maps no
    character outside A-Z to one of the letters of "pending", "resolved"
    or "verified", so the comparisons of [mapStatusToEnum] are not
    affected.) *)

Module Js.

Definition isUpper (a : ascii) : bool :=
  let n := N_of_ascii a in ((65 <=? n) && (n <=? 90))%N.

Definition lowerChar (a : ascii) : ascii :=
  if isUpper a then ascii_of_N (N_of_ascii a + 32) else a.

Fixpoint toLowerCase (s : string) : string :=
  match s with
  | EmptyString => EmptyString
  | String a s' => String (lowerChar a) (toLowerCase s')
  end.

(** A nullable string field of a JavaScript object: [None] stands for
    [null] and for [undefined]. *)
Definition truthy (v : option string) : bool :=
  match v with
  | Some s => negb (String.eqb s "")
  | None => false
  end.

(** [a || b] on nullable strings. *)
Definition or (a b : option string) : option string :=
  if truthy a then a else b.

(** [String(v || '')] *)
Definition toStringOrEmpty (v : option string) : string :=
  match or v (Some "") with
  | Some s => s
  | None => ""
  end.

End Js.

(** ** Status mapper (server.js, lines 66-72) *)

Definition mapStatusToEnum (status : option string) : Z :=
  let s := Js.toLowerCase (Js.toStringOrEmpty status) in
  if String.eqb s "pending" then 0
  else if String.eqb s "resolved" then 1
  else if String.eqb s "verified" then 2
  else 0.

(** ** Data model *)

(** The [complaint] object that the handlers receive: a row of the
    [complaints] table as the realtime payload or the startup query
    delivers it.  Only the fields the engine reads are kept. *)
Record complaint := Complaint {
  complaintId : Z;
  municipal_id : option string;
  locationAB : option string;
  category_id : option string;
  status : option string;
  tx_hash : option string
}.

(** A row of the [complaints] table without its primary key; the table
    [gmap Z row] maps the [id] column to the rest. *)
Record row := Row {
  row_municipal_id : option string;
  row_locationAB : option string;
  row_category_id : option string;
  row_status : option string;
  row_tx_hash : option string
}.

Global Instance complaint_eq_dec : EqDecision complaint.
Proof. solve_decision. Defined.
Global Instance row_eq_dec : EqDecision row.
Proof. solve_decision. Defined.

(** The two writing methods of the contract ABI (lines 39-40), with the
    arguments the engine passes; no transaction override (nonce) is ever
    passed. *)
Inductive ledger_op :=
| LogComplaint (id : Z) (city category : string)
| UpdateComplaintStatus (id : Z) (statusEnum : Z).

Global Instance ledger_op_eq_dec : EqDecision ledger_op.
Proof. solve_decision. Defined.

(** What the engine does to the outside world, in program order. *)
Inductive event :=
| MintInvoked (c : complaint)          (* mintComplaintToBlockchain entered *)
| SkipProcessing (id : Z)              (* line 80: already being processed *)
| SkipMinted (id : Z) (h : option string)  (* line 88: already has tx_hash *)
| Submit (op : ledger_op)              (* lines 111, 176: contract method called *)
| Confirmed (op : ledger_op) (hash : string) (* tx.wait() fulfilled *)
| Rejected (op : ledger_op)            (* the call or tx.wait() rejected *)
| ReleaseMint (id : Z)                 (* line 158 *)
| MintReturned (id : Z)                (* mintComplaintToBlockchain settled *)
| StatusSkip (key : string)            (* line 169 *)
| ReleaseStatus (key : string)         (* line 183 *)
| Fetched (cs : list complaint)        (* line 192: the startup query answers with rows [cs] *)
| Subscribed.                          (* line 376: setupRealtimeListener() *)

Global Instance event_eq_dec : EqDecision event.
Proof. solve_decision. Defined.

(** ** Suspended invocations *)

(** Who awaits the promise of [mintComplaintToBlockchain]: the INSERT
    handler (line 247, nothing follows) or the loop of
    [processExistingComplaints] (line 214, [rest] is still to do). *)
Inductive caller :=
| FromInsert
| FromBacklog (rest : list complaint).

(** The [await]s of [mintComplaintToBlockchain]. *)
Inductive mint_pc :=
| AwaitLogComplaint                  (* line 111 *)
| AwaitConfirmation                  (* line 117 *)
| AwaitStoreHash (hash : string)     (* lines 125-128 *)
| AwaitStoreError (text : string).   (* lines 148-153 *)

(** The [await]s of [updateComplaintStatusOnChain]. *)
Inductive status_pc :=
| AwaitUpdateStatus                  (* line 176 *)
| AwaitStatusConfirmation.           (* line 178 *)

Inductive task :=
| TBacklogQuery                                      (* line 192 *)
| TBacklogDelay (rest : list complaint)              (* line 216 *)
| TInsertSettle (c : complaint)                      (* line 245 *)
| TMint (c : complaint) (pc : mint_pc) (k : caller)
| TStatus (c : complaint) (pc : status_pc).

(** The answer that resumes a suspended invocation. *)
Inductive response :=
| Resolved (hash : string)       (* the promise is fulfilled; [tx.hash] or [receipt.hash] *)
| Thrown (message : option string) (* the promise is rejected; [error.message] *)
| DbOk                           (* supabase answered [{ error: null }] *)
| DbError                        (* supabase answered [{ error }] *)
| TimerFired.

(** ** Engine state *)

Record state := State {
  processingComplaints : gset Z;          (* line 62 *)
  processingStatusUpdates : gset string;  (* line 63 *)
  db : gmap Z row;                        (* the complaints table *)
  listening : bool;                       (* setupRealtimeListener was called *)
  tasks : list task
}.

Definition set_tasks (ts : list task) (s : state) : state :=
  State (processingComplaints s) (processingStatusUpdates s) (db s) (listening s) ts.

Definition set_task (i : nat) (t : task) (s : state) : state :=
  set_tasks (<[i := t]> (tasks s)) s.

Definition set_processingComplaints (p : gset Z) (s : state) : state :=
  State p (processingStatusUpdates s) (db s) (listening s) (tasks s).

Definition set_processingStatusUpdates (p : gset string) (s : state) : state :=
  State (processingComplaints s) p (db s) (listening s) (tasks s).

Definition set_db (d : gmap Z row) (s : state) : state :=
  State (processingComplaints s) (processingStatusUpdates s) d (listening s) (tasks s).

Definition set_listening (b : bool) (s : state) : state :=
  State (processingComplaints s) (processingStatusUpdates s) (db s) b (tasks s).

(** ** Record store *)

Definition with_tx_hash (v : option string) (r : row) : row :=
  Row (row_municipal_id r) (row_locationAB r) (row_category_id r) (row_status r) v.

(** [.update({ tx_hash: v }).eq("id", id)] *)
Definition update_tx_hash (id : Z) (v : string) (d : gmap Z row) : gmap Z row :=
  alter (with_tx_hash (Some v)) id d.

(** [.select("id, title, category_id, locationAB, municipal_id, tx_hash")]:
    [status] is not among the selected columns. *)
Definition select_row (kr : Z * row) : complaint :=
  Complaint kr.1 (row_municipal_id kr.2) (row_locationAB kr.2)
            (row_category_id kr.2) None (row_tx_hash kr.2).

Definition id_le (x y : Z * row) : Prop := (x.1 <= y.1)%Z.

Global Instance id_le_dec x y : Decision (id_le x y).
Proof. unfold id_le. apply _. Defined.

Global Instance id_le_trans : Transitive id_le.
Proof. unfold id_le. intros x y z. lia. Qed.

Global Instance id_le_total : Total id_le.
Proof. unfold id_le. intros x y. lia. Qed.

(** [.is("tx_hash", null).order("id", { ascending: true })] *)
Definition select_null_sorted (d : gmap Z row) : list complaint :=
  select_row <$>
    merge_sort id_le
      (filter (λ kr : Z * row, row_tx_hash kr.2 = None) (map_to_list d)).

(** ** mintComplaintToBlockchain (lines 75-160) *)

(** Where control goes when the promise of [mintComplaintToBlockchain]
    settles: the INSERT handler ends, the startup loop sleeps two seconds
    (line 216). *)
Definition return_to (k : caller) (i : nat) (ts : list task) : list task :=
  match k with
  | FromInsert => delete i ts
  | FromBacklog rest => <[i := TBacklogDelay rest]> ts
  end.

Definition orDefault (v : option string) (d : string) : string :=
  match Js.or v (Some d) with
  | Some s => s
  | None => d
  end.

(** Lines 103-104. *)
Definition city_of (c : complaint) : string :=
  orDefault (Js.or (municipal_id c) (locationAB c)) "Unknown".

Definition category_of (c : complaint) : string :=
  orDefault (category_id c) "General".

Definition mint_op (c : complaint) : ledger_op :=
  LogComplaint (complaintId c) (city_of c) (category_of c).

(** Lines 75-111: from the call up to the first [await].  [i] is the slot
    of the calling invocation in [tasks]. *)
Definition mintComplaintToBlockchain
    (c : complaint) (k : caller) (i : nat) (s : state) : list event * state :=
  let id := complaintId c in
  if decide (id ∈ processingComplaints s) then
    ([MintInvoked c; SkipProcessing id; MintReturned id],
     set_tasks (return_to k i (tasks s)) s)
  else if Js.truthy (tx_hash c) then
    ([MintInvoked c; SkipMinted id (tx_hash c); MintReturned id],
     set_tasks (return_to k i (tasks s)) s)
  else
    ([MintInvoked c; Submit (mint_op c)],
     set_task i (TMint c AwaitLogComplaint k)
       (set_processingComplaints ({[id]} ∪ processingComplaints s) s)).

(** Lines 157-159. *)
Definition mint_finally
    (c : complaint) (k : caller) (i : nat) (s : state) : list event * state :=
  let id := complaintId c in
  ([ReleaseMint id; MintReturned id],
   set_tasks (return_to k i (tasks s))
     (set_processingComplaints (processingComplaints s ∖ {[id]}) s)).

(** Line 151. *)
Definition error_marker (message : string) : string :=
  "ERROR: " +:+ substring 0 200 message.

(** Lines 140-156, up to the [await] of the store update.  When the thrown
    value has no [message], [error.message.substring] throws inside the
    inner [try] and nothing is stored. *)
Definition mint_catch
    (c : complaint) (k : caller) (i : nat) (message : option string) (s : state)
    : list event * state :=
  match message with
  | Some m => ([], set_task i (TMint c (AwaitStoreError (error_marker m)) k) s)
  | None => mint_finally c k i s
  end.

Definition prepend (e : event) (r : list event * state) : list event * state :=
  (e :: r.1, r.2).

(** The invocation of [mintComplaintToBlockchain] suspended in slot [i] is
    resumed with answer [r]. *)
Definition resume_mint
    (c : complaint) (pc : mint_pc) (k : caller) (i : nat) (r : response) (s : state)
    : option (list event * state) :=
  let id := complaintId c in
  match pc, r with
  | AwaitLogComplaint, Resolved _ =>
      Some ([], set_task i (TMint c AwaitConfirmation k) s)
  | AwaitLogComplaint, Thrown m =>
      Some (prepend (Rejected (mint_op c)) (mint_catch c k i m s))
  | AwaitConfirmation, Resolved hash =>
      Some ([Confirmed (mint_op c) hash], set_task i (TMint c (AwaitStoreHash hash) k) s)
  | AwaitConfirmation, Thrown m =>
      Some (prepend (Rejected (mint_op c)) (mint_catch c k i m s))
  | AwaitStoreHash hash, DbOk =>
      Some (mint_finally c k i (set_db (update_tx_hash id hash (db s)) s))
  | AwaitStoreHash _, DbError =>
      Some (mint_finally c k i s)
  | AwaitStoreHash _, Thrown m =>
      Some (mint_catch c k i m s)
  | AwaitStoreError text, DbOk =>
      Some (mint_finally c k i (set_db (update_tx_hash id text (db s)) s))
  | AwaitStoreError _, DbError =>
      Some (mint_finally c k i s)
  | AwaitStoreError _, Thrown _ =>
      Some (mint_finally c k i s)
  | _, _ => None
  end.

(** ** updateComplaintStatusOnChain (lines 163-185) *)

(** Line 167. *)
Definition statusKey (id statusEnum : Z) : string :=
  pretty id +:+ ":" +:+ pretty statusEnum.

Definition status_op (c : complaint) : ledger_op :=
  UpdateComplaintStatus (complaintId c) (mapStatusToEnum (status c)).

(** Lines 163-176: from the call up to the first [await]. *)
Definition updateComplaintStatusOnChain
    (c : complaint) (s : state) : list event * state :=
  let id := complaintId c in
  let statusEnum := mapStatusToEnum (status c) in
  let key := statusKey id statusEnum in
  if decide (key ∈ processingStatusUpdates s) then
    ([StatusSkip key], s)
  else
    ([Submit (UpdateComplaintStatus id statusEnum)],
     set_tasks (tasks s ++ [TStatus c AwaitUpdateStatus])
       (set_processingStatusUpdates ({[key]} ∪ processingStatusUpdates s) s)).

(** Lines 182-184. *)
Definition status_finally (c : complaint) (i : nat) (s : state) : list event * state :=
  let key := statusKey (complaintId c) (mapStatusToEnum (status c)) in
  ([ReleaseStatus key],
   set_tasks (delete i (tasks s))
     (set_processingStatusUpdates (processingStatusUpdates s ∖ {[key]}) s)).

Definition resume_status
    (c : complaint) (pc : status_pc) (i : nat) (r : response) (s : state)
    : option (list event * state) :=
  match pc, r with
  | AwaitUpdateStatus, Resolved _ =>
      Some ([], set_task i (TStatus c AwaitStatusConfirmation) s)
  | AwaitUpdateStatus, Thrown _ =>
      Some (prepend (Rejected (status_op c)) (status_finally c i s))
  | AwaitStatusConfirmation, Resolved hash =>
      Some (prepend (Confirmed (status_op c) hash) (status_finally c i s))
  | AwaitStatusConfirmation, Thrown _ =>
      Some (prepend (Rejected (status_op c)) (status_finally c i s))
  | _, _ => None
  end.

(** ** processExistingComplaints (lines 188-223) and startServer (370-376) *)

(** [processExistingComplaints] has returned: [startServer] goes on to
    [setupRealtimeListener()]. *)
Definition backlog_done (i : nat) (s : state) : list event * state :=
  ([Subscribed], set_listening true (set_tasks (delete i (tasks s)) s)).

(** One turn of the loop of lines 213-217. *)
Definition backlog_loop (cs : list complaint) (i : nat) (s : state)
    : list event * state :=
  match cs with
  | [] => backlog_done i s
  | c :: rest => mintComplaintToBlockchain c (FromBacklog rest) i s
  end.

Definition resume_query (i : nat) (r : response) (s : state)
    : option (list event * state) :=
  match r with
  | DbOk =>
      let cs := select_null_sorted (db s) in
      Some (prepend (Fetched cs)
              match cs with
              | [] => backlog_done i s          (* lines 203-206 *)
              | _ => backlog_loop cs i s
              end)
  | DbError => Some (backlog_done i s)
  | Thrown _ => Some (backlog_done i s)
  | _ => None
  end.

(** ** The realtime handlers (lines 226-284) and the scheduler *)

Inductive action :=
| Resume (i : nat) (r : response)     (* the awaited promise of task [i] settles *)
| NotifyInsert (c : complaint)        (* INSERT event with [payload.new = c] *)
| NotifyUpdate (old new : option complaint) (* UPDATE event *)
| StoreInsert (id : Z) (r : row).     (* the application adds a row *)

(** Lines 257-269. *)
Definition on_update (old new : option complaint) (s : state) : list event * state :=
  match new with
  | None => ([], s)
  | Some curr =>
      let prev_status := old ≫= status in
      if bool_decide (prev_status ≠ status curr) && Js.truthy (status curr)
      then updateComplaintStatusOnChain curr s
      else ([], s)
  end.

Definition step (a : action) (s : state) : option (list event * state) :=
  match a with
  | Resume i r =>
      match tasks s !! i with
      | Some TBacklogQuery => resume_query i r s
      | Some (TBacklogDelay rest) =>
          match r with TimerFired => Some (backlog_loop rest i s) | _ => None end
      | Some (TInsertSettle c) =>
          match r with
          | TimerFired => Some (mintComplaintToBlockchain c FromInsert i s)
          | _ => None
          end
      | Some (TMint c pc k) => resume_mint c pc k i r s
      | Some (TStatus c pc) => resume_status c pc i r s
      | None => None
      end
  | NotifyInsert c =>
      if listening s
      then Some ([], set_tasks (tasks s ++ [TInsertSettle c]) s)
      else None
  | NotifyUpdate old new =>
      if listening s then Some (on_update old new s) else None
  | StoreInsert id r =>
      match db s !! id with
      | None => Some ([], set_db (<[id := r]> (db s)) s)
      | Some _ => None
      end
  end.

Fixpoint exec (acts : list action) (s : state) : option (list event * state) :=
  match acts with
  | [] => Some ([], s)
  | a :: acts' =>
      match step a s with
      | Some (e1, s1) =>
          match exec acts' s1 with
          | Some (e2, s2) => Some ((e1 ++ e2)%list, s2)
          | None => None
          end
      | None => None
      end
  end.

(** [startServer()] has called [processExistingComplaints()], which waits
    for the answer to its query. *)
Definition init (d : gmap Z row) : state :=
  State ∅ ∅ d false [TBacklogQuery].

(** ** Definitions used to state the properties *)

(** *** The Status Mapper as the specification words it

    "Case-insensitive; pending -> 0, resolved -> 1, verified -> 2; any
    other value defaults to 0."  Two code units are the same letter up to
    case when they are equal or are the upper- and lower-case form of one
    letter of A-Z. *)
Definition isLower (a : ascii) : bool :=
  let n := N_of_ascii a in ((97 <=? n) && (n <=? 122))%N.

Definition same_letter (a b : ascii) : bool :=
  Ascii.eqb a b
  || (Js.isUpper a && isLower b && (N_of_ascii a + 32 =? N_of_ascii b)%N)
  || (isLower a && Js.isUpper b && (N_of_ascii b + 32 =? N_of_ascii a)%N).

Fixpoint eq_ignore_case (s t : string) : bool :=
  match s, t with
  | EmptyString, EmptyString => true
  | String a s', String b t' => same_letter a b && eq_ignore_case s' t'
  | _, _ => false
  end.

Definition StatusMapper_map (status : string) : Z :=
  if eq_ignore_case status "pending" then 0
  else if eq_ignore_case status "resolved" then 1
  else if eq_ignore_case status "verified" then 2
  else 0.

Definition all_ascii : list ascii := ascii_of_nat <$> seq 0 256.

(** *** Counting events *)

Definition count_if (p : event → bool) (evs : list event) : nat :=
  List.length (List.filter p evs).

(** [contract.logComplaint(id, _, _)] is called. *)
Definition is_create (id : Z) (e : event) : bool :=
  match e with
  | Submit (LogComplaint id' _ _) => bool_decide (id' = id)
  | _ => false
  end.

(** An invocation of [mintComplaintToBlockchain] that held [id] has run
    its [finally] block. *)
Definition is_mint_release (id : Z) (e : event) : bool :=
  match e with
  | ReleaseMint id' => bool_decide (id' = id)
  | _ => false
  end.

(** [contract.updateComplaintStatus(id, code)] is called. *)
Definition is_status_update (id code : Z) (e : event) : bool :=
  match e with
  | Submit (UpdateComplaintStatus id' code') => bool_decide (id' = id ∧ code' = code)
  | _ => false
  end.

Definition is_status_release (key : string) (e : event) : bool :=
  match e with
  | ReleaseStatus key' => bool_decide (key' = key)
  | _ => false
  end.

Definition is_submit (e : event) : bool :=
  match e with Submit _ => true | _ => false end.

(** *** The order of the guards as the specification gives it

    "1. If record.ledgerReceipt is already set, return immediately.
     2. If InFlightRegistry.tryAcquire(mintKey(record.id)) fails, return
        immediately.  Else: build the payload and submit." *)
Definition mint_in_spec_order
    (c : complaint) (k : caller) (i : nat) (s : state) : list event * state :=
  let id := complaintId c in
  if Js.truthy (tx_hash c) then
    ([MintInvoked c; SkipMinted id (tx_hash c); MintReturned id],
     set_tasks (return_to k i (tasks s)) s)
  else if decide (id ∈ processingComplaints s) then
    ([MintInvoked c; SkipProcessing id; MintReturned id],
     set_tasks (return_to k i (tasks s)) s)
  else
    ([MintInvoked c; Submit (mint_op c)],
     set_task i (TMint c AwaitLogComplaint k)
       (set_processingComplaints ({[id]} ∪ processingComplaints s) s)).

(** *** Progress of a suspended invocation: the [await]s still ahead *)

Definition mint_rank (pc : mint_pc) : nat :=
  match pc with
  | AwaitLogComplaint => 4
  | AwaitConfirmation => 3
  | AwaitStoreHash _ => 2
  | AwaitStoreError _ => 1
  end.

Definition status_rank (pc : status_pc) : nat :=
  match pc with
  | AwaitUpdateStatus => 2
  | AwaitStatusConfirmation => 1
  end.

(** Whether [id] is in the in-flight set of mints, as a number. *)
Definition held (id : Z) (s : state) : nat :=
  if decide (id ∈ processingComplaints s) then 1 else 0.

Definition status_held (key : string) (s : state) : nat :=
  if decide (key ∈ processingStatusUpdates s) then 1 else 0.

(** The key that [updateComplaintStatusOnChain] computes for a record
    (lines 164-167). *)
Definition key_of (c : complaint) : string :=
  statusKey (complaintId c) (mapStatusToEnum (status c)).

(** *** Submissions one at a time

    A run submits one at a time when no contract method is called while an
    earlier call has not reached its terminal outcome ([Confirmed] or
    [Rejected]).  [serial_from busy evs] follows the events and returns
    whether a submission is open at the end, or [None] when two
    submissions overlap. *)
Fixpoint serial_from (busy : bool) (evs : list event) : option bool :=
  match evs with
  | [] => Some busy
  | Submit _ :: evs' => if busy then None else serial_from true evs'
  | Confirmed _ _ :: evs' => serial_from false evs'
  | Rejected _ :: evs' => serial_from false evs'
  | _ :: evs' => serial_from busy evs'
  end.

Definition serialized (evs : list event) : bool :=
  bool_decide (is_Some (serial_from false evs)).

(** *** The startup sweep *)

Definition is_mint_call (e : event) : bool :=
  match e with
  | MintInvoked _ | MintReturned _ => true
  | _ => false
  end.

(** The calls and returns of [mintComplaintToBlockchain] in a run. *)
Definition mint_calls (evs : list event) : list event :=
  List.filter is_mint_call evs.

(** Each record of [cs] minted once, in order, each call returning before
    the next one is made. *)
Definition one_by_one (cs : list complaint) : list event :=
  flat_map (λ c, [MintInvoked c; MintReturned (complaintId c)]) cs.

Definition is_fetched (e : event) : bool :=
  match e with Fetched _ => true | _ => false end.

(** The answers to the startup query in a run. *)
Definition fetched (evs : list event) : list event :=
  List.filter is_fetched evs.

(** A contract call of the invocation is awaiting its outcome. *)
Definition pc_busy (pc : mint_pc) : bool :=
  match pc with
  | AwaitLogComplaint | AwaitConfirmation => true
  | AwaitStoreHash _ | AwaitStoreError _ => false
  end.

(** The states of the engine before [setupRealtimeListener] is called,
    with the events emitted so far. *)
Inductive backlog_phase (evs : list event) (s : state) : Prop :=
| BP_query :
    tasks s = [TBacklogQuery] → evs = [] → backlog_phase evs s
| BP_mint (cs done rest : list complaint) (c : complaint) (pc : mint_pc) :
    cs = (done ++ c :: rest)%list →
    fetched evs = [Fetched cs] →
    tasks s = [TMint c pc (FromBacklog rest)] →
    mint_calls evs = (one_by_one done ++ [MintInvoked c])%list →
    serial_from false evs = Some (pc_busy pc) →
    backlog_phase evs s
| BP_delay (cs done rest : list complaint) :
    cs = (done ++ rest)%list →
    fetched evs = [Fetched cs] →
    tasks s = [TBacklogDelay rest] →
    mint_calls evs = one_by_one done →
    serial_from false evs = Some false →
    backlog_phase evs s.

(** The state in which [setupRealtimeListener] is called. *)
Definition backlog_complete (evs : list event) (s : state) : Prop :=
  tasks s = []
  ∧ serial_from false evs = Some false
  ∧ ∃ cs, (fetched evs = [Fetched cs] ∨ fetched evs = [] ∧ cs = [])
          ∧ mint_calls evs = one_by_one cs.

(** *** The receipt field *)

(** The row of [id] exists and its [tx_hash] is not null. *)
Definition receipt_set (id : Z) (d : gmap Z row) : Prop :=
  ∃ r h, d !! id = Some r ∧ row_tx_hash r = Some h.

(** The reading of "the receipt field is never overwritten with error
    text": whatever a run leaves in a [tx_hash] was there at the start or
    is a receipt hash that the ledger delivered in that run. *)
Definition receipt_field_holds_receipts : Prop :=
  ∀ (d : gmap Z row) (acts : list action) (evs : list event) (s : state)
    (id : Z) (r : row) (h : string),
    exec acts (init d) = Some (evs, s) →
    db s !! id = Some r → row_tx_hash r = Some h →
    (∃ r0, d !! id = Some r0 ∧ row_tx_hash r0 = Some h)
    ∨ (∃ op, Confirmed op h ∈ evs).

(** *** The readings of two sentences on the reconciler and on failed mints *)


(** The reading of "a failed mint is never retried by the engine": once a
    [logComplaint] for a record was rejected and the row carries an error
    text, the engine makes no further [logComplaint] call for that id. *)
Definition failed_mint_is_final : Prop :=
  ∀ (d : gmap Z row) (acts1 acts2 : list action) (evs1 evs2 : list event)
    (s1 s2 : state) (c : complaint),
    exec acts1 (init d) = Some (evs1, s1) →
    Rejected (mint_op c) ∈ evs1 →
    (∃ r m, db s1 !! complaintId c = Some r
            ∧ row_tx_hash r = Some (error_marker m)) →
    exec acts2 s1 = Some (evs2, s2) →
    count_if (is_create (complaintId c)) evs2 = 0%nat.

(** *** Sample records *)

Module Sample.
Definition blank : row := Row None None None None None.

Definition pune : complaint :=
  Complaint 1 (Some "Pune") None None None None.
Definition mg_road : complaint :=
  Complaint 2 None (Some "MG Road") (Some "roads") None None.

Definition seven : complaint :=
  Complaint 7 None None None (Some "pending") None.
Definition seven_minted : complaint :=
  Complaint 7 None None None (Some "pending") (Some "0xabc").
Definition seven_empty_hash : complaint :=
  Complaint 7 None None None (Some "pending") (Some "").
Definition seven_resolved : complaint :=
  Complaint 7 None None None (Some "Resolved") None.
Definition seven_verified : complaint :=
  Complaint 7 None None None (Some "verified") None.

Definition store : gmap Z row := <[7 := blank]> (<[3 := blank]> ∅).
End Sample.

(** *** Sample runs *)

Module Run.
Import Sample.

(** Two INSERT notifications for different records, both past their
    settle delay before either contract call has an outcome. *)
Definition two_inserts : list action :=
  [Resume 0 DbOk; NotifyInsert pune; NotifyInsert mg_road;
   Resume 0 TimerFired; Resume 1 TimerFired].

Definition two_inserts_events : list event :=
  [Fetched []; Subscribed;
   MintInvoked pune; Submit (LogComplaint 1 "Pune" "General");
   MintInvoked mg_road; Submit (LogComplaint 2 "MG Road" "roads")].

(** The startup sweep over [store]: record 3 is sent and confirmed. *)
Definition sweep : list action :=
  [Resume 0 DbOk; Resume 0 (Resolved "0x01"); Resume 0 (Resolved "0x02")].

Definition three : complaint := select_row (3, blank).
Definition seven_row : complaint := select_row (7, blank).

Definition sweep_events : list event :=
  [Fetched [three; seven_row]; MintInvoked three;
   Submit (LogComplaint 3 "Unknown" "General");
   Confirmed (LogComplaint 3 "Unknown" "General") "0x02"].

Definition sweep_state : state :=
  State {[3]} ∅ store false
    [TMint three (AwaitStoreHash "0x02") (FromBacklog [seven_row])].

(** The mint of record 7 is rejected and the store accepts the marker. *)
Definition failing_mint : list action :=
  [Resume 0 DbOk; Resume 0 (Thrown (Some "nonce too low")); Resume 0 DbOk].

Definition sending_state : state :=
  State {[7]} ∅ (<[7 := blank]> ∅) false
    [TMint seven_row AwaitLogComplaint (FromBacklog [])].

Definition rejected_state : state :=
  State {[7]} ∅ (<[7 := blank]> ∅) false
    [TMint seven_row (AwaitStoreError "ERROR: nonce too low") (FromBacklog [])].

(** A second INSERT notification for record 7, carrying a receipt,
    while the first is in flight. *)
Definition duplicate_insert : list action :=
  [Resume 0 DbOk; NotifyInsert seven; Resume 0 TimerFired;
   NotifyInsert seven_minted].

Definition duplicate_state : state :=
  State {[7]} ∅ ∅ true
    [TMint seven AwaitLogComplaint FromInsert; TInsertSettle seven_minted].

(** Three UPDATE notifications for record 7: resolved, resolved,
    verified. *)
Definition status_updates : list action :=
  [Resume 0 DbOk;
   NotifyUpdate (Some seven) (Some seven_resolved);
   NotifyUpdate None (Some seven_resolved);
   NotifyUpdate (Some seven_resolved) (Some seven_verified)].

Definition status_events : list event :=
  [Fetched []; Subscribed; Submit (UpdateComplaintStatus 7 1);
   StatusSkip "7:1"; Submit (UpdateComplaintStatus 7 2)].
End Run.

(** ** Further definitions: runs of the engine *)

(** The record whose mint invocation a task is, if any: the holder of an
    id in [processingComplaints]. *)
Definition holds_mint (t : task) : option Z :=
  match t with
  | TMint c _ _ => Some (complaintId c)
  | _ => None
  end.

(** The key a status invocation holds in [processingStatusUpdates]. *)
Definition holds_status (t : task) : option string :=
  match t with
  | TStatus c _ => Some (key_of c)
  | _ => None
  end.

Definition mint_ids (ts : list task) : list Z := omap holds_mint ts.
Definition status_keys (ts : list task) : list string := omap holds_status ts.

(** Same row up to [tx_hash]. *)
Definition same_columns (r r' : row) : Prop :=
  row_municipal_id r' = row_municipal_id r
  ∧ row_locationAB r' = row_locationAB r
  ∧ row_category_id r' = row_category_id r
  ∧ row_status r' = row_status r.

Definition is_store_insert (id : Z) (a : action) : bool :=
  match a with
  | StoreInsert id' _ => bool_decide (id' = id)
  | _ => false
  end.

Definition is_resume (a : action) : bool :=
  match a with Resume _ _ => true | _ => false end.

(** One of the skip lines (80, 88, 169) is printed. *)
Definition is_skip (e : event) : bool :=
  match e with
  | SkipProcessing _ | SkipMinted _ _ | StatusSkip _ => true
  | _ => false
  end.

(** What a suspended mint is about to write, and why it may. *)
Definition pending_write_ok (evs : list event) (t : task) : Prop :=
  match t with
  | TMint c (AwaitStoreHash h) _ => Confirmed (mint_op c) h ∈ evs
  | TMint c (AwaitStoreError text) _ => ∃ m, text = error_marker m
  | _ => True
  end.

(** A process started afresh on the table as [s] leaves it: the in-flight
    sets of line 62-63 and every suspended invocation are gone
    (lines 398-408 exit without waiting for them). *)
Definition restart (s : state) : state := init (db s).

(** The resumes the startup loop still needs at most: four [await]s and
    one store retry per record, and the delay of line 216. *)
Definition sweep_measure (t : task) : nat :=
  match t with
  | TBacklogQuery => 1
  | TBacklogDelay rest => 1 + 5 * List.length rest
  | TMint _ pc (FromBacklog rest) => mint_rank pc + 1 + 5 * List.length rest
  | _ => 0
  end.

(** The in-flight sets are exactly the keys of the invocations in
    progress, and no two invocations in progress share a key. *)
Definition registry_inv (s : state) : Prop :=
  NoDup (mint_ids (tasks s))
  ∧ (∀ id, id ∈ processingComplaints s ↔ id ∈ mint_ids (tasks s))
  ∧ NoDup (status_keys (tasks s))
  ∧ (∀ key, key ∈ processingStatusUpdates s ↔ key ∈ status_keys (tasks s)).

(** Where the text in a [tx_hash] can come from: it was in the table at
    the start, the application inserted the row with it, it is the hash of
    a receipt that [tx.wait()] delivered for a [logComplaint] of that id,
    or it is an error text built at line 151. *)
Definition tx_hash_origin
    (d : gmap Z row) (acts : list action) (evs : list event)
    (id : Z) (h : string) : Prop :=
  (∃ r0, d !! id = Some r0 ∧ row_tx_hash r0 = Some h)
  ∨ (∃ r', StoreInsert id r' ∈ acts ∧ row_tx_hash r' = Some h)
  ∨ (∃ c, complaintId c = id ∧ Confirmed (mint_op c) h ∈ evs)
  ∨ (∃ m, h = error_marker m).

(** *** The startup sweep, in more detail *)

(** The contract calls of a run, and its skip lines. *)
Definition submits (evs : list event) : list event := List.filter is_submit evs.
Definition skips (evs : list event) : list event := List.filter is_skip evs.

(** One [logComplaint] per record, in order. *)
Definition creates (cs : list complaint) : list event :=
  (λ c, Submit (mint_op c)) <$> cs.

Definition count_resumes (acts : list action) : nat :=
  List.length (List.filter is_resume acts).

(** Every row of [d] with a null [tx_hash] is among the records [cs]. *)
Definition covers_null_rows (d : gmap Z row) (cs : list complaint) : Prop :=
  ∀ id r, d !! id = Some r → row_tx_hash r = None → select_row (id, r) ∈ cs.

(** The engine between its start on table [d] and the call of
    [setupRealtimeListener], after [n] resumes. *)
Inductive sweep_inv (d : gmap Z row) (n : nat) (evs : list event) (s : state) : Prop :=
| SI_query :
    tasks s = [TBacklogQuery] → evs = [] → n = 0%nat →
    processingComplaints s = ∅ → processingStatusUpdates s = ∅ →
    (∀ id r, d !! id = Some r → db s !! id = Some r) →
    sweep_inv d n evs s
| SI_mint (cs done rest : list complaint) (c : complaint) (pc : mint_pc) :
    cs = (done ++ c :: rest)%list →
    fetched evs = [Fetched cs] →
    covers_null_rows d cs →
    Forall (λ c', tx_hash c' = None) rest →
    tasks s = [TMint c pc (FromBacklog rest)] →
    processingComplaints s = {[complaintId c]} → processingStatusUpdates s = ∅ →
    submits evs = creates (done ++ [c]) →
    skips evs = [] →
    (n + mint_rank pc + 1 + 5 * List.length rest ≤ 1 + 5 * List.length cs)%nat →
    sweep_inv d n evs s
| SI_delay (cs done rest : list complaint) :
    cs = (done ++ rest)%list →
    fetched evs = [Fetched cs] →
    covers_null_rows d cs →
    Forall (λ c', tx_hash c' = None) rest →
    tasks s = [TBacklogDelay rest] →
    processingComplaints s = ∅ → processingStatusUpdates s = ∅ →
    submits evs = creates done →
    skips evs = [] →
    (n + 1 + 5 * List.length rest ≤ 1 + 5 * List.length cs)%nat →
    sweep_inv d n evs s.

(** The engine when [setupRealtimeListener] is called. *)
Definition sweep_done (d : gmap Z row) (n : nat) (evs : list event) (s : state) : Prop :=
  tasks s = [] ∧ processingComplaints s = ∅ ∧ processingStatusUpdates s = ∅
  ∧ skips evs = []
  ∧ ((∃ cs, fetched evs = [Fetched cs] ∧ covers_null_rows d cs
            ∧ submits evs = creates cs ∧ (n ≤ 1 + 5 * List.length cs)%nat)
     ∨ (fetched evs = [] ∧ submits evs = [] ∧ n = 1%nat)).

(** The answers after which [mintComplaintToBlockchain] ends without
    having written anything: a rejection whose error has no [message]
    (line 151 throws inside the inner [try]), a store that refuses or
    throws without message on the receipt (lines 130-134), and a store
    that refuses or throws on the error text (lines 154-156). *)
Definition unrecorded_outcome (pc : mint_pc) (r : response) : bool :=
  match pc, r with
  | AwaitLogComplaint, Thrown None => true
  | AwaitConfirmation, Thrown None => true
  | AwaitStoreHash _, DbError => true
  | AwaitStoreHash _, Thrown None => true
  | AwaitStoreError _, DbError => true
  | AwaitStoreError _, Thrown _ => true
  | _, _ => false
  end.

(** *** Where the records that are minted come from *)

(** The records a suspended invocation still has to deal with. *)
Definition task_records (t : task) : list complaint :=
  match t with
  | TBacklogQuery => []
  | TBacklogDelay rest => rest
  | TInsertSettle c => [c]
  | TMint c _ FromInsert => [c]
  | TMint c _ (FromBacklog rest) => c :: rest
  | TStatus _ _ => []
  end.

(** The record was among the rows of the startup query, or it is the
    payload of an INSERT notification. *)
Definition record_origin (acts : list action) (evs : list event) (c : complaint) : Prop :=
  (∃ cs, Fetched cs ∈ evs ∧ c ∈ cs) ∨ NotifyInsert c ∈ acts.

Definition known_records (acts : list action) (evs : list event) (s : state) : Prop :=
  Forall (λ t, Forall (record_origin acts evs) (task_records t)) (tasks s).

(** ** The Express endpoints (lines 287-365)

    [app.listen] is called right after [setupRealtimeListener] (lines
    376-379), so requests are served once [listening] is set. *)

(** A number out of [JSON.parse]: an integer (0 stands for both zeros) or
    a number that is not an integer, which is never 0. *)
Inductive jnumber :=
| JInt (z : Z)
| JNonInt.

(** A value of the body that [express.json()] has parsed (line 11). *)
Inductive json :=
| JNull
| JBool (b : bool)
| JNumber (n : jnumber)
| JString (s : string)
| JCompound.                      (* an array or an object *)

(** The three properties that line 289 reads from [req.body]; a property
    that is absent reads as [undefined]. *)
Record request_body := RequestBody {
  rb_complaintId : option json;
  rb_city : option json;
  rb_category : option json
}.

(** JavaScript truthiness of such a value. *)
Definition json_truthy (v : option json) : bool :=
  match v with
  | None | Some JNull => false
  | Some (JBool b) => b
  | Some (JNumber (JInt z)) => negb (z =? 0)%Z
  | Some (JNumber JNonInt) => true
  | Some (JString s) => negb (String.eqb s "")
  | Some JCompound => true
  end.

(** The test of line 291: [!complaintId || !city || !category]. *)
Definition missingFields (b : request_body) : bool :=
  negb (json_truthy (rb_complaintId b))
  || negb (json_truthy (rb_city b))
  || negb (json_truthy (rb_category b)).

(** The values that are falsy. *)
Definition is_falsy (v : option json) : Prop :=
  v = None ∨ v = Some JNull ∨ v = Some (JBool false)
  ∨ v = Some (JNumber (JInt 0)) ∨ v = Some (JString "").

(** The bodies that the rest of the handler is modelled for: a
    [complaintId] that is an integer and a [city] and a [category] that
    are strings, each of which may be absent.  The handler hands the
    values to [contract.logComplaint] as they are (line 302); what the
    contract library does with a value of another type is not part of
    this model. *)
Record body := Body {
  body_complaintId : option Z;
  body_city : option string;
  body_category : option string
}.

(** Such a body as the parsed JSON it stands for. *)
Definition json_of_body (b : body) : request_body :=
  RequestBody ((λ z, JNumber (JInt z)) <$> body_complaintId b)
    (JString <$> body_city b) (JString <$> body_category b).

(** Truthiness of a nullable number: [null], [undefined] and 0 are falsy. *)
Definition number_truthy (v : option Z) : bool :=
  match v with
  | Some z => negb (z =? 0)%Z
  | None => false
  end.

Inductive reply :=
| BadRequest                      (* 400, lines 292-294 *)
| Logged (txHash : string) (complaintId : Z) (city category : string)
                                  (* 200, lines 309-315 *)
| ServerError (message : option string).  (* 500, lines 318-321 *)

(** The [await]s of the POST handler. *)
Inductive post_pc :=
| PostAwaitLogComplaint           (* line 302 *)
| PostAwaitConfirmation.          (* line 306 *)

Record post := Post {
  post_id : Z;
  post_city : string;
  post_category : string;
  post_at : post_pc
}.

Definition post_op (p : post) : ledger_op :=
  LogComplaint (post_id p) (post_city p) (post_category p).

(** The engine together with the POST handlers that are suspended. *)
Record server := Server {
  engine : state;
  posts : list post
}.

(** Lines 287-302: from the request up to the first [await]. *)
Definition postLogComplaint (b : body) (sv : server)
    : list event * list reply * server :=
  if negb (number_truthy (body_complaintId b))
     || negb (Js.truthy (body_city b))
     || negb (Js.truthy (body_category b))
  then ([], [BadRequest], sv)
  else
    let id := default 0 (body_complaintId b) in
    let city := default "" (body_city b) in
    let category := default "" (body_category b) in
    ([Submit (LogComplaint id city category)], [],
     Server (engine sv) (posts sv ++ [Post id city category PostAwaitLogComplaint])).

(** Lines 302-322: the suspended handler in slot [i] is resumed. *)
Definition resume_post (i : nat) (r : response) (sv : server)
    : option (list event * list reply * server) :=
  match posts sv !! i with
  | None => None
  | Some p =>
      match post_at p, r with
      | PostAwaitLogComplaint, Resolved _ =>
          Some ([], [],
                Server (engine sv)
                  (<[i := Post (post_id p) (post_city p) (post_category p)
                            PostAwaitConfirmation]> (posts sv)))
      | PostAwaitConfirmation, Resolved hash =>
          Some ([Confirmed (post_op p) hash],
                [Logged hash (post_id p) (post_city p) (post_category p)],
                Server (engine sv) (delete i (posts sv)))
      | _, Thrown m =>
          Some ([Rejected (post_op p)], [ServerError m],
                Server (engine sv) (delete i (posts sv)))
      | _, _ => None
      end
  end.

Inductive request :=
| Engine (a : action)               (* something happens in the engine *)
| PostLogComplaint (b : body)       (* POST /logComplaint arrives *)
| ResumePost (i : nat) (r : response).

Definition serve (q : request) (sv : server)
    : option (list event * list reply * server) :=
  match q with
  | Engine a =>
      match step a (engine sv) with
      | Some (evs, s') => Some (evs, [], Server s' (posts sv))
      | None => None
      end
  | PostLogComplaint b =>
      if listening (engine sv) then Some (postLogComplaint b sv) else None
  | ResumePost i r => resume_post i r sv
  end.

Fixpoint serve_all (qs : list request) (sv : server)
    : option (list event * list reply * server) :=
  match qs with
  | [] => Some ([], [], sv)
  | q :: qs' =>
      match serve q sv with
      | Some (e1, r1, sv1) =>
          match serve_all qs' sv1 with
          | Some (e2, r2, sv2) => Some ((e1 ++ e2)%list, (r1 ++ r2)%list, sv2)
          | None => None
          end
      | None => None
      end
  end.

(** The process after [startServer()] was called on table [d]. *)
Definition boot (d : gmap Z row) : server := Server (init d) [].

(** An accepted POST for [id]. *)
Definition is_post_for (id : Z) (q : request) : bool :=
  match q with
  | PostLogComplaint b =>
      number_truthy (body_complaintId b) && Js.truthy (body_city b)
      && Js.truthy (body_category b) && bool_decide (body_complaintId b = Some id)
  | _ => false
  end.

Definition is_post (q : request) : bool :=
  match q with PostLogComplaint _ => true | _ => false end.

(** Lines 343-344 of GET /getComplaint/:id: the text for a status code
    read from the contract. *)
Definition statusText (statusEnum : Z) : string :=
  if (statusEnum =? 0)%Z then "pending"
  else if (statusEnum =? 1)%Z then "resolved"
  else if (statusEnum =? 2)%Z then "verified"
  else "unknown".

(** ** The screens of the application that read what the engine writes

    [CivicReporter/src/screens/MapScreen.tsx] and [HomeScreen.tsx]. *)

(** MapScreen.tsx, lines 235-247: the [backgroundColor] of a marker. *)
Definition markerColorForStatus (status : option string) : string :=
  let s := Js.toLowerCase (Js.toStringOrEmpty status) in
  if String.eqb s "verified" then "#2e7d32"
  else if String.eqb s "resolved" then "#1565c0"
  else if String.eqb s "pending" || String.eqb s "open" then "#d32f2f"
  else "#6c757d".

(** HomeScreen.tsx, lines 376-380: the Verify button is rendered when
    [item.tx_hash] is truthy and opens this address. *)
Definition verifyUrl (tx_hash : option string) : option string :=
  if Js.truthy tx_hash
  then Some ("https://sepolia.etherscan.io/tx/" +:+ default "" tx_hash)
  else None.

(** [toUpperCase] on one code unit; as for [Js.toLowerCase], only a-z are
    folded, which is what JavaScript does on code units below 128. *)
Definition upperChar (a : ascii) : ascii :=
  if isLower a then ascii_of_N (N_of_ascii a - 32) else a.

Definition is_ascii7 (a : ascii) : bool := (N_of_ascii a <? 128)%N.

Fixpoint ascii_only (s : string) : bool :=
  match s with
  | EmptyString => true
  | String a s' => is_ascii7 a && ascii_only s'
  end.

(** [s.split(' ')] *)
Fixpoint split_space (s : string) : list string :=
  match s with
  | EmptyString => [EmptyString]
  | String a s' =>
      if Ascii.eqb a " "
      then EmptyString :: split_space s'
      else match split_space s' with
           | w :: ws => String a w :: ws
           | [] => [String a EmptyString]
           end
  end.

(** [ws.join(' ')] *)
Fixpoint join_space (ws : list string) : string :=
  match ws with
  | [] => EmptyString
  | [w] => w
  | w :: ws' => w +:+ String " " (join_space ws')
  end.

(** [w.length ? w.charAt(0).toUpperCase() + w.slice(1) : w] *)
Definition capitalize (w : string) : string :=
  match w with
  | EmptyString => w
  | String a w' => String (upperChar a) w'
  end.

(** HomeScreen.tsx, lines 30-34. *)
Definition makeTitleCase (s : string) : string :=
  join_space (capitalize <$> split_space s).

(** The same in one pass over the string: a code unit is folded when it
    starts the string or follows a space. *)
Fixpoint title_pass (at_start : bool) (s : string) : string :=
  match s with
  | EmptyString => EmptyString
  | String a s' =>
      if Ascii.eqb a " " then String a (title_pass true s')
      else String (if at_start then upperChar a else a) (title_pass false s')
  end.

(** *** More sample runs *)

Module Run2.
Import Sample.

Definition create7 : ledger_op := LogComplaint 7 "Unknown" "General".

Definition marked : row := with_tx_hash (Some "ERROR: nonce too low") blank.

(** [Run.failing_mint] on a table with row 7 only. *)
Definition failing_mint_events : list event :=
  [Fetched [Run.seven_row]; MintInvoked Run.seven_row; Submit create7;
   Rejected create7; ReleaseMint 7; MintReturned 7].

Definition failed_state : state :=
  State ∅ ∅ (<[7 := marked]> ∅) false [TBacklogDelay []].

(** [Run.duplicate_insert] from an empty table. *)
Definition duplicate_events : list event :=
  [Fetched []; Subscribed; MintInvoked seven; Submit create7].

(** [Run.status_updates] from an empty table. *)
Definition status_state : state :=
  State ∅ {["7:1"; "7:2"]} ∅ true
    [TStatus seven_resolved AwaitUpdateStatus;
     TStatus seven_verified AwaitUpdateStatus].

(** A restart while the mint of row 7 was in flight: the call is rejected
    without a message, then the delay ends. *)
Definition rerun : list action := [Resume 0 DbOk; Resume 0 (Thrown None)].

Definition rerun_state : state :=
  State ∅ ∅ (<[7 := blank]> ∅) false [TBacklogDelay []].

Definition rerun_end : state :=
  State ∅ ∅ (<[7 := blank]> ∅) true [].

(** The listener is active, the table is [store], an INSERT notification
    for record 7 waits for its settle delay. *)
Definition settling : state :=
  State ∅ ∅ store true [TInsertSettle seven].

(** Row 7 already carries a receipt when the notification arrives. *)
Definition settling_minted : state :=
  State ∅ ∅ (<[7 := with_tx_hash (Some "0xabc") blank]> ∅) true
    [TInsertSettle seven].

Definition idle : state := State ∅ ∅ ∅ true [].

Definition good_body : body := Body (Some 7) (Some "Pune") (Some "roads").
Definition zero_body : body := Body (Some 0) (Some "Pune") (Some "roads").

(** A POST that is sent and confirmed. *)
Definition post_run : list request :=
  [Engine (Resume 0 DbOk); PostLogComplaint good_body;
   ResumePost 0 (Resolved "0x0a"); ResumePost 0 (Resolved "0x0b")].

Definition post_events : list event :=
  [Fetched []; Subscribed; Submit (LogComplaint 7 "Pune" "roads");
   Confirmed (LogComplaint 7 "Pune" "roads") "0x0b"].

Definition post_replies : list reply := [Logged "0x0b" 7 "Pune" "roads"].

(** The whole sweep over [store]: both records are sent, confirmed and
    written back; only the last delay is still running. *)
Definition whole_sweep : list action :=
  [Resume 0 DbOk;
   Resume 0 (Resolved "0x01"); Resume 0 (Resolved "0x02"); Resume 0 DbOk;
   Resume 0 TimerFired;
   Resume 0 (Resolved "0x03"); Resume 0 (Resolved "0x04"); Resume 0 DbOk].

Definition create3 : ledger_op := LogComplaint 3 "Unknown" "General".

Definition whole_sweep_events : list event :=
  [Fetched [Run.three; Run.seven_row];
   MintInvoked Run.three; Submit create3; Confirmed create3 "0x02";
   ReleaseMint 3; MintReturned 3;
   MintInvoked Run.seven_row; Submit create7; Confirmed create7 "0x04";
   ReleaseMint 7; MintReturned 7].

Definition swept_store : gmap Z row :=
  <[7 := with_tx_hash (Some "0x04") blank]>
    (<[3 := with_tx_hash (Some "0x02") blank]> ∅).

Definition whole_sweep_state : state :=
  State ∅ ∅ swept_store false [TBacklogDelay []].

Definition swept : state := State ∅ ∅ swept_store true [].


(** Record 7 is inserted and notified while the listener is active, its
    mint is rejected and the store accepts the error text ... *)
Definition rejected_insert : list action :=
  [Resume 0 DbOk; StoreInsert 7 blank; NotifyInsert seven;
   Resume 0 TimerFired; Resume 0 (Thrown (Some "nonce too low"));
   Resume 0 DbOk].

Definition rejected_insert_events : list event :=
  [Fetched []; Subscribed; MintInvoked seven; Submit create7;
   Rejected create7; ReleaseMint 7; MintReturned 7].

Definition marked_state : state := State ∅ ∅ (<[7 := marked]> ∅) true [].

(** ... and the same notification is delivered a second time. *)
Definition redelivery : list action := [NotifyInsert seven; Resume 0 TimerFired].

Definition redelivery_events : list event := [MintInvoked seven; Submit create7].
End Run2.

(** * Properties *)

(** ** Status mapper *)

Section StatusMapper.

Lemma elem_of_all_ascii (a : ascii) : a ∈ all_ascii.
Proof.
  unfold all_ascii. apply list_elem_of_fmap.
  exists (nat_of_ascii a). split.
  - symmetry. apply ascii_nat_embedding.
  - apply elem_of_seq. pose proof (nat_ascii_bounded a). lia.
Qed.

Lemma same_letter_lowerChar (a b : ascii) :
  same_letter a b = Ascii.eqb (Js.lowerChar a) (Js.lowerChar b).
Proof.
  assert (Hall : forallb (λ x, forallb (λ y,
            Bool.eqb (same_letter x y)
                     (Ascii.eqb (Js.lowerChar x) (Js.lowerChar y)))
            all_ascii) all_ascii = true) by (vm_compute; reflexivity).
  rewrite forallb_forall in Hall.
  specialize (Hall a (proj1 (list_elem_of_In _ _) (elem_of_all_ascii a))).
  rewrite forallb_forall in Hall.
  specialize (Hall b (proj1 (list_elem_of_In _ _) (elem_of_all_ascii b))).
  by apply Bool.eqb_prop.
Qed.

Lemma eq_ignore_case_toLowerCase (s t : string) :
  eq_ignore_case s t = String.eqb (Js.toLowerCase s) (Js.toLowerCase t).
Proof.
  revert t. induction s as [|a s IH]; intros [|b t]; simpl; try done.
  by rewrite same_letter_lowerChar, IH.
Qed.

Lemma toStringOrEmpty_Some (s : string) : Js.toStringOrEmpty (Some s) = s.
Proof.
  unfold Js.toStringOrEmpty, Js.or, Js.truthy.
  destruct (String.eqb_spec s "") as [->|]; done.
Qed.

Lemma mapStatusToEnum_refines (s : string) :
  mapStatusToEnum (Some s) = StatusMapper_map s.
Proof.
  unfold mapStatusToEnum, StatusMapper_map.
  rewrite toStringOrEmpty_Some, !eq_ignore_case_toLowerCase. done.
Qed.

Lemma mapStatusToEnum_range (v : option string) :
  mapStatusToEnum v = 0 ∨ mapStatusToEnum v = 1 ∨ mapStatusToEnum v = 2.
Proof. unfold mapStatusToEnum. repeat case_match; auto. Qed.

End StatusMapper.

(** C6.  [mapStatusToEnum] is a total function that agrees on every string
    with the Status Mapper of the specification: compared without regard
    to case, "pending" gives 0, "resolved" gives 1, "verified" gives 2 and
    every other string, the empty one included, gives 0; a missing status
    gives 0 as well, two strings that are equal up to case get the same
    code, and the five sample values of the specification come out as
    listed. *)
Theorem mapStatusToEnum_is_StatusMapper :
  (∀ s : string, mapStatusToEnum (Some s) = StatusMapper_map s)
  ∧ (∀ s t : string,
       eq_ignore_case s t = true →
       mapStatusToEnum (Some s) = mapStatusToEnum (Some t))
  ∧ mapStatusToEnum None = 0
  ∧ mapStatusToEnum (Some "PENDING") = 0
  ∧ mapStatusToEnum (Some "Resolved") = 1
  ∧ mapStatusToEnum (Some "verified") = 2
  ∧ mapStatusToEnum (Some "") = 0
  ∧ mapStatusToEnum (Some "bogus") = 0.
Proof.
  split_and!; try reflexivity.
  - apply mapStatusToEnum_refines.
  - intros s t Hst. rewrite eq_ignore_case_toLowerCase in Hst.
    apply String.eqb_eq in Hst. unfold mapStatusToEnum.
    by rewrite !toStringOrEmpty_Some, Hst.
Qed.

(** ** The guards of mintComplaintToBlockchain *)

Lemma no_submit_in (l : list event) :
  List.filter is_submit l = [] → ∀ op, Submit op ∉ l.
Proof.
  intros Hf op Hin%list_elem_of_In.
  assert (Hin' : In (Submit op) (List.filter is_submit l))
    by (apply filter_In; split; done).
  rewrite Hf in Hin'. destruct Hin'.
Qed.

Section MintGuards.
Context (c : complaint) (k : caller) (i : nat) (s : state).

Lemma mint_when_processing :
  complaintId c ∈ processingComplaints s →
  mintComplaintToBlockchain c k i s =
    ([MintInvoked c; SkipProcessing (complaintId c); MintReturned (complaintId c)],
     set_tasks (return_to k i (tasks s)) s).
Proof. intros Hin. unfold mintComplaintToBlockchain. by rewrite decide_True. Qed.

Lemma mint_when_minted :
  complaintId c ∉ processingComplaints s →
  Js.truthy (tx_hash c) = true →
  mintComplaintToBlockchain c k i s =
    ([MintInvoked c; SkipMinted (complaintId c) (tx_hash c);
      MintReturned (complaintId c)],
     set_tasks (return_to k i (tasks s)) s).
Proof.
  intros Hin Ht. unfold mintComplaintToBlockchain.
  by rewrite decide_False, Ht.
Qed.

Lemma mint_when_fresh :
  complaintId c ∉ processingComplaints s →
  Js.truthy (tx_hash c) = false →
  mintComplaintToBlockchain c k i s =
    ([MintInvoked c; Submit (mint_op c)],
     set_task i (TMint c AwaitLogComplaint k)
       (set_processingComplaints ({[complaintId c]} ∪ processingComplaints s) s)).
Proof.
  intros Hin Ht. unfold mintComplaintToBlockchain.
  by rewrite decide_False, Ht.
Qed.

Lemma mint_skip_no_submit :
  complaintId c ∈ processingComplaints s ∨ Js.truthy (tx_hash c) = true →
  let r := mintComplaintToBlockchain c k i s in
  (∀ op, Submit op ∉ r.1)
  ∧ db r.2 = db s
  ∧ processingComplaints r.2 = processingComplaints s
  ∧ processingStatusUpdates r.2 = processingStatusUpdates s
  ∧ tasks r.2 = return_to k i (tasks s).
Proof.
  intros Hg. destruct (decide (complaintId c ∈ processingComplaints s)) as [Hin|Hin].
  - rewrite mint_when_processing by done. simpl. split_and!; try done.
    by apply no_submit_in.
  - destruct Hg as [?|Ht]; [done|].
    rewrite mint_when_minted by done. simpl. split_and!; try done.
    by apply no_submit_in.
Qed.

End MintGuards.

(** C4 (amended).  For every record whose [tx_hash] is non-null and not the
    empty string, a call of [mintComplaintToBlockchain] returns in its
    first segment: it calls no contract method, leaves the record store
    and both in-flight sets unchanged and is not suspended. *)
Theorem mint_already_minted_noop (c : complaint) (k : caller) (i : nat) (s : state) :
  Js.truthy (tx_hash c) = true →
  let r := mintComplaintToBlockchain c k i s in
  (∀ op, Submit op ∉ r.1)
  ∧ db r.2 = db s
  ∧ processingComplaints r.2 = processingComplaints s
  ∧ processingStatusUpdates r.2 = processingStatusUpdates s
  ∧ tasks r.2 = return_to k i (tasks s).
Proof. intros Ht. apply mint_skip_no_submit. by right. Qed.

(** C8 (amended).  [mintComplaintToBlockchain] checks the in-flight set
    first and the receipt second, both before any contract call: when the
    id is in flight it returns at once; otherwise, when [tx_hash] is truthy
    it returns at once; only when both checks pass does it add the id to
    the in-flight set, build the payload and call [logComplaint].  The
    order of the specification gives the same contract calls and the same
    state and can differ only in which skip line is reported. *)
Theorem mint_guards_in_code_order (c : complaint) (k : caller) (i : nat) (s : state) :
  (complaintId c ∈ processingComplaints s →
     mintComplaintToBlockchain c k i s =
       ([MintInvoked c; SkipProcessing (complaintId c); MintReturned (complaintId c)],
        set_tasks (return_to k i (tasks s)) s))
  ∧ (complaintId c ∉ processingComplaints s → Js.truthy (tx_hash c) = true →
     mintComplaintToBlockchain c k i s =
       ([MintInvoked c; SkipMinted (complaintId c) (tx_hash c);
         MintReturned (complaintId c)],
        set_tasks (return_to k i (tasks s)) s))
  ∧ (complaintId c ∉ processingComplaints s → Js.truthy (tx_hash c) = false →
     mintComplaintToBlockchain c k i s =
       ([MintInvoked c; Submit (LogComplaint (complaintId c) (city_of c) (category_of c))],
        set_task i (TMint c AwaitLogComplaint k)
          (set_processingComplaints ({[complaintId c]} ∪ processingComplaints s) s)))
  ∧ (mintComplaintToBlockchain c k i s).2 = (mint_in_spec_order c k i s).2
  ∧ List.filter is_submit (mintComplaintToBlockchain c k i s).1
    = List.filter is_submit (mint_in_spec_order c k i s).1.
Proof.
  split_and!.
  - apply mint_when_processing.
  - apply mint_when_minted.
  - apply mint_when_fresh.
  - unfold mintComplaintToBlockchain, mint_in_spec_order.
    repeat case_match; done.
  - unfold mintComplaintToBlockchain, mint_in_spec_order.
    repeat case_match; done.
Qed.

(** ** At most one submission per in-flight key *)

Ltac unfold_step :=
  unfold step, resume_query, resume_mint, resume_status, backlog_loop,
    backlog_done, mint_catch, mint_finally, status_finally, on_update,
    updateComplaintStatusOnChain, mintComplaintToBlockchain, prepend in *.

Ltac clear_decide_eqs :=
  repeat match goal with
    | H : @eq (sumbool _ _) _ _ |- _ => clear H
    | H : @eq (Decision _) _ _ |- _ => clear H
    end.

Ltac step_cases H :=
  unfold_step; repeat case_match; simplify_eq/=; clear_decide_eqs.

Lemma count_if_app (p : event → bool) (l1 l2 : list event) :
  count_if p (l1 ++ l2) = (count_if p l1 + count_if p l2)%nat.
Proof. unfold count_if. by rewrite List.filter_app, length_app. Qed.

Lemma step_create_balance (id : Z) (a : action) (s s' : state) (evs : list event) :
  step a s = Some (evs, s') →
  (count_if (is_create id) evs + held id s
   ≤ count_if (is_mint_release id) evs + held id s')%nat.
Proof.
  intros Hstep. unfold held, count_if. step_cases Hstep;
    repeat case_bool_decide; repeat case_decide; simpl; try lia.
  all: exfalso; set_solver.
Qed.

Lemma exec_create_balance (id : Z) (acts : list action) :
  ∀ (s s' : state) (evs : list event),
    exec acts s = Some (evs, s') →
    (count_if (is_create id) evs + held id s
     ≤ count_if (is_mint_release id) evs + held id s')%nat.
Proof.
  induction acts as [|a acts IH]; intros s s' evs Hex; simpl in Hex.
  - simplify_eq. unfold count_if. simpl. lia.
  - destruct (step a s) as [[e1 s1]|] eqn:Hstep; [|done].
    destruct (exec acts s1) as [[e2 s2]|] eqn:Hrest; [|done].
    simplify_eq. rewrite !count_if_app.
    pose proof (step_create_balance id _ _ _ _ Hstep).
    pose proof (IH _ _ _ Hrest). lia.
Qed.

Lemma held_le_1 (id : Z) (s : state) : (held id s ≤ 1)%nat.
Proof. unfold held. case_decide; lia. Qed.

(** C2.  A call of [mintComplaintToBlockchain] whose id is in the
    in-flight set returns without a contract call; a call that passes both
    guards has put the id into the set by the end of the same atomic
    segment; and over any run of the engine the number of [logComplaint]
    calls for one id is at most one more than the number of invocations
    holding that id that have completed in the run.  So while the first
    invocation has not completed, at most one create is submitted. *)
Theorem mint_concurrent_at_most_one_create :
  (∀ (c : complaint) (k : caller) (i : nat) (s : state),
     complaintId c ∈ processingComplaints s →
     mintComplaintToBlockchain c k i s =
       ([MintInvoked c; SkipProcessing (complaintId c); MintReturned (complaintId c)],
        set_tasks (return_to k i (tasks s)) s))
  ∧ (∀ (c : complaint) (k : caller) (i : nat) (s : state),
     complaintId c ∉ processingComplaints s →
     Js.truthy (tx_hash c) = false →
     complaintId c ∈ processingComplaints (mintComplaintToBlockchain c k i s).2)
  ∧ (∀ (id : Z) (acts : list action) (s s' : state) (evs : list event),
     exec acts s = Some (evs, s') →
     (count_if (is_create id) evs ≤ 1 + count_if (is_mint_release id) evs)%nat)
  ∧ (∀ (id : Z) (acts : list action) (s s' : state) (evs : list event),
     exec acts s = Some (evs, s') →
     count_if (is_mint_release id) evs = 0%nat →
     (count_if (is_create id) evs ≤ 1)%nat
     ∧ (id ∈ processingComplaints s → count_if (is_create id) evs = 0%nat)).
Proof.
  split_and!.
  - intros. by apply mint_when_processing.
  - intros c k i s Hin Ht. rewrite mint_when_fresh by done. simpl. set_solver.
  - intros id acts s s' evs Hex.
    pose proof (exec_create_balance id _ _ _ _ Hex).
    pose proof (held_le_1 id s'). lia.
  - intros id acts s s' evs Hex Hrel.
    pose proof (exec_create_balance id _ _ _ _ Hex) as Hb.
    pose proof (held_le_1 id s'). split; [lia|].
    intros Hin. unfold held in Hb at 1. rewrite decide_True in Hb by done. lia.
Qed.

(** ** The in-flight key of status updates *)

Lemma string_app_cons (a : ascii) (s t : string) :
  String a s +:+ t = String a (s +:+ t).
Proof. reflexivity. Qed.

Lemma string_app_nil (t : string) : "" +:+ t = t.
Proof. reflexivity. Qed.

Lemma string_length_app (s t : string) :
  String.length (s +:+ t) = (String.length s + String.length t)%nat.
Proof.
  induction s as [|a s IH]; [done|].
  rewrite string_app_cons. simpl. by rewrite IH.
Qed.

Lemma string_app_suffix_inj (s1 s2 t1 t2 : string) :
  String.length t1 = String.length t2 →
  s1 +:+ t1 = s2 +:+ t2 → s1 = s2 ∧ t1 = t2.
Proof.
  revert s2. induction s1 as [|a s1 IH]; intros [|b s2] Hlen Heq;
    rewrite ?string_app_cons, ?string_app_nil in Heq.
  - done.
  - subst t1. simpl in Hlen. rewrite string_length_app in Hlen. lia.
  - subst t2. simpl in Hlen. rewrite string_length_app in Hlen. lia.
  - injection Heq as -> Heq. destruct (IH _ Hlen Heq) as [-> ->]. done.
Qed.

Lemma statusKey_inj (id1 id2 : Z) (v1 v2 : option string) :
  statusKey id1 (mapStatusToEnum v1) = statusKey id2 (mapStatusToEnum v2) →
  id1 = id2 ∧ mapStatusToEnum v1 = mapStatusToEnum v2.
Proof.
  unfold statusKey. intros Heq.
  apply string_app_suffix_inj in Heq as [Hid Hcode].
  - split; [by apply (inj pretty)|].
    destruct (mapStatusToEnum_range v1) as [H1|[H1|H1]],
             (mapStatusToEnum_range v2) as [H2|[H2|H2]];
      rewrite H1, H2 in *; done.
  - destruct (mapStatusToEnum_range v1) as [-> | [-> | ->]],
             (mapStatusToEnum_range v2) as [-> | [-> | ->]]; done.
Qed.

Lemma key_of_inj (c c' : complaint) :
  key_of c = key_of c' ↔
  complaintId c = complaintId c'
  ∧ mapStatusToEnum (status c) = mapStatusToEnum (status c').
Proof.
  split.
  - apply statusKey_inj.
  - unfold key_of. by intros [-> ->].
Qed.

Lemma step_status_balance (id code : Z) (a : action) (s s' : state) (evs : list event) :
  step a s = Some (evs, s') →
  (count_if (is_status_update id code) evs + status_held (statusKey id code) s
   ≤ count_if (is_status_release (statusKey id code)) evs
     + status_held (statusKey id code) s')%nat.
Proof.
  intros Hstep. unfold status_held, count_if. step_cases Hstep;
    repeat case_bool_decide; repeat case_decide; simpl; try lia.
  all: exfalso; destruct_and?; simplify_eq; set_solver.
Qed.

Lemma exec_status_balance (id code : Z) (acts : list action) :
  ∀ (s s' : state) (evs : list event),
    exec acts s = Some (evs, s') →
    (count_if (is_status_update id code) evs + status_held (statusKey id code) s
     ≤ count_if (is_status_release (statusKey id code)) evs
       + status_held (statusKey id code) s')%nat.
Proof.
  induction acts as [|a acts IH]; intros s s' evs Hex; simpl in Hex.
  - simplify_eq. unfold count_if. simpl. lia.
  - destruct (step a s) as [[e1 s1]|] eqn:Hstep; [|done].
    destruct (exec acts s1) as [[e2 s2]|] eqn:Hrest; [|done].
    simplify_eq. rewrite !count_if_app.
    pose proof (step_status_balance id code _ _ _ _ Hstep).
    pose proof (IH _ _ _ Hrest). lia.
Qed.

(** C7.  The in-flight key of a status update stands for the pair of the
    record id and the target code: two records get the same key exactly
    when they agree on both.  A call whose key is in flight submits
    nothing and changes nothing; a call whose key is not in flight calls
    [updateComplaintStatus] and takes the key, also while another code
    for the same id is in flight; and over any run the number of
    [updateComplaintStatus] calls for one (id, code) is at most one more
    than the number of completed invocations that held that key. *)
Theorem status_key_is_id_and_code :
  (∀ c c' : complaint,
     key_of c = key_of c' ↔
     complaintId c = complaintId c'
     ∧ mapStatusToEnum (status c) = mapStatusToEnum (status c'))
  ∧ (∀ (c : complaint) (s : state),
     key_of c ∈ processingStatusUpdates s →
     updateComplaintStatusOnChain c s = ([StatusSkip (key_of c)], s))
  ∧ (∀ (c : complaint) (s : state),
     key_of c ∉ processingStatusUpdates s →
     updateComplaintStatusOnChain c s =
       ([Submit (UpdateComplaintStatus (complaintId c) (mapStatusToEnum (status c)))],
        set_tasks (tasks s ++ [TStatus c AwaitUpdateStatus])
          (set_processingStatusUpdates ({[key_of c]} ∪ processingStatusUpdates s) s)))
  ∧ (∀ (c c' : complaint) (s : state),
     complaintId c' = complaintId c →
     mapStatusToEnum (status c') ≠ mapStatusToEnum (status c) →
     processingStatusUpdates s ⊆ {[key_of c]} →
     (updateComplaintStatusOnChain c' s).1 =
       [Submit (UpdateComplaintStatus (complaintId c) (mapStatusToEnum (status c')))])
  ∧ (∀ (id : Z) (v : option string) (acts : list action) (s s' : state)
       (evs : list event),
     exec acts s = Some (evs, s') →
     (count_if (is_status_update id (mapStatusToEnum v)) evs
      ≤ 1 + count_if (is_status_release (statusKey id (mapStatusToEnum v))) evs)%nat).
Proof.
  split_and!.
  - apply key_of_inj.
  - intros c s Hin. unfold updateComplaintStatusOnChain.
    fold (key_of c). by rewrite decide_True.
  - intros c s Hin. unfold updateComplaintStatusOnChain.
    fold (key_of c). by rewrite decide_False.
  - intros c c' s Hid Hcode Hsub. unfold updateComplaintStatusOnChain.
    fold (key_of c'). rewrite decide_False; [by rewrite Hid|].
    intros Hin. apply Hsub, elem_of_singleton, key_of_inj in Hin as [_ ?]. done.
  - intros id v acts s s' evs Hex.
    pose proof (exec_status_balance id (mapStatusToEnum v) _ _ _ _ Hex).
    assert (status_held (statusKey id (mapStatusToEnum v)) s' ≤ 1)%nat
      by (unfold status_held; case_decide; lia).
    lia.
Qed.

(** ** Release of the in-flight keys *)

(** C9.  Each answer to a suspended [mintComplaintToBlockchain] either
    moves it to a later [await] with the in-flight set untouched, or
    completes it, and then its id is not in [processingComplaints]; the
    same holds for [updateComplaintStatusOnChain] and its key.  A
    fulfilled promise, a rejected promise and a failed store update are
    all answered this way, so every completed invocation that acquired a
    key has released it. *)
Theorem in_flight_key_released :
  (∀ (s s' : state) (i : nat) (c : complaint) (pc : mint_pc) (k : caller)
      (r : response) (evs : list event),
     tasks s !! i = Some (TMint c pc k) →
     step (Resume i r) s = Some (evs, s') →
     (∃ pc', s' = set_task i (TMint c pc' k) s
             ∧ (mint_rank pc' < mint_rank pc)%nat)
     ∨ (tasks s' = return_to k i (tasks s)
        ∧ MintReturned (complaintId c) ∈ evs
        ∧ complaintId c ∉ processingComplaints s'))
  ∧ (∀ (s s' : state) (i : nat) (c : complaint) (pc : status_pc)
       (r : response) (evs : list event),
     tasks s !! i = Some (TStatus c pc) →
     step (Resume i r) s = Some (evs, s') →
     (∃ pc', s' = set_task i (TStatus c pc') s
             ∧ (status_rank pc' < status_rank pc)%nat)
     ∨ (tasks s' = delete i (tasks s)
        ∧ key_of c ∉ processingStatusUpdates s'))
  ∧ (∀ (s : state) (i : nat) (c : complaint) (pc : mint_pc) (k : caller),
     tasks s !! i = Some (TMint c pc k) →
     (∀ m, is_Some (step (Resume i (Thrown m)) s))
     ∧ match pc with
       | AwaitLogComplaint | AwaitConfirmation =>
           ∀ h, is_Some (step (Resume i (Resolved h)) s)
       | AwaitStoreHash _ | AwaitStoreError _ =>
           is_Some (step (Resume i DbOk) s) ∧ is_Some (step (Resume i DbError) s)
       end)
  ∧ (∀ (s : state) (i : nat) (c : complaint) (pc : status_pc),
     tasks s !! i = Some (TStatus c pc) →
     (∀ m, is_Some (step (Resume i (Thrown m)) s))
     ∧ (∀ h, is_Some (step (Resume i (Resolved h)) s))).
Proof.
  split_and!.
  - intros s s' i c pc k r evs Hi Hstep. simpl in Hstep. rewrite Hi in Hstep.
    unfold resume_mint, mint_catch, mint_finally, prepend in Hstep.
    destruct pc, r; simplify_eq/=; try destruct message; simplify_eq/=;
      first [ left; eexists; split; [reflexivity|simpl; lia]
            | right; split_and!; [done|set_solver|set_solver] ].
  - intros s s' i c pc r evs Hi Hstep. simpl in Hstep. rewrite Hi in Hstep.
    unfold resume_status, status_finally, prepend in Hstep.
    destruct pc, r; simplify_eq/=;
      first [ left; eexists; split; [reflexivity|simpl; lia]
            | right; split; [done|unfold key_of; set_solver] ].
  - intros s i c pc k Hi. simpl. rewrite Hi. destruct pc; simpl; eauto.
  - intros s i c pc Hi. simpl. rewrite Hi. destruct pc; simpl; eauto.
Qed.

(** ** The startup sweep *)

Lemma serial_from_app (b : bool) (l1 l2 : list event) :
  serial_from b (l1 ++ l2) = serial_from b l1 ≫= λ b', serial_from b' l2.
Proof.
  revert b. induction l1 as [|e l1 IH]; intros b; simpl; [done|].
  destruct e; try apply IH. destruct b; [done|apply IH].
Qed.

Lemma mint_calls_app (l1 l2 : list event) :
  mint_calls (l1 ++ l2) = (mint_calls l1 ++ mint_calls l2)%list.
Proof. apply List.filter_app. Qed.

Lemma fetched_app (l1 l2 : list event) :
  fetched (l1 ++ l2) = (fetched l1 ++ fetched l2)%list.
Proof. apply List.filter_app. Qed.

Lemma one_by_one_snoc (done : list complaint) (c : complaint) :
  one_by_one (done ++ [c]) =
  (one_by_one done ++ [MintInvoked c; MintReturned (complaintId c)])%list.
Proof. unfold one_by_one. by rewrite flat_map_app. Qed.

Lemma listening_mono (a : action) (s s' : state) (evs : list event) :
  step a s = Some (evs, s') → listening s = true → listening s' = true.
Proof. intros Hstep Hl. step_cases Hstep; done. Qed.

Lemma exec_listening_mono (acts : list action) :
  ∀ (s s' : state) (evs : list event),
    exec acts s = Some (evs, s') → listening s = true → listening s' = true.
Proof.
  induction acts as [|a acts IH]; intros s s' evs Hex Hl; simpl in Hex.
  - by simplify_eq.
  - destruct (step a s) as [[e1 s1]|] eqn:Hstep; [|done].
    destruct (exec acts s1) as [[e2 s2]|] eqn:Hrest; [|done].
    simplify_eq. eauto using listening_mono.
Qed.

Ltac side :=
  match goal with
    | |- fetched (_ ++ _) = _ =>
        rewrite fetched_app; simpl;
        repeat match goal with H : fetched _ = _ |- _ => rewrite H end;
        reflexivity
    | |- mint_calls (_ ++ _) = _ =>
        rewrite mint_calls_app; simpl;
        repeat match goal with H : mint_calls _ = _ |- _ => rewrite H end;
        rewrite ?one_by_one_snoc, ?app_nil_r, <- ?app_assoc; reflexivity
    | |- serial_from _ (_ ++ _) = _ =>
        rewrite serial_from_app;
        repeat match goal with H : serial_from _ _ = _ |- _ => rewrite H end;
        reflexivity
    | |- tasks _ = _ =>
        simpl; repeat match goal with H : tasks _ = _ |- _ => rewrite H end;
        reflexivity
    | |- _ = (_ ++ _)%list =>
        subst; rewrite <- ?app_assoc; reflexivity
    | |- listening _ = _ => assumption || reflexivity
    end.

(** The loop of lines 213-217 takes its next turn. *)
Lemma backlog_loop_phase (pre : list event) (s : state)
    (cs done rest : list complaint) (t : task) :
  listening s = false →
  tasks s = [t] →
  cs = (done ++ rest)%list →
  fetched pre = [Fetched cs] →
  mint_calls pre = one_by_one done →
  serial_from false pre = Some false →
  let r := backlog_loop rest 0 s in
  (listening r.2 = false ∧ backlog_phase (pre ++ r.1) r.2)
  ∨ (listening r.2 = true ∧ backlog_complete (pre ++ r.1) r.2).
Proof.
  intros Hlisten Ht Hcs Hf Hcalls Hser. destruct rest as [|c rest]; simpl.
  - right. split; [done|]. split_and!.
    + side.
    + side.
    + exists cs. split; [left; side|]. rewrite app_nil_r in Hcs. subst. side.
  - left. unfold mintComplaintToBlockchain.
    repeat case_match; simpl; (split; [done|]).
    + eapply (BP_delay _ _ cs (done ++ [c]) rest); side.
    + eapply (BP_delay _ _ cs (done ++ [c]) rest); side.
    + eapply (BP_mint _ _ cs done rest c AwaitLogComplaint); side.
Qed.

Lemma backlog_phase_step (pre : list event) (s : state)
    (a : action) (s' : state) (evs : list event) :
  listening s = false →
  backlog_phase pre s →
  step a s = Some (evs, s') →
  (listening s' = false ∧ backlog_phase (pre ++ evs) s')
  ∨ (listening s' = true ∧ backlog_complete (pre ++ evs) s').
Proof.
  intros Hlisten Hph Hstep. destruct a as [i r|c|old new|id row]; simpl in Hstep.
  - destruct Hph as [Ht ->|cs done rest c pc Hcs Hf Ht Hcalls Hser
                    |cs done rest Hcs Hf Ht Hcalls Hser].
    + (* the query is answered *)
      rewrite Ht in Hstep. destruct i as [|i]; [|done]. simpl in Hstep.
      unfold resume_query, prepend in Hstep.
      assert (Hfail : ∀ evs0 s0, backlog_done 0 s = (evs0, s0) →
                listening s0 = true ∧ backlog_complete ([] ++ evs0) s0).
      { unfold backlog_done. intros evs0 s0 ?. simplify_eq/=. rewrite Ht.
        split; [done|]. split_and!; [done|done|].
        exists []. split; [by right|done]. }
      destruct r; simplify_eq/=; [right; by apply Hfail| |right; by apply Hfail].
      destruct (select_null_sorted (db s)) as [|c cs] eqn:Hsel.
      * right. unfold backlog_done. simpl. rewrite Ht.
        split; [done|]. split_and!; [done|done|].
        exists []. split; [by left|done].
      * change (Fetched (c :: cs) :: (backlog_loop (c :: cs) 0 s).1)
          with ([Fetched (c :: cs)] ++ (backlog_loop (c :: cs) 0 s).1)%list.
        apply (backlog_loop_phase [Fetched (c :: cs)] s (c :: cs) []
                 (c :: cs) TBacklogQuery); done.
    + (* the mint in progress is answered *)
      rewrite Ht in Hstep. destruct i as [|i]; [|done]. simpl in Hstep.
      unfold resume_mint, mint_catch, mint_finally, prepend in Hstep.
      left. destruct pc, r; simplify_eq/=; try destruct message; simplify_eq/=;
        (split; [done|]);
        first
          [ by (eapply (BP_delay _ _ _ (done ++ [c]) rest); side)
          | by (eapply (BP_mint _ _ _ done rest c); side) ].
    + (* the two seconds of line 216 are over *)
      rewrite Ht in Hstep. destruct i as [|i]; [|done]. simpl in Hstep.
      destruct r; simplify_eq/=.
      pose proof (backlog_loop_phase pre s _ done rest _ Hlisten Ht eq_refl
                    Hf Hcalls Hser) as Hloop.
      by rewrite Hstep in Hloop.
  - by rewrite Hlisten in Hstep.
  - by rewrite Hlisten in Hstep.
  - destruct (db s !! id); simplify_eq/=. left. split; [done|].
    rewrite app_nil_r.
    destruct Hph; [eapply BP_query|eapply BP_mint|eapply BP_delay]; eauto.
Qed.

Lemma exec_backlog_phase (acts : list action) :
  ∀ (pre : list event) (s s' : state) (evs : list event),
    listening s = false →
    backlog_phase pre s →
    exec acts s = Some (evs, s') →
    listening s' = false →
    backlog_phase (pre ++ evs) s'.
Proof.
  induction acts as [|a acts IH]; intros pre s s' evs Hl Hph Hex Hl'; simpl in Hex.
  - simplify_eq. by rewrite app_nil_r.
  - destruct (step a s) as [[e1 s1]|] eqn:Hstep; [|done].
    destruct (exec acts s1) as [[e2 s2]|] eqn:Hrest; [|done].
    simplify_eq. rewrite app_assoc.
    destruct (backlog_phase_step _ _ _ _ _ Hl Hph Hstep) as [[Hl1 Hph1]|[Hl1 _]].
    + by eapply IH.
    + pose proof (exec_listening_mono _ _ _ _ Hrest Hl1). congruence.
Qed.

Lemma init_backlog_phase (d : gmap Z row) : backlog_phase [] (init d).
Proof. by apply BP_query. Qed.


Lemma backlog_phase_serial (evs : list event) (s : state) :
  backlog_phase evs s → is_Some (serial_from false evs).
Proof. intros [_ ->| ????? _ _ _ _ Hs | ??? _ _ _ _ Hs]; simpl; eauto. Qed.



(** *** The startup query *)


Lemma select_null_sorted_elem (d : gmap Z row) (c : complaint) :
  c ∈ select_null_sorted d ↔
  ∃ r, d !! complaintId c = Some r ∧ row_tx_hash r = None
       ∧ c = select_row (complaintId c, r).
Proof.
  unfold select_null_sorted. rewrite list_elem_of_fmap. split.
  - intros [[id r] [-> Hin]]. rewrite merge_sort_Permutation in Hin.
    apply list_elem_of_filter in Hin as [Hnull Hin].
    apply elem_of_map_to_list in Hin. exists r. done.
  - intros (r & Hr & Hnull & Hc). exists (complaintId c, r). split; [done|].
    rewrite merge_sort_Permutation. apply list_elem_of_filter. split; [done|].
    by apply elem_of_map_to_list.
Qed.


Lemma step_fetched (a : action) (s s' : state) (evs : list event) (cs : list complaint) :
  step a s = Some (evs, s') → Fetched cs ∈ evs → cs = select_null_sorted (db s).
Proof.
  intros Hstep Hin. step_cases Hstep;
    repeat (apply elem_of_cons in Hin as [Hin|Hin]; simplify_eq/=);
    try by apply elem_of_nil in Hin.
  all: congruence.
Qed.

(** C1 (amended).  The engine has no submission serializer: the two
    coordinators call the contract themselves.  Submissions are one at a
    time only during the startup sweep: in every run, as long as
    [setupRealtimeListener] has not been called, no contract method is
    called while an earlier call awaits its outcome, and at the moment
    the listener is set up no submission is open. *)
Theorem startup_sweep_submits_one_at_a_time
    (d : gmap Z row) (acts : list action) (evs : list event) (s : state) :
  exec acts (init d) = Some (evs, s) →
  listening s = false →
  serialized evs = true
  ∧ (∀ (a : action) (e : list event) (s' : state),
       step a s = Some (e, s') → listening s' = true →
       serial_from false (evs ++ e) = Some false).
Proof.
  intros Hex Hl.
  pose proof (exec_backlog_phase acts [] (init d) s evs eq_refl
                (init_backlog_phase d) Hex Hl) as Hph. simpl in Hph.
  split.
  - unfold serialized. apply bool_decide_eq_true.
    apply (backlog_phase_serial evs s Hph).
  - intros a e s' Hstep Hl'.
    destruct (backlog_phase_step _ _ _ _ _ Hl Hph Hstep)
      as [[? _]|[_ (_ & Hs & _)]]; [congruence|done].
Qed.

(** ** Failed mints *)

Lemma error_marker_truthy (m : string) : Js.truthy (Some (error_marker m)) = true.
Proof. reflexivity. Qed.

Lemma substring_length_le (n : nat) (s : string) :
  (String.length (substring 0 n s) ≤ n)%nat.
Proof.
  revert s. induction n as [|n IH]; intros [|a s]; simpl; try lia.
  specialize (IH s). lia.
Qed.

Lemma error_marker_shape (m : string) :
  substring 0 7 (error_marker m) = "ERROR: "
  ∧ (String.length (error_marker m) ≤ 207)%nat.
Proof.
  split.
  { unfold error_marker. rewrite !string_app_cons, string_app_nil. simpl.
    by destruct (substring 0 200 m). }
  unfold error_marker. rewrite string_length_app.
  pose proof (substring_length_le 200 m). simpl. lia.
Qed.

Lemma lookup_update_tx_hash (id : Z) (v : string) (d : gmap Z row) (r : row) :
  d !! id = Some r →
  update_tx_hash id v d !! id = Some (with_tx_hash (Some v) r).
Proof. intros Hr. unfold update_tx_hash. by rewrite lookup_alter_eq, Hr. Qed.

(** C3 (amended).  When the contract call or the wait for its
    confirmation is rejected with an error that has a message, the engine
    asks the record store to write the text "ERROR: " followed by the
    first 200 characters of the message into [tx_hash], the receipt field
    itself; when the store accepts, the row carries that text.  No other
    failure marker is stored. *)
Theorem mint_failure_writes_error_text
    (s s' : state) (i : nat) (c : complaint) (pc : mint_pc) (k : caller)
    (m : string) (evs : list event) :
  tasks s !! i = Some (TMint c pc k) →
  pc = AwaitLogComplaint ∨ pc = AwaitConfirmation →
  step (Resume i (Thrown (Some m))) s = Some (evs, s') →
  evs = [Rejected (mint_op c)]
  ∧ tasks s' !! i = Some (TMint c (AwaitStoreError ("ERROR: " +:+ substring 0 200 m)) k)
  ∧ db s' = db s
  ∧ (∀ (evs2 : list event) (s2 : state),
       step (Resume i DbOk) s' = Some (evs2, s2) →
       db s2 = alter (with_tx_hash (Some ("ERROR: " +:+ substring 0 200 m)))
                     (complaintId c) (db s)
       ∧ ∀ r, db s !! complaintId c = Some r →
              db s2 !! complaintId c
              = Some (with_tx_hash (Some ("ERROR: " +:+ substring 0 200 m)) r))
  ∧ substring 0 7 ("ERROR: " +:+ substring 0 200 m) = "ERROR: "
  ∧ (String.length ("ERROR: " +:+ substring 0 200 m) ≤ 207)%nat.
Proof.
  intros Hi Hpc Hstep. simpl in Hstep. rewrite Hi in Hstep.
  assert (Hlt : (i < List.length (tasks s))%nat) by (by eapply lookup_lt_Some).
  assert (evs = [Rejected (mint_op c)]
          ∧ s' = set_task i (TMint c (AwaitStoreError (error_marker m)) k) s)
    as [-> ->].
  { destruct Hpc as [-> | ->]; unfold resume_mint, mint_catch, prepend in Hstep;
      by simplify_eq/=. }
  fold (error_marker m).
  split_and!; [done| |done| |apply error_marker_shape..].
  - simpl. by rewrite list_lookup_insert_eq.
  - intros evs2 s2 Hstep2. simpl in Hstep2.
    rewrite list_lookup_insert_eq in Hstep2 by done. simpl in Hstep2.
    unfold mint_finally in Hstep2. simplify_eq/=. split; [done|].
    intros r Hr. by apply lookup_update_tx_hash.
Qed.

(** *** The marker stays *)

Lemma step_receipt_set (id : Z) (a : action) (s s' : state) (evs : list event) :
  step a s = Some (evs, s') → receipt_set id (db s) → receipt_set id (db s').
Proof.
  intros Hstep (r & h & Hr & Hh). unfold receipt_set.
  step_cases Hstep; eauto.
  all: try (unfold update_tx_hash; rewrite lookup_alter;
            case_decide; subst; rewrite ?Hr; simpl; eauto).
  rewrite lookup_insert_ne by congruence. eauto.
Qed.

Lemma exec_receipt_set (id : Z) (acts : list action) :
  ∀ (s s' : state) (evs : list event),
    exec acts s = Some (evs, s') → receipt_set id (db s) →
    receipt_set id (db s')
    ∧ ∀ cs c, Fetched cs ∈ evs → c ∈ cs → complaintId c ≠ id.
Proof.
  induction acts as [|a acts IH]; intros s s' evs Hex Hset; simpl in Hex.
  - simplify_eq. split; [done|]. intros cs c Hin. by apply elem_of_nil in Hin.
  - destruct (step a s) as [[e1 s1]|] eqn:Hstep; [|done].
    destruct (exec acts s1) as [[e2 s2]|] eqn:Hrest; [|done].
    simplify_eq.
    pose proof (step_receipt_set id _ _ _ _ Hstep Hset) as Hset1.
    destruct (IH _ _ _ Hrest Hset1) as [Hset2 Hf]. split; [done|].
    intros cs c [Hin|Hin]%elem_of_app Hc; [|by eapply Hf].
    apply (step_fetched _ _ _ _ _ Hstep) in Hin. subst cs.
    apply select_null_sorted_elem in Hc as (r & Hr & Hnull & _).
    intros Heq. destruct Hset as (r' & h & Hr' & Hh). rewrite Heq in Hr.
    congruence.
Qed.

Lemma receipt_set_not_selected (id : Z) (d : gmap Z row) (c : complaint) :
  receipt_set id d → c ∈ select_null_sorted d → complaintId c ≠ id.
Proof.
  intros (r' & h & Hr' & Hh) (r & Hr & Hnull & _)%select_null_sorted_elem Heq.
  rewrite Heq in Hr. congruence.
Qed.

(** The marker exists only when the store accepts it: a refused write
    leaves the table as it was. *)
Lemma refused_marker_leaves_table
    (s s' : state) (i : nat) (c : complaint) (k : caller) (text : string)
    (evs : list event) :
  tasks s !! i = Some (TMint c (AwaitStoreError text) k) →
  step (Resume i DbError) s = Some (evs, s') →
  db s' = db s ∧ complaintId c ∉ processingComplaints s'.
Proof.
  intros Hi Hstep. simpl in Hstep. rewrite Hi in Hstep. simpl in Hstep.
  unfold mint_finally in Hstep. simplify_eq/=. split; [done|set_solver].
Qed.

(** C10 (amended).  Once the store has accepted the error text of a
    failed mint, the [tx_hash] of that row is the text and so is not null.
    From then on, in every continuation of the run, the row keeps a
    non-null [tx_hash], the startup query never returns it, neither in
    this run nor in a run started afresh on the store as it then is; and a
    call of [mintComplaintToBlockchain] on a record that carries the text
    takes it for a receipt: it makes no contract call, writes nothing and,
    unless the id is in flight, reports the text as the existing
    [tx_hash].  The mint can be retried all the same, because the receipt
    guard reads the record it is handed and not the row: with the
    listener active, an INSERT notification for the same id whose payload
    has no [tx_hash] leads, right after the text was stored, to a second
    [logComplaint] call. *)
Theorem error_text_blocks_backlog_and_guard
    (s s' : state) (i : nat) (c : complaint) (k : caller) (m : string)
    (r0 : row) (evs : list event) :
  tasks s !! i = Some (TMint c (AwaitStoreError (error_marker m)) k) →
  db s !! complaintId c = Some r0 →
  step (Resume i DbOk) s = Some (evs, s') →
  db s' !! complaintId c = Some (with_tx_hash (Some (error_marker m)) r0)
  ∧ (∀ (acts : list action) (evs2 : list event) (s2 : state),
       exec acts s' = Some (evs2, s2) →
       receipt_set (complaintId c) (db s2)
       ∧ (∀ c', c' ∈ select_null_sorted (db s2) → complaintId c' ≠ complaintId c)
       ∧ (∀ cs c', Fetched cs ∈ evs2 → c' ∈ cs → complaintId c' ≠ complaintId c)
       ∧ (∀ (acts3 : list action) (evs3 : list event) (s3 : state) cs c',
            exec acts3 (init (db s2)) = Some (evs3, s3) →
            Fetched cs ∈ evs3 → c' ∈ cs → complaintId c' ≠ complaintId c))
  ∧ (∀ (c' : complaint) (k' : caller) (j : nat) (st : state),
       tx_hash c' = Some (error_marker m) →
       (∀ op, Submit op ∉ (mintComplaintToBlockchain c' k' j st).1)
       ∧ db (mintComplaintToBlockchain c' k' j st).2 = db st
       ∧ (complaintId c' ∉ processingComplaints st →
          (mintComplaintToBlockchain c' k' j st).1
          = [MintInvoked c'; SkipMinted (complaintId c') (Some (error_marker m));
             MintReturned (complaintId c')]))
  ∧ (∀ c' : complaint,
       listening s' = true →
       complaintId c' = complaintId c →
       Js.truthy (tx_hash c') = false →
       ∃ s2, exec [NotifyInsert c'; Resume (List.length (tasks s')) TimerFired] s'
             = Some ([MintInvoked c'; Submit (mint_op c')], s2)
             ∧ db s2 !! complaintId c
               = Some (with_tx_hash (Some (error_marker m)) r0)).
Proof.
  intros Hi Hr Hstep. simpl in Hstep. rewrite Hi in Hstep. simpl in Hstep.
  unfold mint_finally in Hstep. simplify_eq/=.
  assert (Hset : receipt_set (complaintId c)
                   (update_tx_hash (complaintId c) (error_marker m) (db s))).
  { eexists _, _. split; [by apply lookup_update_tx_hash|done]. }
  split_and!.
  - by apply lookup_update_tx_hash.
  - intros acts evs2 s2 Hex.
    destruct (exec_receipt_set (complaintId c) _ _ _ _ Hex Hset) as [Hset2 Hf].
    split_and!; [done| |done|].
    + intros c'. by apply receipt_set_not_selected.
    + intros acts3 evs3 s3 cs c' Hex3.
      by apply (exec_receipt_set (complaintId c) _ _ _ _ Hex3 Hset2).
  - intros c' k' j st Hc'.
    assert (Ht : Js.truthy (tx_hash c') = true)
      by (rewrite Hc'; apply error_marker_truthy).
    destruct (mint_skip_no_submit c' k' j st (or_intror Ht)) as (Hno & Hdb & _).
    split_and!; [done..|].
    intros Hin. rewrite mint_when_minted by done. simpl. by rewrite Hc'.
  - intros c' Hl Hid Hnull. simpl in Hl. simpl. rewrite Hl. simpl.
    rewrite lookup_app_r by done. rewrite Nat.sub_diag. simpl.
    rewrite mint_when_fresh; [|simpl; rewrite Hid; set_solver|done].
    simpl. eexists. split; [reflexivity|]. simpl.
    by apply lookup_update_tx_hash.
Qed.

(** * Concrete runs *)

(** C1, counterexample.  With the listener active, two INSERT
    notifications lead to two [logComplaint] calls of which the second is
    made while the first has no outcome yet. *)
Lemma live_submissions_overlap :
  fst <$> exec Run.two_inserts (init ∅) = Some Run.two_inserts_events
  ∧ serialized Run.two_inserts_events = false
  ∧ ¬ (∀ (d : gmap Z row) (acts : list action) (evs : list event) (s : state),
         exec acts (init d) = Some (evs, s) → serialized evs = true).
Proof.
  assert (Hrun : fst <$> exec Run.two_inserts (init ∅) = Some Run.two_inserts_events)
    by (vm_compute; reflexivity).
  split_and!; [done|by vm_compute|].
  intros Hall.
  destruct (exec Run.two_inserts (init ∅)) as [[evs s]|] eqn:Hex; [|done].
  specialize (Hall _ _ _ _ Hex). simpl in Hrun. by simplify_eq.
Qed.

(** C3, counterexample.  The mint of record 7 is rejected: afterwards the
    [tx_hash] of row 7 is the text "ERROR: nonce too low", although the
    ledger delivered no receipt in the run. *)
Lemma error_text_lands_in_tx_hash :
  (exec Run.failing_mint (init (<[7 := Sample.blank]> ∅))
     ≫= λ r, db r.2 !! 7)
  = Some (Row None None None None (Some "ERROR: nonce too low"))
  ∧ ¬ receipt_field_holds_receipts.
Proof.
  assert (Hrun : (exec Run.failing_mint (init (<[7 := Sample.blank]> ∅))
                    ≫= λ r, db r.2 !! 7)
                 = Some (Row None None None None (Some "ERROR: nonce too low")))
    by (vm_compute; reflexivity).
  split; [done|]. intros Hclaim.
  destruct (exec Run.failing_mint (init (<[7 := Sample.blank]> ∅)))
    as [[evs s]|] eqn:Hex; [|done].
  simpl in Hrun.
  assert (Hevs : List.filter (λ e, match e with Confirmed _ _ => true | _ => false end)
                   evs = []).
  { assert (fst <$> exec Run.failing_mint (init (<[7 := Sample.blank]> ∅))
            = Some evs) as Hfst by (by rewrite Hex).
    vm_compute in Hfst. by simplify_eq. }
  destruct (Hclaim _ _ _ _ 7 _ "ERROR: nonce too low" Hex Hrun eq_refl)
    as [(r0 & Hr0 & Hh)|[op Hin]].
  - rewrite lookup_insert_eq in Hr0. by simplify_eq.
  - apply list_elem_of_In in Hin.
    assert (In (Confirmed op "ERROR: nonce too low")
              (List.filter (λ e, match e with Confirmed _ _ => true | _ => false end)
                 evs)) as Hin' by (by apply filter_In).
    rewrite Hevs in Hin'. destruct Hin'.
Qed.

(** C4, counterexample.  A record whose [tx_hash] is the empty string is
    not null, yet [mintComplaintToBlockchain] calls [logComplaint] for
    it. *)
Lemma empty_tx_hash_is_minted :
  tx_hash Sample.seven_empty_hash ≠ None
  ∧ (mintComplaintToBlockchain Sample.seven_empty_hash FromInsert 0
       (State ∅ ∅ ∅ true [TInsertSettle Sample.seven_empty_hash])).1
    = [MintInvoked Sample.seven_empty_hash;
       Submit (LogComplaint 7 "Unknown" "General")]
  ∧ ¬ (∀ (c : complaint) (k : caller) (i : nat) (s : state),
         tx_hash c ≠ None →
         ∀ op, Submit op ∉ (mintComplaintToBlockchain c k i s).1).
Proof.
  split_and!; [done|by vm_compute|].
  intros Hall.
  apply (Hall Sample.seven_empty_hash FromInsert 0%nat
           (State ∅ ∅ ∅ true [TInsertSettle Sample.seven_empty_hash])
           ltac:(done) (LogComplaint 7 "Unknown" "General")).
  vm_compute. apply list_elem_of_In. right. by left.
Qed.


(** C8, counterexample.  Record 7 is in flight when a second notification
    for it arrives that already carries a receipt: the code reports the
    in-flight guard, the order of the specification would report the
    receipt. *)
Lemma in_flight_guard_runs_first :
  snd <$> exec Run.duplicate_insert (init ∅) = Some Run.duplicate_state
  ∧ (mintComplaintToBlockchain Sample.seven_minted FromInsert 1 Run.duplicate_state).1
    = [MintInvoked Sample.seven_minted; SkipProcessing 7; MintReturned 7]
  ∧ (mint_in_spec_order Sample.seven_minted FromInsert 1 Run.duplicate_state).1
    = [MintInvoked Sample.seven_minted; SkipMinted 7 (Some "0xabc"); MintReturned 7]
  ∧ ¬ (∀ (c : complaint) (k : caller) (i : nat) (s : state),
         mintComplaintToBlockchain c k i s = mint_in_spec_order c k i s).
Proof.
  split_and!; [by vm_compute..|].
  intros Hall.
  specialize (Hall Sample.seven_minted FromInsert 1%nat Run.duplicate_state).
  apply (f_equal fst) in Hall. vm_compute in Hall. done.
Qed.

(** C10, counterexample.  Record 7 is inserted while the listener is
    active, its mint is rejected and the store accepts the error text;
    then the same INSERT notification is delivered once more, and
    [logComplaint] is called for record 7 a second time. *)
Lemma failed_mint_retried_on_redelivery :
  exec Run2.rejected_insert (init ∅)
  = Some (Run2.rejected_insert_events, Run2.marked_state)
  ∧ Rejected (mint_op Sample.seven) ∈ Run2.rejected_insert_events
  ∧ db Run2.marked_state !! 7
    = Some (with_tx_hash (Some (error_marker "nonce too low")) Sample.blank)
  ∧ fst <$> exec Run2.redelivery Run2.marked_state = Some Run2.redelivery_events
  ∧ count_if (is_create 7) Run2.redelivery_events = 1%nat
  ∧ ¬ failed_mint_is_final.
Proof.
  assert (Hex1 : exec Run2.rejected_insert (init ∅)
                 = Some (Run2.rejected_insert_events, Run2.marked_state))
    by (vm_compute; reflexivity).
  assert (Hrej : Rejected (mint_op Sample.seven) ∈ Run2.rejected_insert_events)
    by (apply list_elem_of_In; simpl; auto 10).
  assert (Hdb : db Run2.marked_state !! 7
                = Some (with_tx_hash (Some (error_marker "nonce too low"))
                          Sample.blank))
    by (vm_compute; reflexivity).
  assert (Hrun : fst <$> exec Run2.redelivery Run2.marked_state
                 = Some Run2.redelivery_events)
    by (vm_compute; reflexivity).
  split_and!; [done|done|done|done|by vm_compute|].
  intros Hall.
  destruct (exec Run2.redelivery Run2.marked_state) as [[evs2 s2]|] eqn:Hex2;
    [|done].
  simpl in Hrun. simplify_eq.
  specialize (Hall ∅ _ _ _ _ _ _ Sample.seven Hex1 Hrej
                (ex_intro _ _ (ex_intro _ "nonce too low" (conj Hdb eq_refl)))
                Hex2).
  vm_compute in Hall. discriminate Hall.
Qed.

(** ** The theorems at work *)

(** "ReSoLvEd" and "resolved" are equal up to case and get the same code. *)
Lemma mapStatusToEnum_is_StatusMapper_witness :
  eq_ignore_case "ReSoLvEd" "resolved" = true
  ∧ mapStatusToEnum (Some "ReSoLvEd") = mapStatusToEnum (Some "resolved").
Proof.
  split; [reflexivity|].
  apply (proj1 (proj2 mapStatusToEnum_is_StatusMapper)). reflexivity.
Defined.

(** The sweep over two unminted rows, with record 3 sent and confirmed. *)
Lemma startup_sweep_submits_one_at_a_time_witness :
  exec Run.sweep (init Sample.store) = Some (Run.sweep_events, Run.sweep_state)
  ∧ listening Run.sweep_state = false
  ∧ serialized Run.sweep_events = true.
Proof.
  split; [vm_compute; reflexivity|]. split; [reflexivity|].
  apply (startup_sweep_submits_one_at_a_time Sample.store Run.sweep
           Run.sweep_events Run.sweep_state);
    [vm_compute; reflexivity|reflexivity].
Defined.

(** A second call for record 7 while the first is in flight. *)
Lemma mint_concurrent_at_most_one_create_witness :
  7 ∈ processingComplaints Run.duplicate_state
  ∧ mintComplaintToBlockchain Sample.seven FromInsert 1 Run.duplicate_state
    = ([MintInvoked Sample.seven; SkipProcessing 7; MintReturned 7],
       set_tasks (return_to FromInsert 1 (tasks Run.duplicate_state))
         Run.duplicate_state).
Proof.
  assert (Hin : complaintId Sample.seven ∈ processingComplaints Run.duplicate_state)
    by (vm_compute; reflexivity).
  split; [exact Hin|].
  apply (proj1 mint_concurrent_at_most_one_create
           Sample.seven FromInsert 1%nat Run.duplicate_state Hin).
Defined.

(** An INSERT notification for a record that carries a receipt. *)
Lemma mint_already_minted_noop_witness :
  Js.truthy (tx_hash Sample.seven_minted) = true
  ∧ ∀ op, Submit op ∉ (mintComplaintToBlockchain Sample.seven_minted FromInsert 0
                         (State ∅ ∅ Sample.store true
                            [TInsertSettle Sample.seven_minted])).1.
Proof.
  split; [reflexivity|].
  apply (mint_already_minted_noop Sample.seven_minted FromInsert 0%nat
           (State ∅ ∅ Sample.store true [TInsertSettle Sample.seven_minted])).
  reflexivity.
Defined.

(** The in-flight guard answers for a record that also carries a receipt. *)
Lemma mint_guards_in_code_order_witness :
  complaintId Sample.seven_minted ∈ processingComplaints Run.duplicate_state
  ∧ mintComplaintToBlockchain Sample.seven_minted FromInsert 1 Run.duplicate_state
    = ([MintInvoked Sample.seven_minted; SkipProcessing 7; MintReturned 7],
       set_tasks (return_to FromInsert 1 (tasks Run.duplicate_state))
         Run.duplicate_state).
Proof.
  assert (Hin : complaintId Sample.seven_minted
                ∈ processingComplaints Run.duplicate_state)
    by (vm_compute; reflexivity).
  split; [exact Hin|].
  apply (proj1 (mint_guards_in_code_order Sample.seven_minted FromInsert 1%nat
                  Run.duplicate_state) Hin).
Defined.

(** Resolved, resolved again, then verified: two calls, one skip. *)
Lemma status_key_is_id_and_code_witness :
  exec Run.status_updates (init ∅)
  = Some (Run.status_events,
          State ∅ {["7:1"; "7:2"]} ∅ true
            [TStatus Sample.seven_resolved AwaitUpdateStatus;
             TStatus Sample.seven_verified AwaitUpdateStatus])
  ∧ (count_if (is_status_update 7 1) Run.status_events
     ≤ 1 + count_if (is_status_release "7:1") Run.status_events)%nat.
Proof.
  assert (Hex : exec Run.status_updates (init ∅)
                = Some (Run.status_events,
                        State ∅ {["7:1"; "7:2"]} ∅ true
                          [TStatus Sample.seven_resolved AwaitUpdateStatus;
                           TStatus Sample.seven_verified AwaitUpdateStatus]))
    by (vm_compute; reflexivity).
  split; [exact Hex|].
  destruct status_key_is_id_and_code as (_ & _ & _ & _ & Hcount).
  apply (Hcount 7 (Some "resolved") _ _ _ _ Hex).
Defined.

(** The store refuses the marker of a failed mint: the id is released all the same. *)
Lemma in_flight_key_released_witness :
  tasks Run.rejected_state !! 0%nat
  = Some (TMint Run.seven_row (AwaitStoreError "ERROR: nonce too low") (FromBacklog []))
  ∧ step (Resume 0 DbError) Run.rejected_state
    = Some ([ReleaseMint 7; MintReturned 7],
            State ∅ ∅ (<[7 := Sample.blank]> ∅) false [TBacklogDelay []])
  ∧ 7 ∉ processingComplaints
          (State ∅ ∅ (<[7 := Sample.blank]> ∅) false [TBacklogDelay []]).
Proof.
  assert (Hi : tasks Run.rejected_state !! 0%nat
               = Some (TMint Run.seven_row (AwaitStoreError "ERROR: nonce too low")
                         (FromBacklog []))) by reflexivity.
  assert (Hstep : step (Resume 0 DbError) Run.rejected_state
                  = Some ([ReleaseMint 7; MintReturned 7],
                          State ∅ ∅ (<[7 := Sample.blank]> ∅) false
                            [TBacklogDelay []]))
    by (vm_compute; reflexivity).
  split; [exact Hi|]. split; [exact Hstep|].
  destruct (proj1 in_flight_key_released _ _ _ _ _ _ _ _ Hi Hstep)
    as [(pc' & Hs & _)|(_ & _ & Hout)].
  - apply (f_equal tasks) in Hs. vm_compute in Hs. discriminate Hs.
  - exact Hout.
Defined.

(** The call for record 7 is rejected with "nonce too low". *)
Lemma mint_failure_writes_error_text_witness :
  tasks Run.sending_state !! 0%nat
  = Some (TMint Run.seven_row AwaitLogComplaint (FromBacklog []))
  ∧ step (Resume 0 (Thrown (Some "nonce too low"))) Run.sending_state
    = Some ([Rejected (LogComplaint 7 "Unknown" "General")], Run.rejected_state)
  ∧ tasks Run.rejected_state !! 0%nat
    = Some (TMint Run.seven_row
              (AwaitStoreError ("ERROR: " +:+ substring 0 200 "nonce too low"))
              (FromBacklog [])).
Proof.
  assert (Hi : tasks Run.sending_state !! 0%nat
               = Some (TMint Run.seven_row AwaitLogComplaint (FromBacklog [])))
    by reflexivity.
  assert (Hstep : step (Resume 0 (Thrown (Some "nonce too low"))) Run.sending_state
                  = Some ([Rejected (LogComplaint 7 "Unknown" "General")],
                          Run.rejected_state)) by (vm_compute; reflexivity).
  split; [exact Hi|]. split; [exact Hstep|].
  apply (proj1 (proj2 (mint_failure_writes_error_text
                         Run.sending_state Run.rejected_state 0%nat Run.seven_row
                         AwaitLogComplaint (FromBacklog []) "nonce too low" _
                         Hi (or_introl eq_refl) Hstep))).
Defined.

(** The store accepts the marker of record 7. *)
Lemma error_text_blocks_backlog_and_guard_witness :
  tasks Run.rejected_state !! 0%nat
  = Some (TMint Run.seven_row (AwaitStoreError (error_marker "nonce too low"))
            (FromBacklog []))
  ∧ db Run.rejected_state !! 7 = Some Sample.blank
  ∧ step (Resume 0 DbOk) Run.rejected_state
    = Some ([ReleaseMint 7; MintReturned 7],
            State ∅ ∅ (<[7 := with_tx_hash (Some "ERROR: nonce too low") Sample.blank]> ∅)
              false [TBacklogDelay []])
  ∧ db (State ∅ ∅ (<[7 := with_tx_hash (Some "ERROR: nonce too low") Sample.blank]> ∅)
          false [TBacklogDelay []]) !! 7
    = Some (with_tx_hash (Some (error_marker "nonce too low")) Sample.blank).
Proof.
  assert (Hi : tasks Run.rejected_state !! 0%nat
               = Some (TMint Run.seven_row
                         (AwaitStoreError (error_marker "nonce too low"))
                         (FromBacklog []))) by reflexivity.
  assert (Hr : db Run.rejected_state !! complaintId Run.seven_row = Some Sample.blank)
    by (vm_compute; reflexivity).
  assert (Hstep : step (Resume 0 DbOk) Run.rejected_state
                  = Some ([ReleaseMint 7; MintReturned 7],
                          State ∅ ∅
                            (<[7 := with_tx_hash (Some "ERROR: nonce too low")
                                      Sample.blank]> ∅)
                            false [TBacklogDelay []]))
    by (vm_compute; reflexivity).
  split; [exact Hi|]. split; [exact Hr|]. split; [exact Hstep|].
  apply (proj1 (error_text_blocks_backlog_and_guard _ _ 0%nat Run.seven_row (FromBacklog [])
                  "nonce too low" Sample.blank _ Hi Hr Hstep)).
Defined.

(** * Further properties of the engine *)

(** ** What is sent to the contract *)

Lemma orDefault_nonempty (v : option string) (d : string) :
  d ≠ "" → orDefault v d ≠ "".
Proof.
  intros Hd. unfold orDefault, Js.or, Js.truthy.
  destruct v as [s|]; [|done].
  destruct (String.eqb_spec s "") as [->|Hs]; done.
Qed.

Lemma orDefault_cases (v : option string) (d : string) :
  (v = Some (orDefault v d) ∧ orDefault v d ≠ "") ∨ (Js.truthy v = false ∧ orDefault v d = d).
Proof.
  unfold orDefault, Js.or, Js.truthy.
  destruct v as [s|]; [|by right].
  destruct (String.eqb_spec s "") as [->|Hs]; simpl; [by right|by left].
Qed.

Lemma city_of_cases (c : complaint) :
  (municipal_id c = Some (city_of c)
   ∨ Js.truthy (municipal_id c) = false ∧ locationAB c = Some (city_of c)
   ∨ Js.truthy (municipal_id c) = false ∧ Js.truthy (locationAB c) = false
     ∧ city_of c = "Unknown")
  ∧ city_of c ≠ "".
Proof.
  split; [|by apply orDefault_nonempty].
  unfold city_of, orDefault, Js.or.
  destruct (Js.truthy (municipal_id c)) eqn:Hm.
  - rewrite Hm. left. unfold Js.truthy in Hm. by destruct (municipal_id c).
  - destruct (Js.truthy (locationAB c)) eqn:Hl.
    + right; left. split; [done|]. unfold Js.truthy in Hl. by destruct (locationAB c).
    + right; right. done.
Qed.

Lemma step_submit_create (a : action) (s s' : state) (evs : list event)
    (id : Z) (city category : string) :
  step a s = Some (evs, s') →
  Submit (LogComplaint id city category) ∈ evs →
  ∃ c, MintInvoked c ∈ evs ∧ LogComplaint id city category = mint_op c
       ∧ complaintId c ∉ processingComplaints s.
Proof.
  intros Hstep Hin. step_cases Hstep;
    repeat (apply elem_of_cons in Hin as [Hin|Hin]; simplify_eq/=);
    try (by apply elem_of_nil in Hin).
  all: eexists; split_and!; [|reflexivity|done];
    rewrite !elem_of_cons; auto.
Qed.

Lemma exec_elem_of (acts : list action) :
  ∀ (s s' : state) (evs : list event) (e : event),
    exec acts s = Some (evs, s') → e ∈ evs →
    ∃ a s1 s2 e1, a ∈ acts ∧ step a s1 = Some (e1, s2) ∧ e ∈ e1
                  ∧ ∀ e', e' ∈ e1 → e' ∈ evs.
Proof.
  induction acts as [|a acts IH]; intros s s' evs e Hex Hin; simpl in Hex.
  - simplify_eq. by apply elem_of_nil in Hin.
  - destruct (step a s) as [[e1 s1]|] eqn:Hstep; [|done].
    destruct (exec acts s1) as [[e2 s2]|] eqn:Hrest; [|done].
    simplify_eq. apply elem_of_app in Hin as [Hin|Hin].
    + exists a, s, s1, e1. split_and!; [by left|done|done|].
      intros e' ?. apply elem_of_app. by left.
    + destruct (IH _ _ _ _ Hrest Hin) as (a' & sa & sb & ea & ? & ? & ? & Hsub).
      exists a', sa, sb, ea. split_and!; [by right|done|done|].
      intros e' ?. apply elem_of_app. right. by apply Hsub.
Qed.

(** X1.  Every [logComplaint] call of a run belongs to a record for which
    [mintComplaintToBlockchain] was entered in that run; its city is the
    record's [municipal_id], else its [locationAB], else "Unknown", its
    category is the record's [category_id], else "General", and neither is
    ever the empty string. *)
Theorem creates_carry_city_and_category
    (acts : list action) (s s' : state) (evs : list event)
    (id : Z) (city category : string) :
  exec acts s = Some (evs, s') →
  Submit (LogComplaint id city category) ∈ evs →
  ∃ c, MintInvoked c ∈ evs
       ∧ complaintId c = id
       ∧ (municipal_id c = Some city
          ∨ Js.truthy (municipal_id c) = false ∧ locationAB c = Some city
          ∨ Js.truthy (municipal_id c) = false ∧ Js.truthy (locationAB c) = false
            ∧ city = "Unknown")
       ∧ (category_id c = Some category
          ∨ Js.truthy (category_id c) = false ∧ category = "General")
       ∧ city ≠ "" ∧ category ≠ "".
Proof.
  intros Hex Hin.
  destruct (exec_elem_of _ _ _ _ _ Hex Hin) as (a & s1 & s2 & e1 & _ & Hstep & Hin1 & Hsub).
  destruct (step_submit_create _ _ _ _ _ _ _ Hstep Hin1) as (c & Hc & Hop & _).
  unfold mint_op in Hop. simplify_eq.
  exists c. destruct (city_of_cases c) as [Hcity Hne].
  split_and!; [by apply Hsub|done|done| |done|by apply orDefault_nonempty].
  unfold category_of. destruct (orDefault_cases (category_id c) "General")
    as [[? _]|[? ?]]; [by left|by right].
Qed.

(** X2.  Every [updateComplaintStatus] call of a run carries one of the
    codes 0, 1 and 2 of the contract's enum. *)
Theorem status_updates_carry_enum_codes
    (acts : list action) (s s' : state) (evs : list event) (id code : Z) :
  exec acts s = Some (evs, s') →
  Submit (UpdateComplaintStatus id code) ∈ evs →
  code = 0 ∨ code = 1 ∨ code = 2.
Proof.
  intros Hex Hin.
  destruct (exec_elem_of _ _ _ _ _ Hex Hin) as (a & s1 & s2 & e1 & _ & Hstep & Hin1 & _).
  clear Hex Hin. step_cases Hstep;
    repeat (apply elem_of_cons in Hin1 as [Hin1|Hin1]; simplify_eq/=);
    try (by apply elem_of_nil in Hin1).
  all: apply mapStatusToEnum_range.
Qed.

(** ** What happens to the table *)

Lemma step_row (id : Z) (r : row) (a : action) (s s' : state) (evs : list event) :
  step a s = Some (evs, s') →
  db s !! id = Some r →
  ∃ r', db s' !! id = Some r' ∧ same_columns r r'
        ∧ (row_tx_hash r ≠ None → row_tx_hash r' ≠ None).
Proof.
  intros Hstep Hr.
  assert (Hsame : ∃ r', Some r = Some r' ∧ same_columns r r'
                        ∧ (row_tx_hash r ≠ None → row_tx_hash r' ≠ None))
    by (exists r; by repeat split).
  step_cases Hstep; rewrite ?Hr; try done.
  all: try (unfold update_tx_hash; rewrite lookup_alter; case_decide; subst;
            rewrite Hr; simpl; [|done];
            eexists; split; [done|]; by repeat split).
  rewrite lookup_insert_ne by congruence. by rewrite Hr.
Qed.

Lemma step_new_row (id : Z) (a : action) (s s' : state) (evs : list event) :
  step a s = Some (evs, s') →
  db s !! id = None →
  db s' !! id = None ∨ is_store_insert id a = true.
Proof.
  intros Hstep Hr.
  step_cases Hstep; rewrite ?Hr; auto.
  all: try (left; unfold update_tx_hash; rewrite lookup_alter; case_decide; subst;
            by rewrite Hr).
  destruct (decide (id0 = id)) as [->|Hne].
  - right. by apply bool_decide_eq_true.
  - left. by rewrite lookup_insert_ne.
Qed.

Lemma same_columns_trans (r1 r2 r3 : row) :
  same_columns r1 r2 → same_columns r2 r3 → same_columns r1 r3.
Proof. unfold same_columns. intros (?&?&?&?) (?&?&?&?). split_and!; congruence. Qed.

(** X3.  Whatever the engine does in a run, a row of the table stays, and
    it keeps its [municipal_id], [locationAB], [category_id] and [status]:
    only [tx_hash] can change, and from non-null never back to null.  A
    row that was not there at the start was inserted by the application. *)
Theorem engine_only_sets_tx_hash (acts : list action) :
  ∀ (s s' : state) (evs : list event) (id : Z),
    exec acts s = Some (evs, s') →
    (∀ r, db s !! id = Some r →
          ∃ r', db s' !! id = Some r' ∧ same_columns r r'
                ∧ (row_tx_hash r ≠ None → row_tx_hash r' ≠ None))
    ∧ (db s !! id = None → is_Some (db s' !! id) →
       ∃ a, a ∈ acts ∧ is_store_insert id a = true).
Proof.
  induction acts as [|a acts IH]; intros s s' evs id Hex; simpl in Hex.
  - simplify_eq. split.
    + intros r Hr. exists r. by repeat split.
    + intros Hn [? Hs]. congruence.
  - destruct (step a s) as [[e1 s1]|] eqn:Hstep; [|done].
    destruct (exec acts s1) as [[e2 s2]|] eqn:Hrest; [|done].
    simplify_eq. destruct (IH _ _ _ id Hrest) as [IH1 IH2]. split.
    + intros r Hr.
      destruct (step_row _ _ _ _ _ _ Hstep Hr) as (r1 & Hr1 & Hc1 & Hn1).
      destruct (IH1 _ Hr1) as (r2 & Hr2 & Hc2 & Hn2).
      exists r2. split_and!; [done|by eapply same_columns_trans|auto].
    + intros Hn Hs.
      destruct (step_new_row _ _ _ _ _ Hstep Hn) as [Hn1|Hins].
      * destruct (IH2 Hn1 Hs) as (a' & ? & ?). exists a'. split; [by right|done].
      * exists a. split; [by left|done].
Qed.

(** ** The in-flight sets and the invocations in progress *)

Lemma omap_lookup_split {A} (f : task → option A) (ts : list task) (i : nat) (t : task) :
  ts !! i = Some t →
  ∃ l1 l2,
    omap f ts = (l1 ++ option_list (f t) ++ l2)%list
    ∧ (∀ t', omap f (<[i := t']> ts) = (l1 ++ option_list (f t') ++ l2)%list)
    ∧ omap f (delete i ts) = (l1 ++ l2)%list.
Proof.
  intros Hi. exists (omap f (take i ts)), (omap f (drop (S i) ts)).
  assert (Hcons : ∀ x l, omap f (x :: l) = (option_list (f x) ++ omap f l)%list)
    by (intros x l; simpl; by destruct (f x)).
  split_and!.
  - rewrite <- (take_drop_middle _ _ _ Hi) at 1. by rewrite omap_app, Hcons.
  - intros t'. rewrite insert_take_drop by (by eapply lookup_lt_Some).
    by rewrite omap_app, Hcons.
  - by rewrite delete_take_drop, omap_app.
Qed.

Ltac split_tasks :=
  match goal with
  | H : tasks ?s !! ?i = Some ?t |- _ =>
      let m1 := fresh "m1" in let m2 := fresh "m2" in
      let k1 := fresh "k1" in let k2 := fresh "k2" in
      destruct (omap_lookup_split holds_mint _ _ _ H) as (m1 & m2 & ? & ? & ?);
      destruct (omap_lookup_split holds_status _ _ _ H) as (k1 & k2 & ? & ? & ?)
  end.

Lemma registry_inv_step (a : action) (s s' : state) (evs : list event) :
  step a s = Some (evs, s') → registry_inv s → registry_inv s'.
Proof.
  intros Hstep (Hnd & Hin & Hnds & Hins). unfold registry_inv, mint_ids, status_keys in *.
  unfold_step; unfold return_to in *; repeat case_match; simplify_eq/=;
    clear_decide_eqs; try split_tasks; simpl in *;
    repeat match goal with
      | H : ∀ t', omap _ (<[_ := t']> _) = _ |- _ => rewrite ?H; clear H
      | H : omap _ (delete _ _) = _ |- _ => rewrite ?H; clear H
      | H : omap _ (tasks _) = _ |- _ => rewrite H in *; clear H
      end;
    rewrite ?omap_app; simpl; rewrite ?app_nil_r.
  all: try done.
  all: split_and!; try done.
  all: rewrite ?NoDup_app, ?NoDup_cons, ?NoDup_nil in *.
  all: set_unfold; naive_solver.
Qed.

Lemma registry_inv_exec (acts : list action) :
  ∀ (s s' : state) (evs : list event),
    exec acts s = Some (evs, s') → registry_inv s → registry_inv s'.
Proof.
  induction acts as [|a acts IH]; intros s s' evs Hex Hinv; simpl in Hex.
  - by simplify_eq.
  - destruct (step a s) as [[e1 s1]|] eqn:Hstep; [|done].
    destruct (exec acts s1) as [[e2 s2]|] eqn:Hrest; [|done].
    simplify_eq. eauto using registry_inv_step.
Qed.

Lemma registry_inv_init (d : gmap Z row) : registry_inv (init d).
Proof.
  unfold registry_inv. simpl. split_and!; try apply NoDup_nil_2; set_solver.
Qed.

Lemma elem_of_mint_ids (id : Z) (ts : list task) :
  id ∈ mint_ids ts ↔
  ∃ i c pc k, ts !! i = Some (TMint c pc k) ∧ complaintId c = id.
Proof.
  unfold mint_ids. rewrite list_elem_of_omap. split.
  - intros (t & [i Hi]%list_elem_of_lookup & Ht).
    destruct t; simplify_eq/=. eauto 10.
  - intros (i & c & pc & k & Hi & <-). exists (TMint c pc k).
    split; [by eapply list_elem_of_lookup_2|done].
Qed.

Lemma elem_of_status_keys (key : string) (ts : list task) :
  key ∈ status_keys ts ↔
  ∃ i c pc, ts !! i = Some (TStatus c pc) ∧ key_of c = key.
Proof.
  unfold status_keys. rewrite list_elem_of_omap. split.
  - intros (t & [i Hi]%list_elem_of_lookup & Ht).
    destruct t; simplify_eq/=. eauto 10.
  - intros (i & c & pc & Hi & <-). exists (TStatus c pc).
    split; [by eapply list_elem_of_lookup_2|done].
Qed.

(** X4.  In every state the engine reaches after its start, an id is in
    [processingComplaints] exactly when an invocation of
    [mintComplaintToBlockchain] for it is suspended at one of its
    [await]s, and a key is in [processingStatusUpdates] exactly when an
    invocation of [updateComplaintStatusOnChain] with that key is; no two
    suspended invocations share an id or a key.  So the sets never keep an
    entry of an invocation that is over, and are empty when nothing is in
    progress. *)
Theorem in_flight_sets_match_invocations
    (d : gmap Z row) (acts : list action) (evs : list event) (s : state) :
  exec acts (init d) = Some (evs, s) →
  (∀ id, id ∈ processingComplaints s ↔
         ∃ i c pc k, tasks s !! i = Some (TMint c pc k) ∧ complaintId c = id)
  ∧ (∀ key, key ∈ processingStatusUpdates s ↔
            ∃ i c pc, tasks s !! i = Some (TStatus c pc) ∧ key_of c = key)
  ∧ NoDup (mint_ids (tasks s))
  ∧ NoDup (status_keys (tasks s))
  ∧ (tasks s = [] → processingComplaints s = ∅ ∧ processingStatusUpdates s = ∅).
Proof.
  intros Hex.
  destruct (registry_inv_exec _ _ _ _ Hex (registry_inv_init d))
    as (Hnd & Hin & Hnds & Hins).
  split_and!; [| |done|done|].
  - intros id. by rewrite Hin, elem_of_mint_ids.
  - intros key. by rewrite Hins, elem_of_status_keys.
  - intros Ht. rewrite Ht in Hin, Hins. simpl in *. set_solver.
Qed.

(** ** What the engine writes into tx_hash *)

Lemma pending_write_ok_mono (pre e : list event) (t : task) :
  pending_write_ok pre t → pending_write_ok (pre ++ e) t.
Proof.
  destruct t as [| | |c pc k|]; try done. destruct pc; try done.
  simpl. intros ?. apply elem_of_app. by left.
Qed.

Lemma tx_hash_origin_mono (d : gmap Z row) (acts a : list action)
    (evs e : list event) (id : Z) (h : string) :
  tx_hash_origin d acts evs id h → tx_hash_origin d (acts ++ a) (evs ++ e) id h.
Proof.
  intros [?|[(r' & ? & ?)|[(c & ? & ?)|?]]]; unfold tx_hash_origin.
  - by left.
  - right; left. exists r'. split; [|done]. apply elem_of_app. by left.
  - right; right; left. exists c. split; [done|]. apply elem_of_app. by left.
  - by do 3 right.
Qed.

Lemma written_step (d : gmap Z row) (acts0 : list action) (pre : list event)
    (a : action) (s s' : state) (e : list event) :
  Forall (pending_write_ok pre) (tasks s) →
  (∀ id r h, db s !! id = Some r → row_tx_hash r = Some h →
             tx_hash_origin d acts0 pre id h) →
  step a s = Some (e, s') →
  Forall (pending_write_ok (pre ++ e)) (tasks s')
  ∧ (∀ id r h, db s' !! id = Some r → row_tx_hash r = Some h →
               tx_hash_origin d (acts0 ++ [a]) (pre ++ e) id h).
Proof.
  intros Hts Hdb Hstep.
  assert (Hts' : Forall (pending_write_ok (pre ++ e)) (tasks s))
    by (eapply Forall_impl; [done|]; intros; by apply pending_write_ok_mono).
  assert (Hdb' : ∀ id r h, db s !! id = Some r → row_tx_hash r = Some h →
                           tx_hash_origin d (acts0 ++ [a]) (pre ++ e) id h)
    by (intros; eapply tx_hash_origin_mono; eauto).
  assert (Hi : ∀ i t, tasks s !! i = Some t → pending_write_ok pre t)
    by (intros i t; by apply Forall_lookup_1).
  clear Hts Hdb.
  unfold_step; unfold return_to in *; repeat case_match; simplify_eq/=;
    clear_decide_eqs.
  all: split;
    [ repeat first [ apply Forall_insert | apply Forall_delete
                   | apply Forall_app_2 | apply Forall_cons_2
                   | apply Forall_nil_2 | assumption ];
      simpl; try done
    | try assumption ].
  all: try (by eexists).
  all: try (apply elem_of_app; right; by apply list_elem_of_singleton).
  - (* the receipt hash is stored *)
    intros id r h. unfold update_tx_hash. rewrite lookup_alter.
    case_decide; [subst|by apply Hdb'].
    destruct (db s !! complaintId c) as [r0|]; intros; simplify_eq/=.
    right; right; left. exists c. split; [done|].
    apply elem_of_app. left. by apply (Hi _ _ H0).
  - intros id r h. unfold update_tx_hash. rewrite lookup_alter.
    case_decide; [subst|by apply Hdb'].
    destruct (db s !! complaintId c) as [r0|]; intros; simplify_eq/=.
    right; right; left. exists c. split; [done|].
    apply elem_of_app. left. by apply (Hi _ _ H0).
  - (* the error text is stored *)
    intros id r h. unfold update_tx_hash. rewrite lookup_alter.
    case_decide; [subst|by apply Hdb'].
    destruct (db s !! complaintId c) as [r0|]; intros; simplify_eq/=.
    do 3 right. by apply (Hi _ _ H0).
  - intros id r h. unfold update_tx_hash. rewrite lookup_alter.
    case_decide; [subst|by apply Hdb'].
    destruct (db s !! complaintId c) as [r0|]; intros; simplify_eq/=.
    do 3 right. by apply (Hi _ _ H0).
  - (* the application inserts a row *)
    intros id0 r0 h. destruct (decide (id = id0)) as [->|Hne].
    + rewrite lookup_insert_eq. intros; simplify_eq.
      right; left. exists r0. split; [|done].
      apply elem_of_app. right. by apply list_elem_of_singleton.
    + rewrite lookup_insert_ne by done. apply Hdb'.
Qed.

Lemma written_exec (d : gmap Z row) (acts : list action) :
  ∀ (acts0 : list action) (pre : list event) (s s' : state) (evs : list event),
    Forall (pending_write_ok pre) (tasks s) →
    (∀ id r h, db s !! id = Some r → row_tx_hash r = Some h →
               tx_hash_origin d acts0 pre id h) →
    exec acts s = Some (evs, s') →
    Forall (pending_write_ok (pre ++ evs)) (tasks s')
    ∧ (∀ id r h, db s' !! id = Some r → row_tx_hash r = Some h →
                 tx_hash_origin d (acts0 ++ acts) (pre ++ evs) id h).
Proof.
  induction acts as [|a acts IH]; intros acts0 pre s s' evs Hts Hdb Hex;
    simpl in Hex.
  - simplify_eq. by rewrite !app_nil_r.
  - destruct (step a s) as [[e1 s1]|] eqn:Hstep; [|done].
    destruct (exec acts s1) as [[e2 s2]|] eqn:Hrest; [|done].
    simplify_eq.
    destruct (written_step d acts0 pre _ _ _ _ Hts Hdb Hstep) as [Hts1 Hdb1].
    destruct (IH _ _ _ _ _ Hts1 Hdb1 Hrest) as [Hts2 Hdb2].
    split; [by rewrite app_assoc|].
    intros id r h Hr Hh. rewrite (cons_middle a acts0 acts), !app_assoc.
    by eapply Hdb2.
Qed.

(** X5.  After any run from the start of the engine, the text in a
    [tx_hash] was there at the start, came with a row the application
    inserted, is the hash of a receipt delivered in the run for a
    [logComplaint] of that very id, or is an error text of the form
    "ERROR: " plus at most 200 characters of a message. *)
Theorem tx_hash_is_receipt_or_error_text
    (d : gmap Z row) (acts : list action) (evs : list event) (s : state)
    (id : Z) (r : row) (h : string) :
  exec acts (init d) = Some (evs, s) →
  db s !! id = Some r →
  row_tx_hash r = Some h →
  (∃ r0, d !! id = Some r0 ∧ row_tx_hash r0 = Some h)
  ∨ (∃ r', StoreInsert id r' ∈ acts ∧ row_tx_hash r' = Some h)
  ∨ (∃ c, complaintId c = id ∧ Confirmed (mint_op c) h ∈ evs)
  ∨ (∃ m, h = "ERROR: " +:+ substring 0 200 m).
Proof.
  intros Hex Hr Hh.
  destruct (written_exec d acts [] [] (init d) s evs) as [_ Hdb]; [| |done|].
  - simpl. by repeat constructor.
  - intros id' r' h' Hr' Hh'. left. eauto.
  - by apply (Hdb id r h).
Qed.

(** ** The startup sweep, in more detail *)

Lemma submits_app (l1 l2 : list event) :
  submits (l1 ++ l2) = (submits l1 ++ submits l2)%list.
Proof. apply List.filter_app. Qed.

Lemma skips_app (l1 l2 : list event) :
  skips (l1 ++ l2) = (skips l1 ++ skips l2)%list.
Proof. apply List.filter_app. Qed.

Lemma creates_snoc (done : list complaint) (c : complaint) :
  creates (done ++ [c]) = (creates done ++ [Submit (mint_op c)])%list.
Proof. unfold creates. by rewrite fmap_app. Qed.

Ltac sweep_side :=
  match goal with
  | |- fetched (_ ++ _) = _ =>
      rewrite fetched_app; simpl;
      repeat match goal with H : fetched _ = _ |- _ => rewrite H end;
      reflexivity
  | |- submits (_ ++ _) = _ =>
      rewrite submits_app; simpl;
      repeat match goal with H : submits _ = _ |- _ => rewrite H end;
      rewrite ?creates_snoc, ?app_nil_r, <- ?app_assoc; reflexivity
  | |- skips (_ ++ _) = _ =>
      rewrite skips_app; simpl;
      repeat match goal with H : skips _ = _ |- _ => rewrite H end;
      reflexivity
  | |- tasks _ = _ =>
      simpl; repeat match goal with H : tasks _ = _ |- _ => rewrite H end;
      reflexivity
  | |- processingComplaints _ = _ =>
      simpl; repeat match goal with H : processingComplaints _ = _ |- _ => rewrite H end;
      set_solver
  | |- processingStatusUpdates _ = _ =>
      simpl; assumption
  | |- _ = (_ ++ _)%list =>
      subst; rewrite <- ?app_assoc; reflexivity
  | |- (_ ≤ _)%nat =>
      subst; simpl in *; rewrite ?length_app in *; simpl in *; lia
  | |- Forall _ _ => assumption
  | |- covers_null_rows _ _ => assumption
  end.

(** The loop of lines 213-217 takes its next turn: nothing is in flight
    and the next record has no [tx_hash], so it is sent. *)
Lemma sweep_loop (d : gmap Z row) (n : nat) (pre : list event) (s : state)
    (cs done rest : list complaint) (t : task) :
  tasks s = [t] →
  processingComplaints s = ∅ → processingStatusUpdates s = ∅ →
  cs = (done ++ rest)%list →
  fetched pre = [Fetched cs] →
  covers_null_rows d cs →
  Forall (λ c', tx_hash c' = None) rest →
  submits pre = creates done →
  skips pre = [] →
  (n + 5 * List.length rest ≤ 1 + 5 * List.length cs)%nat →
  let r := backlog_loop rest 0 s in
  (listening r.2 = listening s ∧ sweep_inv d n (pre ++ r.1) r.2)
  ∨ (listening r.2 = true ∧ sweep_done d n (pre ++ r.1) r.2).
Proof.
  intros Ht HP HPS Hcs Hf Hcov Hnull Hsub Hskip Hn.
  destruct rest as [|c rest]; simpl.
  - right. split; [done|]. rewrite app_nil_r in Hcs. subst done.
    split_and!; [sweep_side|done|done|sweep_side|].
    left. exists cs. split_and!; [sweep_side|done|sweep_side|simpl in Hn; lia].
  - left. apply Forall_cons in Hnull as [Hc Hnull].
    rewrite mint_when_fresh; [|rewrite HP; set_solver|by rewrite Hc].
    split; [done|].
    eapply (SI_mint _ _ _ _ cs done rest c AwaitLogComplaint); sweep_side.
Qed.

Lemma sweep_inv_step (d : gmap Z row) (n : nat) (pre : list event) (s : state)
    (a : action) (s' : state) (evs : list event) :
  listening s = false →
  sweep_inv d n pre s →
  step a s = Some (evs, s') →
  let n' := (n + if is_resume a then 1 else 0)%nat in
  (listening s' = false ∧ sweep_inv d n' (pre ++ evs) s')
  ∨ (listening s' = true ∧ sweep_done d n' (pre ++ evs) s').
Proof.
  intros Hlisten Hinv Hstep. destruct a as [i r|c|old new|id row]; simpl in Hstep.
  - destruct Hinv as [Ht -> -> HP HPS Hdb
                     |cs done rest c pc Hcs Hf Hcov Hnull Ht HP HPS Hsub Hskip Hn
                     |cs done rest Hcs Hf Hcov Hnull Ht HP HPS Hsub Hskip Hn].
    + (* the query is answered *)
      rewrite Ht in Hstep. destruct i as [|i]; [|done]. simpl in Hstep.
      unfold resume_query, prepend in Hstep.
      assert (Hfail : ∀ evs0 s0, backlog_done 0 s = (evs0, s0) →
                listening s0 = true ∧ sweep_done d 1 ([] ++ evs0) s0).
      { unfold backlog_done. intros evs0 s0 ?. simplify_eq/=. rewrite Ht.
        split; [done|]. split_and!; [done..|]. by right. }
      destruct r; simplify_eq/=; [right; by apply Hfail| |right; by apply Hfail].
      assert (Hcov : covers_null_rows d (select_null_sorted (db s))).
      { intros id r Hr Hnull. apply select_null_sorted_elem. exists r.
        split_and!; [by apply Hdb|done|done]. }
      assert (Hnull : Forall (λ c', tx_hash c' = None) (select_null_sorted (db s))).
      { apply Forall_forall. intros c (r & _ & Hr & ->)%select_null_sorted_elem.
        done. }
      destruct (select_null_sorted (db s)) as [|c cs] eqn:Hsel.
      * right. unfold backlog_done. simpl. rewrite Ht.
        split; [done|]. split_and!; [done..|].
        left. exists []. split_and!; [done|done|done|simpl; lia].
      * change (Fetched (c :: cs) :: (backlog_loop (c :: cs) 0 s).1)
          with ([Fetched (c :: cs)] ++ (backlog_loop (c :: cs) 0 s).1)%list.
        destruct (sweep_loop d 1 [Fetched (c :: cs)] s (c :: cs) []
                    (c :: cs) TBacklogQuery) as [[Hl ?]|?];
          try done; try (simpl; lia); [|by right].
        left. split; [by rewrite Hl|done].
    + (* the mint in progress is answered *)
      rewrite Ht in Hstep. destruct i as [|i]; [|done]. simpl in Hstep.
      unfold resume_mint, mint_catch, mint_finally, prepend in Hstep.
      left. destruct pc, r; simplify_eq/=; try destruct message; simplify_eq/=;
        (split; [done|]);
        first
          [ by (eapply (SI_delay _ _ _ _ _ (done ++ [c]) rest); sweep_side)
          | by (eapply (SI_mint _ _ _ _ _ done rest c); sweep_side) ].
    + (* the two seconds of line 216 are over *)
      rewrite Ht in Hstep. destruct i as [|i]; [|done]. simpl in Hstep.
      destruct r; simplify_eq/=.
      destruct (sweep_loop d (n + 1) pre s _ done rest _ Ht HP HPS eq_refl
                  Hf Hcov Hnull Hsub Hskip) as [[Hl ?]|?];
        [lia| |].
      * rewrite Hstep in *. simpl in *. left. split; [congruence|done].
      * rewrite Hstep in *. by right.
  - by rewrite Hlisten in Hstep.
  - by rewrite Hlisten in Hstep.
  - destruct (db s !! id) eqn:Hid; simplify_eq/=. left. split; [done|].
    rewrite app_nil_r, Nat.add_0_r.
    destruct Hinv; [eapply SI_query|eapply SI_mint|eapply SI_delay]; eauto.
    intros id' r' Hr'. simpl. rewrite lookup_insert_ne; [by eauto|].
    intros ->. assert (db s !! id' = Some r') by eauto. congruence.
Qed.

Lemma count_resumes_cons (a : action) (acts : list action) :
  count_resumes (a :: acts)
  = ((if is_resume a then 1 else 0) + count_resumes acts)%nat.
Proof. unfold count_resumes. simpl. by destruct (is_resume a). Qed.

Lemma sweep_inv_exec (d : gmap Z row) (acts : list action) :
  ∀ (n : nat) (pre : list event) (s s' : state) (evs : list event),
    listening s = false →
    sweep_inv d n pre s →
    exec acts s = Some (evs, s') →
    listening s' = false →
    sweep_inv d (n + count_resumes acts) (pre ++ evs) s'.
Proof.
  induction acts as [|a acts IH]; intros n pre s s' evs Hl Hinv Hex Hl';
    simpl in Hex.
  - simplify_eq. unfold count_resumes. simpl. by rewrite app_nil_r, Nat.add_0_r.
  - destruct (step a s) as [[e1 s1]|] eqn:Hstep; [|done].
    destruct (exec acts s1) as [[e2 s2]|] eqn:Hrest; [|done].
    simplify_eq. rewrite app_assoc, count_resumes_cons, Nat.add_assoc.
    destruct (sweep_inv_step _ _ _ _ _ _ _ Hl Hinv Hstep) as [[Hl1 Hinv1]|[Hl1 _]].
    + by eapply IH.
    + pose proof (exec_listening_mono _ _ _ _ Hrest Hl1). congruence.
Qed.

Lemma sweep_inv_init (d : gmap Z row) : sweep_inv d 0 [] (init d).
Proof. by apply SI_query. Qed.

Lemma sweep_inv_facts (d : gmap Z row) (n : nat) (evs : list event) (s : state) :
  sweep_inv d n evs s →
  skips evs = [] ∧ processingStatusUpdates s = ∅
  ∧ ∃ cs t, (fetched evs = [Fetched cs] ∨ fetched evs = [] ∧ cs = [])
            ∧ submits evs `prefix_of` creates cs
            ∧ tasks s = [t]
            ∧ (n + sweep_measure t ≤ 1 + 5 * List.length cs)%nat.
Proof.
  intros [Ht -> -> HP HPS Hdb
         |cs done rest c pc -> Hf Hcov Hnull Ht HP HPS Hsub Hskip Hn
         |cs done rest -> Hf Hcov Hnull Ht HP HPS Hsub Hskip Hn].
  - split_and!; [done..|]. exists [], TBacklogQuery.
    split_and!; [by right|done|done|simpl; lia].
  - split_and!; [done..|]. eexists _, _.
    split_and!; [by left| |done|simpl; lia].
    rewrite Hsub. exists (creates rest). unfold creates.
    by rewrite <- fmap_app, <- app_assoc.
  - split_and!; [done..|]. eexists _, _.
    split_and!; [by left| |done|simpl; lia].
    rewrite Hsub. unfold creates. rewrite fmap_app. by apply prefix_app_r.
Qed.

(** As long as no answer to the query has been seen, the query is still
    pending and nothing has happened. *)
Lemma sweep_inv_pending (d : gmap Z row) (n : nat) (evs : list event) (s : state) :
  sweep_inv d n evs s → fetched evs = [] →
  evs = [] ∧ tasks s = [TBacklogQuery] ∧ n = 0%nat.
Proof.
  intros [Ht -> -> _ _ _
         |????? _ Hf _ _ _ _ _ _ _ _
         |??? _ Hf _ _ _ _ _ _ _ _] Hnone; [done|congruence..].
Qed.


(** The two ways out of the sweep: the last turn of the loop, after an
    answered query, and a query that failed (lines 198-201 and 220-222). *)
Lemma sweep_end_cases (d : gmap Z row) (n : nat) (evs : list event) (s : state)
    (a : action) (e : list event) (s' : state) :
  listening s = false →
  sweep_inv d n evs s →
  step a s = Some (e, s') →
  listening s' = true →
  (∃ cs, fetched (evs ++ e) = [Fetched cs] ∧ covers_null_rows d cs
         ∧ submits (evs ++ e) = creates cs)
  ∨ (evs = [] ∧ e = [Subscribed] ∧ db s' = db s
     ∧ (a = Resume 0 DbError ∨ ∃ m, a = Resume 0 (Thrown m))).
Proof.
  intros Hl Hinv Hstep Hl'.
  destruct (sweep_inv_step _ _ _ _ _ _ _ Hl Hinv Hstep)
    as [[? _]|[_ (_ & _ & _ & _ & Hdone)]]; [congruence|].
  destruct Hdone as [(cs & ? & ? & ? & _)|(Hnone & _)]; [left; by exists cs|].
  right. rewrite fetched_app in Hnone. apply app_eq_nil in Hnone as [Hn1 Hn2].
  destruct (sweep_inv_pending _ _ _ _ Hinv Hn1) as (-> & Ht & _).
  destruct a as [i r|c|old new|id row]; simpl in Hstep.
  - rewrite Ht in Hstep. destruct i as [|i]; [|done]. simpl in Hstep.
    unfold resume_query, backlog_done, prepend in Hstep.
    destruct r; simplify_eq/=.
    + split_and!; [done..|]. right. by eexists.
    + split_and!; [done..|]. by left.
  - by rewrite Hl in Hstep.
  - by rewrite Hl in Hstep.
  - destruct (db s !! id); simplify_eq/=. congruence.
Qed.

(** X6.  Between the start of the engine and the call of
    [setupRealtimeListener], no skip line is ever printed and no status
    update is in flight; as long as the query is not answered nothing has
    happened, and afterwards the contract calls made so far are one
    [logComplaint] for each fetched record, in the order fetched.  The
    listener is set up in one of two ways.  After an answered query, every
    fetched record has had its call, and the fetched records include
    every row that had a null [tx_hash] at the start.  After a failed
    query (an error result or an exception), nothing was fetched, no call
    was made and the table is untouched, whatever rows have a null
    [tx_hash]. *)
Theorem sweep_sends_every_fetched_record
    (d : gmap Z row) (acts : list action) (evs : list event) (s : state) :
  exec acts (init d) = Some (evs, s) →
  listening s = false →
  skips evs = []
  ∧ processingStatusUpdates s = ∅
  ∧ ((∃ cs, fetched evs = [Fetched cs] ∧ submits evs `prefix_of` creates cs)
     ∨ (evs = [] ∧ tasks s = [TBacklogQuery]))
  ∧ (∀ (a : action) (e : list event) (s' : state),
       step a s = Some (e, s') → listening s' = true →
       skips (evs ++ e) = []
       ∧ processingComplaints s' = ∅
       ∧ ((∃ cs, fetched (evs ++ e) = [Fetched cs] ∧ covers_null_rows d cs
                 ∧ submits (evs ++ e) = creates cs)
          ∨ (evs = [] ∧ e = [Subscribed] ∧ db s' = db s
             ∧ (a = Resume 0 DbError ∨ ∃ m, a = Resume 0 (Thrown m)))))
  ∧ (∀ r, tasks s = [TBacklogQuery] →
          r = DbError ∨ (∃ m, r = Thrown m) →
          step (Resume 0 r) s
          = Some ([Subscribed], set_listening true (set_tasks [] s))).
Proof.
  intros Hex Hl.
  pose proof (sweep_inv_exec d acts 0 [] (init d) s evs eq_refl
                (sweep_inv_init d) Hex Hl) as Hinv. simpl in Hinv.
  destruct (sweep_inv_facts _ _ _ _ Hinv) as (Hskip & HPS & cs & t & Hf & Hpre & _).
  split_and!; [done|done| | |].
  - destruct Hf as [Hf|[Hf _]]; [left; by exists cs|right].
    by destruct (sweep_inv_pending _ _ _ _ Hinv Hf) as (? & ? & _).
  - intros a e s' Hstep Hl'.
    destruct (sweep_inv_step _ _ _ _ _ _ _ Hl Hinv Hstep)
      as [[? _]|[_ (_ & HP & _ & Hskip' & _)]]; [congruence|].
    split_and!; [done|done|]. by eapply sweep_end_cases.
  - intros r Ht Hr. simpl. rewrite Ht. simpl.
    destruct Hr as [->|[m ->]]; simpl; unfold backlog_done; by rewrite Ht.
Qed.

(** X7.  The sweep cannot go on for ever: with [n] records fetched, the
    listener is set up after at most 1 + 5 n answers to the awaits of the
    sweep (the query; per record the call, its confirmation, the store
    update, a second store update after a throw, and the delay).  In every
    state of the sweep some answer is accepted. *)
Theorem sweep_is_bounded
    (d : gmap Z row) (acts : list action) (evs : list event) (s : state) :
  exec acts (init d) = Some (evs, s) →
  listening s = false →
  (∃ cs t, (fetched evs = [Fetched cs] ∨ fetched evs = [] ∧ cs = [])
           ∧ tasks s = [t]
           ∧ (count_resumes acts + sweep_measure t ≤ 1 + 5 * List.length cs)%nat
           ∧ (1 ≤ sweep_measure t)%nat)
  ∧ (∃ r, is_Some (step (Resume 0 r) s))
  ∧ (∀ (a : action) (e : list event) (s' : state),
       step a s = Some (e, s') → listening s' = true →
       ∃ cs, (fetched (evs ++ e) = [Fetched cs] ∨ fetched (evs ++ e) = [] ∧ cs = [])
             ∧ (count_resumes (acts ++ [a]) ≤ 1 + 5 * List.length cs)%nat).
Proof.
  intros Hex Hl.
  pose proof (sweep_inv_exec d acts 0 [] (init d) s evs eq_refl
                (sweep_inv_init d) Hex Hl) as Hinv. simpl in Hinv.
  split_and!.
  - destruct (sweep_inv_facts _ _ _ _ Hinv) as (_ & _ & cs & t & Hf & _ & Ht & Hn).
    exists cs, t. split_and!; [done..|].
    destruct Hinv as [Ht' _ _ _ _ _|????? _ _ _ _ Ht' _ _ _ _ _
                     |??? _ _ _ _ Ht' _ _ _ _ _];
      rewrite Ht' in Ht; simplify_eq; simpl; lia.
  - destruct Hinv as [Ht _ _ _ _ _|????? _ _ _ _ Ht _ _ _ _ _
                     |??? _ _ _ _ Ht _ _ _ _ _]; simpl; rewrite Ht; simpl.
    + exists (Thrown None). by eexists.
    + exists (Thrown None). destruct pc; by eexists.
    + exists TimerFired. by eexists.
  - intros a e s' Hstep Hl'.
    assert (Hcount : count_resumes (acts ++ [a])
                     = (count_resumes acts + if is_resume a then 1 else 0)%nat).
    { unfold count_resumes. rewrite List.filter_app, length_app. simpl.
      by destruct (is_resume a). }
    rewrite Hcount.
    destruct (sweep_inv_step _ _ _ _ _ _ _ Hl Hinv Hstep)
      as [[? _]|[_ (_ & _ & _ & _ & Hdone)]]; [congruence|].
    destruct Hdone as [(cs' & ? & _ & _ & ?)|(? & _ & Hn)].
    + exists cs'. split; [by left|done].
    + exists []. split; [by right|]. simpl in *. lia.
Qed.

(** X8.  The in-flight sets live in the process only.  Start the engine
    afresh on the table as any state of an earlier process left it: both
    sets are empty again, and if the startup query is answered, every row
    whose [tx_hash] is null gets a [logComplaint] call before the listener
    is set up, whether or not a mint of it was in flight, or already
    confirmed by the ledger, when the earlier process ended. *)
Theorem restart_mints_unwritten_rows
    (s0 : state) (id : Z) (r : row)
    (acts : list action) (evs : list event) (s : state)
    (a : action) (e : list event) (s' : state) :
  db s0 !! id = Some r →
  row_tx_hash r = None →
  exec acts (restart s0) = Some (evs, s) →
  listening s = false →
  step a s = Some (e, s') →
  listening s' = true →
  fetched (evs ++ e) ≠ [] →
  processingComplaints (restart s0) = ∅
  ∧ processingStatusUpdates (restart s0) = ∅
  ∧ Submit (LogComplaint id (city_of (select_row (id, r)))
              (category_of (select_row (id, r)))) ∈ (evs ++ e)%list.
Proof.
  intros Hr Hnull Hex Hl Hstep Hl' Hf. split_and!; [done..|].
  pose proof (sweep_inv_exec (db s0) acts 0 [] (restart s0) s evs eq_refl
                (sweep_inv_init (db s0)) Hex Hl) as Hinv. simpl in Hinv.
  destruct (sweep_inv_step _ _ _ _ _ _ _ Hl Hinv Hstep)
    as [[? _]|[_ (_ & _ & _ & _ & Hdone)]]; [congruence|].
  destruct Hdone as [(cs & _ & Hcov & Hsub & _)|(? & _)]; [|done].
  specialize (Hcov id r Hr Hnull).
  assert (Hin : Submit (mint_op (select_row (id, r))) ∈ submits (evs ++ e)).
  { rewrite Hsub. unfold creates.
    by apply (list_elem_of_fmap_2 (λ c, Submit (mint_op c))). }
  unfold submits in Hin. apply list_elem_of_In, filter_In in Hin as [Hin _].
  by apply list_elem_of_In.
Qed.

(** ** The startup sweep as a whole *)




(** ** The paths through a mint *)

Lemma list_delete_insert {A} (l : list A) (i : nat) (x : A) :
  delete i (<[i := x]> l) = delete i l.
Proof.
  revert i. induction l as [|y l IH]; intros [|i]; simpl; try done.
  by rewrite IH.
Qed.

Lemma list_insert_insert_eq {A} (l : list A) (i : nat) (x y : A) :
  <[i := x]> (<[i := y]> l) = <[i := x]> l.
Proof.
  revert i. induction l as [|z l IH]; intros [|i]; simpl; try done.
  by rewrite IH.
Qed.

Lemma state_eq (s1 s2 : state) :
  processingComplaints s1 = processingComplaints s2 →
  processingStatusUpdates s1 = processingStatusUpdates s2 →
  db s1 = db s2 → listening s1 = listening s2 → tasks s1 = tasks s2 →
  s1 = s2.
Proof. destruct s1, s2. simpl. by intros -> -> -> -> ->. Qed.

(** X9.  An INSERT notification for a record without [tx_hash] whose id is
    not in flight, followed without interruption by a sent transaction, a
    receipt and an accepted store update: one [logComplaint] call is
    made, the hash that ends up in [tx_hash] is the receipt's (not the
    hash of the sent transaction), the handler is gone and the in-flight
    set is as before. *)
Theorem insert_mint_success_path
    (s : state) (i : nat) (c : complaint) (h1 h2 : string) :
  tasks s !! i = Some (TInsertSettle c) →
  complaintId c ∉ processingComplaints s →
  Js.truthy (tx_hash c) = false →
  exec [Resume i TimerFired; Resume i (Resolved h1); Resume i (Resolved h2);
        Resume i DbOk] s
  = Some ([MintInvoked c;
           Submit (LogComplaint (complaintId c) (city_of c) (category_of c));
           Confirmed (LogComplaint (complaintId c) (city_of c) (category_of c)) h2;
           ReleaseMint (complaintId c); MintReturned (complaintId c)],
          State (processingComplaints s) (processingStatusUpdates s)
            (alter (with_tx_hash (Some h2)) (complaintId c) (db s))
            (listening s) (delete i (tasks s))).
Proof.
  intros Hi Hin Ht.
  assert (Hlt : (i < List.length (tasks s))%nat) by (by eapply lookup_lt_Some).
  cbn [exec step]. rewrite Hi. rewrite mint_when_fresh by done.
  cbn [exec step tasks set_task set_tasks set_processingComplaints].
  rewrite list_lookup_insert_eq by done.
  cbn [resume_mint exec step tasks set_task set_tasks].
  rewrite list_lookup_insert_eq by (by rewrite length_insert).
  cbn [resume_mint exec step tasks set_task set_tasks].
  rewrite list_lookup_insert_eq by (by rewrite !length_insert).
  cbn [resume_mint mint_finally exec]. simpl.
  do 2 f_equal. apply state_eq; simpl; try done.
  - set_solver.
  - by rewrite !list_delete_insert.
Qed.

Lemma return_to_insert (k : caller) (i : nat) (t : task) (ts : list task) :
  return_to k i (<[i := t]> ts) = return_to k i ts.
Proof.
  destruct k; simpl; [apply list_delete_insert|apply list_insert_insert_eq].
Qed.

(** X10.  A mint can fail, or succeed on the ledger, and leave nothing
    behind: when the rejection has no message, when the store refuses the
    receipt or the error text, or throws on the error text, the invocation
    is over, its id is released, and the table is exactly as before.  A
    row that had a null [tx_hash] is still among the rows the startup
    query returns, also when the ledger had confirmed its mint. *)
Theorem unrecorded_mint_outcomes
    (s s' : state) (i : nat) (c : complaint) (pc : mint_pc) (k : caller)
    (r : response) (evs : list event) :
  tasks s !! i = Some (TMint c pc k) →
  unrecorded_outcome pc r = true →
  step (Resume i r) s = Some (evs, s') →
  s' = set_tasks (return_to k i (tasks s))
         (set_processingComplaints (processingComplaints s ∖ {[complaintId c]}) s)
  ∧ db s' = db s
  ∧ (complaintId c ∉ processingComplaints s')
  ∧ (∀ r0, db s !! complaintId c = Some r0 → row_tx_hash r0 = None →
           select_row (complaintId c, r0) ∈ select_null_sorted (db s')).
Proof.
  intros Hi Hout Hstep. simpl in Hstep. rewrite Hi in Hstep.
  unfold resume_mint, mint_catch, mint_finally, prepend in Hstep.
  assert (Hs : s' = set_tasks (return_to k i (tasks s))
                      (set_processingComplaints
                         (processingComplaints s ∖ {[complaintId c]}) s)).
  { destruct pc, r as [|[]| | |]; by simplify_eq/=. }
  subst s'. split_and!; [done|done|simpl; set_solver|].
  intros r0 Hr0 Hnull. simpl. apply select_null_sorted_elem. by exists r0.
Qed.

(** X11.  When the store update of lines 125-128 throws with a message
    after the ledger has confirmed the mint, the [catch] block treats it
    like a failed mint: once the store accepts the second update, the
    row's [tx_hash] is the error text, and the receipt hash is stored
    nowhere. *)
Theorem write_back_throw_stores_error_text
    (s : state) (i : nat) (c : complaint) (k : caller) (h m : string) :
  tasks s !! i = Some (TMint c (AwaitStoreHash h) k) →
  exec [Resume i (Thrown (Some m)); Resume i DbOk] s
  = Some ([ReleaseMint (complaintId c); MintReturned (complaintId c)],
          State (processingComplaints s ∖ {[complaintId c]})
            (processingStatusUpdates s)
            (alter (with_tx_hash (Some ("ERROR: " +:+ substring 0 200 m)))
                   (complaintId c) (db s))
            (listening s) (return_to k i (tasks s))).
Proof.
  intros Hi.
  assert (Hlt : (i < List.length (tasks s))%nat) by (by eapply lookup_lt_Some).
  cbn [exec step]. rewrite Hi.
  cbn [resume_mint mint_catch exec step tasks set_task set_tasks].
  rewrite list_lookup_insert_eq by done.
  cbn [resume_mint mint_finally exec]. simpl.
  do 2 f_equal. apply state_eq; simpl; try done.
  apply return_to_insert.
Qed.

(** ** The UPDATE handler and the status coordinator *)


(** X13.  The two coordinators do not touch each other's state.  Nothing
    that happens to a status update, from the UPDATE notification to its
    confirmation or rejection, changes the table or the in-flight set of
    mints, and a rejected status update ends in the very state a confirmed
    one ends in; nothing that happens to a mint or to the sweep changes
    the in-flight set of status updates. *)
Theorem coordinators_are_independent :
  (∀ (old new : option complaint) (s s' : state) (evs : list event),
     step (NotifyUpdate old new) s = Some (evs, s') →
     db s' = db s ∧ processingComplaints s' = processingComplaints s)
  ∧ (∀ (s s' : state) (i : nat) (c : complaint) (pc : status_pc) (r : response)
       (evs : list event),
     tasks s !! i = Some (TStatus c pc) →
     step (Resume i r) s = Some (evs, s') →
     db s' = db s ∧ processingComplaints s' = processingComplaints s
     ∧ (s' = set_task i (TStatus c AwaitStatusConfirmation) s
        ∨ s' = set_tasks (delete i (tasks s))
                 (set_processingStatusUpdates
                    (processingStatusUpdates s ∖ {[key_of c]}) s)))
  ∧ (∀ (a : action) (s s' : state) (evs : list event),
     step a s = Some (evs, s') →
     (∀ old new, a ≠ NotifyUpdate old new) →
     (∀ i r c pc, a = Resume i r → tasks s !! i ≠ Some (TStatus c pc)) →
     processingStatusUpdates s' = processingStatusUpdates s).
Proof.
  split_and!.
  - intros old new s s' evs Hstep. simpl in Hstep.
    destruct (listening s); [|done]. unfold on_update, updateComplaintStatusOnChain in Hstep.
    repeat case_match; by simplify_eq/=.
  - intros s s' i c pc r evs Hi Hstep. simpl in Hstep. rewrite Hi in Hstep.
    unfold resume_status, status_finally, prepend in Hstep.
    destruct pc, r; simplify_eq/=; split_and!; auto.
  - intros a s s' evs Hstep Hnu Hns.
    destruct a as [i r|c|old new|id row]; [| | by destruct (Hnu old new)|].
    + simpl in Hstep. destruct (tasks s !! i) as [t|] eqn:Hi; [|done].
      destruct t; [..|by destruct (Hns i r c pc)];
        unfold_step; unfold return_to in *; repeat case_match; by simplify_eq/=.
    + simpl in Hstep. destruct (listening s); by simplify_eq/=.
    + simpl in Hstep. destruct (db s !! id); by simplify_eq/=.
Qed.

(** ** Stale payloads and long messages *)

Lemma substring_prefix (n : nat) (m : string) :
  ∃ rest, m = substring 0 n m +:+ rest
          ∧ String.length (substring 0 n m) = Nat.min n (String.length m).
Proof.
  revert m. induction n as [|n IH]; intros [|a m]; simpl.
  - by exists "".
  - by exists (String a m).
  - by exists "".
  - destruct (IH m) as (rest & Hm & Hlen). exists rest.
    rewrite string_app_cons, <- Hm, Hlen. done.
Qed.

(** X22.  The error text of line 151 keeps a message of up to 200
    characters in full and cuts a longer one after its first 200
    characters; what follows "ERROR: " is always the beginning of the
    message. *)
Theorem error_text_keeps_short_messages (m : string) :
  (∃ rest, m = substring 0 200 m +:+ rest
           ∧ error_marker m = "ERROR: " +:+ substring 0 200 m)
  ∧ String.length (error_marker m) = (7 + Nat.min 200 (String.length m))%nat
  ∧ ((String.length m ≤ 200)%nat → error_marker m = "ERROR: " +:+ m).
Proof.
  destruct (substring_prefix 200 m) as (rest & Hm & Hlen).
  split_and!.
  - by exists rest.
  - unfold error_marker. by rewrite string_length_app, Hlen.
  - intros Hle. unfold error_marker. f_equal.
    assert (Hrest : String.length rest = 0%nat).
    { apply (f_equal String.length) in Hm.
      rewrite string_length_app, Hlen in Hm. lia. }
    destruct rest; [|done].
    rewrite Hm at 2. clear. induction (substring 0 200 m) as [|a s IH]; [done|].
    by rewrite string_app_cons, <- IH.
Qed.

(** X23.  The receipt guard looks at the record it is handed, never at the
    table: the first segment of [mintComplaintToBlockchain] does the same
    whatever the table holds.  So an INSERT notification whose payload
    has no [tx_hash] is sent to the ledger although the row already
    carries a receipt, and when that call is rejected with a message and
    the store accepts the update, the receipt in the row is replaced by
    the error text. *)
Theorem stale_payload_overwrites_receipt :
  (∀ (c : complaint) (k : caller) (i : nat) (s : state) (d : gmap Z row),
     (mintComplaintToBlockchain c k i (set_db d s)).1
     = (mintComplaintToBlockchain c k i s).1
     ∧ (mintComplaintToBlockchain c k i (set_db d s)).2
       = set_db d (mintComplaintToBlockchain c k i s).2)
  ∧ (∀ (s : state) (i : nat) (c : complaint) (r : row) (h m : string),
     tasks s !! i = Some (TInsertSettle c) →
     complaintId c ∉ processingComplaints s →
     Js.truthy (tx_hash c) = false →
     db s !! complaintId c = Some r →
     row_tx_hash r = Some h →
     ∃ evs s',
       exec [Resume i TimerFired; Resume i (Thrown (Some m)); Resume i DbOk] s
       = Some (evs, s')
       ∧ submits evs = [Submit (mint_op c)]
       ∧ db s' !! complaintId c
         = Some (with_tx_hash (Some ("ERROR: " +:+ substring 0 200 m)) r)).
Proof.
  split.
  - intros c k i s d. unfold mintComplaintToBlockchain. simpl.
    repeat case_match; done.
  - intros s i c r h m Hi Hin Ht Hr Hh.
    assert (Hlt : (i < List.length (tasks s))%nat) by (by eapply lookup_lt_Some).
    eexists _, _. split_and!.
    + cbn [exec step]. rewrite Hi. rewrite mint_when_fresh by done.
      cbn [exec step tasks set_task set_tasks set_processingComplaints].
      rewrite list_lookup_insert_eq by done.
      cbn [resume_mint mint_catch prepend fst snd exec step tasks set_task set_tasks].
      rewrite list_lookup_insert_eq by (by rewrite length_insert).
      cbn [resume_mint mint_finally exec]. reflexivity.
    + done.
    + simpl. by apply lookup_update_tx_hash.
Qed.

(** ** Where the records that are minted come from *)

Lemma record_origin_mono (acts a : list action) (evs e : list event) (c : complaint) :
  record_origin acts evs c → record_origin (acts ++ a) (evs ++ e) c.
Proof.
  intros [(cs & ? & ?)|?]; [left|right].
  - exists cs. split; [|done]. apply elem_of_app. by left.
  - apply elem_of_app. by left.
Qed.

Lemma known_step (acts0 : list action) (pre : list event)
    (a : action) (s s' : state) (e : list event) :
  known_records acts0 pre s →
  step a s = Some (e, s') →
  known_records (acts0 ++ [a]) (pre ++ e) s'
  ∧ ∀ c, MintInvoked c ∈ e → record_origin (acts0 ++ [a]) (pre ++ e) c.
Proof.
  unfold known_records. intros Hts Hstep.
  assert (Hts' : Forall (λ t, Forall (record_origin (acts0 ++ [a]) (pre ++ e))
                               (task_records t)) (tasks s)).
  { eapply Forall_impl; [exact Hts|]. intros t Ht.
    eapply Forall_impl; [exact Ht|]. intros c. apply record_origin_mono. }
  assert (Hi : ∀ i t, tasks s !! i = Some t →
                 Forall (record_origin (acts0 ++ [a]) (pre ++ e)) (task_records t))
    by (intros i t Hl; exact (Forall_lookup_1 _ _ _ _ Hts' Hl)).
  clear Hts.
  unfold_step; unfold return_to in *; repeat case_match; simplify_eq/=;
    clear_decide_eqs.
  all: repeat match goal with
         | H : tasks _ !! _ = Some _ |- _ => apply Hi in H; simpl in H
         end.
  all: split;
    [ repeat first [ apply Forall_insert | apply Forall_delete
                   | apply Forall_app_2 | apply Forall_cons_2
                   | apply Forall_nil_2 | assumption ];
      simpl; try done
    | intros c0 Hin;
      repeat (apply elem_of_cons in Hin as [Hin|Hin]; simplify_eq/=);
      try (by apply elem_of_nil in Hin) ].
  all: repeat match goal with
         | H : Forall _ (_ :: _) |- _ => apply Forall_cons in H as [? ?]
         end; try assumption.
  all: try (right; apply elem_of_app; right; by apply list_elem_of_singleton).
  all: try (apply Forall_forall; intros x Hx).
  all: left; eexists; (split; [apply elem_of_app; right; apply elem_of_cons; by left|]);
    apply elem_of_cons; auto.
Qed.

Lemma known_exec (acts : list action) :
  ∀ (acts0 : list action) (pre : list event) (s s' : state) (evs : list event),
    known_records acts0 pre s →
    (∀ c, MintInvoked c ∈ pre → record_origin acts0 pre c) →
    exec acts s = Some (evs, s') →
    known_records (acts0 ++ acts) (pre ++ evs) s'
    ∧ (∀ c, MintInvoked c ∈ (pre ++ evs)%list →
            record_origin (acts0 ++ acts) (pre ++ evs) c).
Proof.
  induction acts as [|a acts IH]; intros acts0 pre s s' evs Hts Hpre Hex;
    simpl in Hex.
  - simplify_eq. by rewrite !app_nil_r.
  - destruct (step a s) as [[e1 s1]|] eqn:Hstep; [|done].
    destruct (exec acts s1) as [[e2 s2]|] eqn:Hrest; [|done].
    simplify_eq.
    destruct (known_step acts0 pre _ _ _ _ Hts Hstep) as [Hts1 He1].
    assert (Hpre1 : ∀ c, MintInvoked c ∈ (pre ++ e1)%list →
                         record_origin (acts0 ++ [a]) (pre ++ e1) c).
    { intros c [Hin|Hin]%elem_of_app; [|by apply He1].
      by apply record_origin_mono, Hpre. }
    destruct (IH _ _ _ _ _ Hts1 Hpre1 Hrest) as [Hts2 Hev2].
    rewrite (cons_middle a acts0 acts), !app_assoc. by split.
Qed.

(** X24.  The engine mints only what it was handed: in any run from the
    start of the engine, every [logComplaint] that is submitted is the
    create operation of a record that was among the rows of the startup
    query or that arrived as the payload of an INSERT notification.  For a
    row that was neither fetched nor notified no call is made in the run. *)
Theorem mints_come_from_sweep_or_notification
    (d : gmap Z row) (acts : list action) (evs : list event) (s : state)
    (id : Z) (city category : string) :
  exec acts (init d) = Some (evs, s) →
  Submit (LogComplaint id city category) ∈ evs →
  ∃ c, LogComplaint id city category = mint_op c
       ∧ ((∃ cs, Fetched cs ∈ evs ∧ c ∈ cs) ∨ NotifyInsert c ∈ acts).
Proof.
  intros Hex Hin.
  destruct (known_exec acts [] [] (init d) s evs) as [_ Hev]; [| |done|].
  - unfold known_records. simpl. by repeat constructor.
  - by intros c ?%elem_of_nil.
  - destruct (exec_elem_of _ _ _ _ _ Hex Hin)
      as (a & s1 & s2 & e1 & _ & Hstep & Hin1 & Hsub).
    destruct (step_submit_create _ _ _ _ _ _ _ Hstep Hin1) as (c & Hc & Hop & _).
    exists c. split; [done|]. by apply Hev, Hsub.
Qed.

(** * The Express endpoints *)

Lemma json_truthy_false (v : option json) :
  json_truthy v = false ↔ is_falsy v.
Proof.
  unfold is_falsy. destruct v as [[|[]|[z|]|x|]|]; simpl.
  all: try (split; [intros ?; discriminate|
                    intros [?|[?|[?|[?|?]]]]; discriminate]).
  all: try (split; [intros _|done]; auto 6; fail).
  - destruct (Z.eqb_spec z 0) as [->|]; simpl.
    + split; [intros _|done]. auto 6.
    + split; [done|]. intros [?|[?|[?|[?|?]]]]; congruence.
  - destruct (String.eqb_spec x "") as [->|]; simpl.
    + split; [intros _|done]. auto 6.
    + split; [done|]. intros [?|[?|[?|[?|?]]]]; congruence.
Qed.

Lemma missingFields_json_of_body (b : body) :
  missingFields (json_of_body b)
  = negb (number_truthy (body_complaintId b))
    || negb (Js.truthy (body_city b))
    || negb (Js.truthy (body_category b)).
Proof. by destruct b as [[id|] [city|] [category|]]. Qed.

(** X14.  The test of line 291 rejects a parsed body exactly when one of
    [complaintId], [city] and [category] is absent, [null], [false], the
    number 0 or the empty string, whatever the types of the values: a
    [complaintId] of [false] or of the empty string and a [city] of 0 are
    rejected like a missing field, and every other value passes, of
    whatever type.  For a body whose [complaintId] is an integer and whose
    [city] and [category] are strings, POST /logComplaint answers 400
    exactly when the test rejects, and then calls nothing and changes
    nothing; otherwise it calls [logComplaint] with the three values of
    the body and sends no reply yet. *)
Theorem post_validation :
  (∀ rb : request_body,
     missingFields rb = true ↔
     is_falsy (rb_complaintId rb) ∨ is_falsy (rb_city rb)
     ∨ is_falsy (rb_category rb))
  ∧ (∀ (b : body) (sv : server),
     (postLogComplaint b sv).1.2 = [BadRequest] ↔
     missingFields (json_of_body b) = true)
  ∧ (∀ (b : body) (sv : server),
     missingFields (json_of_body b) = true →
     postLogComplaint b sv = ([], [BadRequest], sv))
  ∧ (∀ (b : body) (sv : server),
     missingFields (json_of_body b) = false →
     ∃ id city category,
       b = Body (Some id) (Some city) (Some category)
       ∧ postLogComplaint b sv
         = ([Submit (LogComplaint id city category)], [],
            Server (engine sv)
              (posts sv ++ [Post id city category PostAwaitLogComplaint]))).
Proof.
  split_and!.
  - intros rb. unfold missingFields.
    rewrite !orb_true_iff, !negb_true_iff, !json_truthy_false. tauto.
  - intros b sv. rewrite missingFields_json_of_body. unfold postLogComplaint.
    destruct (_ || _ || _); simpl; [done|]. split; discriminate.
  - intros b sv. rewrite missingFields_json_of_body. unfold postLogComplaint.
    by intros ->.
  - intros b sv. rewrite missingFields_json_of_body. unfold postLogComplaint.
    intros Hok. rewrite Hok.
    apply orb_false_iff in Hok as [Hok Hcat].
    apply orb_false_iff in Hok as [Hid Hcity].
    rewrite negb_false_iff in Hid, Hcity, Hcat.
    destruct b as [[id|] [city|] [category|]]; simpl in *; try done.
    by exists id, city, category.
Qed.

Lemma serve_post_balance (id : Z) (q : request) (sv sv' : server)
    (evs : list event) (rs : list reply) :
  serve q sv = Some (evs, rs, sv') →
  (count_if (is_create id) evs + held id (engine sv)
   ≤ count_if (is_mint_release id) evs + held id (engine sv')
     + if is_post_for id q then 1 else 0)%nat.
Proof.
  intros Hserve. destruct q as [a|b|i r]; simpl in Hserve.
  - destruct (step a (engine sv)) as [[e s']|] eqn:Hstep; simplify_eq/=.
    pose proof (step_create_balance id _ _ _ _ Hstep). lia.
  - destruct (listening (engine sv)); [|done]. unfold postLogComplaint in Hserve.
    destruct b as [[id'|] [city|] [category|]]; simpl in *;
      repeat case_match; simplify_eq/=; unfold count_if; simpl;
      repeat case_bool_decide; simplify_eq/=; try lia.
    destruct (id =? 0)%Z, (String.eqb city ""), (String.eqb category "");
      simpl in *; discriminate.
  - unfold resume_post in Hserve. repeat case_match; simplify_eq/=;
      unfold count_if; simpl; lia.
Qed.

Lemma serve_all_post_balance (id : Z) (qs : list request) :
  ∀ (sv sv' : server) (evs : list event) (rs : list reply),
    serve_all qs sv = Some (evs, rs, sv') →
    (count_if (is_create id) evs + held id (engine sv)
     ≤ count_if (is_mint_release id) evs + held id (engine sv')
       + List.length (List.filter (is_post_for id) qs))%nat.
Proof.
  induction qs as [|q qs IH]; intros sv sv' evs rs Hall; simpl in Hall.
  - simplify_eq. unfold count_if. simpl. lia.
  - destruct (serve q sv) as [[[e1 r1] sv1]|] eqn:Hserve; [|done].
    destruct (serve_all qs sv1) as [[[e2 r2] sv2]|] eqn:Hrest; [|done].
    simplify_eq. rewrite !count_if_app.
    pose proof (serve_post_balance id _ _ _ _ _ Hserve).
    pose proof (IH _ _ _ _ Hrest). simpl.
    destruct (is_post_for id q); simpl; lia.
Qed.

(** X15.  The manual endpoint goes around both guards of the engine: once
    the server listens, a POST with the three fields calls [logComplaint]
    whatever is in [processingComplaints] and whatever [tx_hash] the row
    has, and no POST, at any stage, changes the engine's sets or the
    table.  Over any run of the server the number of [logComplaint] calls
    for an id is at most one, plus one per completed mint invocation for
    it, plus one per accepted POST for it. *)
Theorem manual_endpoint_bypasses_guards :
  (∀ (sv : server) (id : Z) (city category : string),
     listening (engine sv) = true →
     id ≠ 0 → city ≠ "" → category ≠ "" →
     serve (PostLogComplaint (Body (Some id) (Some city) (Some category))) sv
     = Some ([Submit (LogComplaint id city category)], [],
             Server (engine sv)
               (posts sv ++ [Post id city category PostAwaitLogComplaint])))
  ∧ (∀ (q : request) (sv sv' : server) (evs : list event) (rs : list reply),
     serve q sv = Some (evs, rs, sv') →
     (∀ a, q ≠ Engine a) →
     engine sv' = engine sv)
  ∧ (∀ (id : Z) (qs : list request) (sv sv' : server) (evs : list event)
       (rs : list reply),
     serve_all qs sv = Some (evs, rs, sv') →
     (count_if (is_create id) evs
      ≤ 1 + count_if (is_mint_release id) evs
        + List.length (List.filter (is_post_for id) qs))%nat).
Proof.
  split_and!.
  - intros sv id city category Hl Hid Hcity Hcat. simpl. rewrite Hl.
    unfold postLogComplaint. simpl.
    destruct (Z.eqb_spec id 0); [done|].
    destruct (String.eqb_spec city ""); [done|].
    destruct (String.eqb_spec category ""); [done|]. done.
  - intros q sv sv' evs rs Hserve Hq. destruct q as [a|b|i r]; simpl in Hserve.
    + by destruct (Hq a).
    + destruct (listening (engine sv)); [|done]. unfold postLogComplaint in Hserve.
      repeat case_match; by simplify_eq/=.
    + unfold resume_post in Hserve. repeat case_match; by simplify_eq/=.
  - intros id qs sv sv' evs rs Hall.
    pose proof (serve_all_post_balance id _ _ _ _ _ Hall).
    pose proof (held_le_1 id (engine sv')). lia.
Qed.

Lemma serve_replies (q : request) (sv sv' : server)
    (evs : list event) (rs : list reply) :
  serve q sv = Some (evs, rs, sv') →
  (List.length rs + List.length (posts sv')
   = List.length (posts sv) + if is_post q then 1 else 0)%nat
  ∧ (∀ h id city category,
       Logged h id city category ∈ rs →
       Confirmed (LogComplaint id city category) h ∈ evs)
  ∧ (∀ m, ServerError m ∈ rs → ∃ op, Rejected op ∈ evs).
Proof.
  intros Hserve. destruct q as [a|b|i r]; simpl in Hserve.
  - destruct (step a (engine sv)) as [[e s']|]; simplify_eq/=.
    split_and!; [lia|intros ???? Hin|intros ? Hin]; by apply elem_of_nil in Hin.
  - destruct (listening (engine sv)); [|done]. unfold postLogComplaint in Hserve.
    case_match; simplify_eq/=.
    + split_and!; [lia|intros ???? Hin|intros ? Hin];
        apply list_elem_of_singleton in Hin; done.
    + rewrite length_app. simpl.
      split_and!; [lia|intros ???? Hin|intros ? Hin]; by apply elem_of_nil in Hin.
  - unfold resume_post in Hserve.
    destruct (posts sv !! i) as [p|] eqn:Hi; [|done].
    assert (Hlt : (i < List.length (posts sv))%nat) by (by eapply lookup_lt_Some).
    assert (Hdel : (1 + List.length (delete i (posts sv))
                    = List.length (posts sv))%nat).
    { rewrite length_delete by eauto. lia. }
    destruct (post_at p), r; simplify_eq/=; rewrite ?length_insert.
    all: split_and!; [lia|intros ???? Hin|intros ? Hin];
      try (by apply elem_of_nil in Hin);
      apply list_elem_of_singleton in Hin; simplify_eq;
      try (eexists); by apply list_elem_of_singleton.
Qed.

(** X16.  Every POST /logComplaint is answered exactly once: after any run
    of the server the replies sent and the handlers still suspended add up
    to the POST requests received.  A 200 reply is sent only after
    [tx.wait()] has delivered a receipt for the call with the values of
    the request, and carries that receipt's hash; a 500 reply follows a
    rejected call or wait. *)
Theorem every_post_is_answered_once (qs : list request) :
  ∀ (sv sv' : server) (evs : list event) (rs : list reply),
    serve_all qs sv = Some (evs, rs, sv') →
    (List.length rs + List.length (posts sv')
     = List.length (posts sv) + List.length (List.filter is_post qs))%nat
    ∧ (∀ h id city category,
         Logged h id city category ∈ rs →
         Confirmed (LogComplaint id city category) h ∈ evs)
    ∧ (∀ m, ServerError m ∈ rs → ∃ op, Rejected op ∈ evs).
Proof.
  induction qs as [|q qs IH]; intros sv sv' evs rs Hall; simpl in Hall.
  - simplify_eq. simpl.
    split_and!; [lia|intros ???? Hin|intros ? Hin]; by apply elem_of_nil in Hin.
  - destruct (serve q sv) as [[[e1 r1] sv1]|] eqn:Hserve; [|done].
    destruct (serve_all qs sv1) as [[[e2 r2] sv2]|] eqn:Hrest; [|done].
    simplify_eq.
    destruct (serve_replies _ _ _ _ _ Hserve) as (Hn1 & Hok1 & Herr1).
    destruct (IH _ _ _ _ Hrest) as (Hn2 & Hok2 & Herr2).
    split_and!.
    + rewrite length_app. simpl. destruct (is_post q); simpl in *; lia.
    + intros h id city category [Hin|Hin]%elem_of_app; apply elem_of_app;
        [left; by apply Hok1|right; by apply Hok2].
    + intros m [Hin|Hin]%elem_of_app.
      * destruct (Herr1 _ Hin) as [op ?]. exists op. apply elem_of_app. by left.
      * destruct (Herr2 _ Hin) as [op ?]. exists op. apply elem_of_app. by right.
Qed.

Lemma serve_before_listening (q : request) (sv sv' : server)
    (evs : list event) (rs : list reply) :
  serve q sv = Some (evs, rs, sv') →
  listening (engine sv') = false →
  posts sv = [] →
  rs = [] ∧ posts sv' = []
  ∧ ∃ a, q = Engine a ∧ step a (engine sv) = Some (evs, engine sv').
Proof.
  intros Hserve Hl Hp. destruct q as [a|b|i r]; simpl in Hserve.
  - destruct (step a (engine sv)) as [[e s']|] eqn:Hstep; simplify_eq/=. eauto.
  - destruct (listening (engine sv)) eqn:Hl0; [|done].
    unfold postLogComplaint in Hserve. case_match; simplify_eq/=; congruence.
  - unfold resume_post in Hserve. by rewrite Hp in Hserve.
Qed.

Lemma serve_all_listening_mono (qs : list request) :
  ∀ (sv sv' : server) (evs : list event) (rs : list reply),
    serve_all qs sv = Some (evs, rs, sv') →
    listening (engine sv) = true → listening (engine sv') = true.
Proof.
  induction qs as [|q qs IH]; intros sv sv' evs rs Hall Hl; simpl in Hall;
    [by simplify_eq|].
  destruct (serve q sv) as [[[e1 r1] sv1]|] eqn:Hserve; [|done].
  destruct (serve_all qs sv1) as [[[e2 r2] sv2]|] eqn:Hrest; [|done].
  simplify_eq. eapply IH; [done|].
  destruct q as [a|b|i r]; simpl in Hserve.
  - destruct (step a (engine sv)) as [[e s']|] eqn:Hstep; simplify_eq/=.
    by eapply listening_mono.
  - rewrite Hl in Hserve. unfold postLogComplaint in Hserve.
    case_match; by simplify_eq/=.
  - unfold resume_post in Hserve. repeat case_match; by simplify_eq/=.
Qed.

Lemma serve_all_before_listening (qs : list request) :
  ∀ (sv sv' : server) (evs : list event) (rs : list reply),
    serve_all qs sv = Some (evs, rs, sv') →
    listening (engine sv') = false →
    posts sv = [] →
    rs = [] ∧ posts sv' = []
    ∧ ∃ acts, qs = Engine <$> acts
              ∧ exec acts (engine sv) = Some (evs, engine sv').
Proof.
  induction qs as [|q qs IH]; intros sv sv' evs rs Hall Hl Hp; simpl in Hall.
  - simplify_eq. split_and!; [done..|]. by exists [].
  - destruct (serve q sv) as [[[e1 r1] sv1]|] eqn:Hserve; [|done].
    destruct (serve_all qs sv1) as [[[e2 r2] sv2]|] eqn:Hrest; [|done].
    simplify_eq.
    assert (Hl1 : listening (engine sv1) = false).
    { destruct (listening (engine sv1)) eqn:Hl1; [|done].
      pose proof (serve_all_listening_mono _ _ _ _ _ Hrest Hl1). congruence. }
    destruct (serve_before_listening _ _ _ _ _ Hserve Hl1 Hp)
      as (-> & Hp1 & a & -> & Hstep).
    destruct (IH _ _ _ _ Hrest Hl Hp1) as (-> & Hp2 & acts & -> & Hex).
    split_and!; [done..|]. exists (a :: acts). split; [done|].
    simpl. by rewrite Hstep, Hex.
Qed.

(** X17.  No request is served during the startup sweep: in a run of the
    server that ends before [setupRealtimeListener] is called, nothing but
    the engine has moved, no reply has been sent, no POST handler is
    suspended, and the contract calls made so far were made one at a
    time. *)
Theorem no_request_served_during_sweep
    (d : gmap Z row) (qs : list request) (evs : list event) (rs : list reply)
    (sv : server) :
  serve_all qs (boot d) = Some (evs, rs, sv) →
  listening (engine sv) = false →
  rs = [] ∧ posts sv = []
  ∧ (∃ acts, qs = Engine <$> acts ∧ exec acts (init d) = Some (evs, engine sv))
  ∧ serialized evs = true.
Proof.
  intros Hall Hl.
  destruct (serve_all_before_listening _ _ _ _ _ Hall Hl eq_refl)
    as (-> & Hp & acts & -> & Hex).
  split_and!; [done|done|by exists acts|].
  pose proof (exec_backlog_phase acts [] (init d) (engine sv) evs eq_refl
                (init_backlog_phase d) Hex Hl) as Hph. simpl in Hph.
  unfold serialized. apply bool_decide_eq_true.
  apply (backlog_phase_serial evs (engine sv) Hph).
Qed.

(** X18.  The status text of GET /getComplaint undoes [mapStatusToEnum]:
    a code 0, 1 or 2 is shown as a word that maps back to the same code,
    and a status string that maps to 1 or 2 is shown as that string in
    lower case.  Any other code is shown as "unknown"; no status string
    is ever stored under a code that is shown as "unknown". *)
Theorem statusText_inverts_mapStatusToEnum :
  (∀ n : Z, (0 <= n <= 2)%Z → mapStatusToEnum (Some (statusText n)) = n)
  ∧ (∀ n : Z, ¬ (0 <= n <= 2)%Z → statusText n = "unknown")
  ∧ (∀ s : string, mapStatusToEnum (Some s) ≠ 0 →
       statusText (mapStatusToEnum (Some s)) = Js.toLowerCase s)
  ∧ (∀ s : string, eq_ignore_case s "pending" = true →
       statusText (mapStatusToEnum (Some s)) = Js.toLowerCase s)
  ∧ (∀ v : option string, statusText (mapStatusToEnum v) ≠ "unknown").
Proof.
  split_and!.
  - intros n Hn. assert (n = 0 ∨ n = 1 ∨ n = 2) as [-> | [-> | ->]] by lia; done.
  - intros n Hn. unfold statusText.
    destruct (Z.eqb_spec n 0); [lia|]. destruct (Z.eqb_spec n 1); [lia|].
    destruct (Z.eqb_spec n 2); [lia|]. done.
  - intros s. unfold mapStatusToEnum. rewrite toStringOrEmpty_Some.
    destruct (String.eqb_spec (Js.toLowerCase s) "pending"); [done|].
    destruct (String.eqb_spec (Js.toLowerCase s) "resolved"); [by intros _|].
    destruct (String.eqb_spec (Js.toLowerCase s) "verified"); [by intros _|].
    done.
  - intros s Hs. rewrite eq_ignore_case_toLowerCase in Hs.
    apply String.eqb_eq in Hs. simpl in Hs.
    unfold mapStatusToEnum. rewrite toStringOrEmpty_Some, Hs. done.
  - intros v. destruct (mapStatusToEnum_range v) as [-> | [-> | ->]]; done.
Qed.

(** * The screens of the application *)

(** X19.  The colours of the map and the codes of the ledger read a
    status the same way: a marker is blue exactly when the engine maps
    the status to 1 (Resolved) and green exactly when it maps it to 2
    (Verified); red and grey markers all map to 0, red being "pending" or
    "open" in any case of letters. *)
Theorem marker_colour_matches_ledger_code (v : option string) :
  (markerColorForStatus v = "#1565c0" ↔ mapStatusToEnum v = 1)
  ∧ (markerColorForStatus v = "#2e7d32" ↔ mapStatusToEnum v = 2)
  ∧ (markerColorForStatus v = "#d32f2f" ∨ markerColorForStatus v = "#6c757d"
     ↔ mapStatusToEnum v = 0)
  ∧ (markerColorForStatus v = "#d32f2f" ↔
     eq_ignore_case (Js.toStringOrEmpty v) "pending" = true
     ∨ eq_ignore_case (Js.toStringOrEmpty v) "open" = true).
Proof.
  unfold markerColorForStatus, mapStatusToEnum.
  rewrite !eq_ignore_case_toLowerCase.
  change (Js.toLowerCase "pending") with "pending".
  change (Js.toLowerCase "open") with "open".
  set (s := Js.toLowerCase (Js.toStringOrEmpty v)).
  destruct (String.eqb_spec s "verified") as [->|Hv]; simpl.
  { split_and!; split; naive_solver. }
  destruct (String.eqb_spec s "resolved") as [->|Hr]; simpl.
  { split_and!; split; naive_solver. }
  destruct (String.eqb_spec s "pending") as [->|Hp]; simpl.
  { split_and!; split; naive_solver. }
  destruct (String.eqb_spec s "open") as [->|Ho]; simpl.
  { split_and!; split; naive_solver. }
  split_and!; split; naive_solver.
Qed.

(** X20.  The Verify button of the home screen and the receipt guard of
    [mintComplaintToBlockchain] are the same test: for a record whose id
    is not in flight, the button is shown exactly when a mint call would
    report the record as already minted.  It is therefore shown for the
    error text of a failed mint too, and then opens the explorer address
    followed by that text. *)
Theorem verify_button_matches_mint_guard :
  (∀ (c : complaint) (k : caller) (i : nat) (s : state),
     complaintId c ∉ processingComplaints s →
     (is_Some (verifyUrl (tx_hash c)) ↔
      (mintComplaintToBlockchain c k i s).1
      = [MintInvoked c; SkipMinted (complaintId c) (tx_hash c);
         MintReturned (complaintId c)]))
  ∧ (∀ h, h ≠ "" → verifyUrl (Some h) = Some ("https://sepolia.etherscan.io/tx/" +:+ h))
  ∧ verifyUrl None = None
  ∧ verifyUrl (Some "") = None
  ∧ (∀ m, verifyUrl (Some (error_marker m))
          = Some ("https://sepolia.etherscan.io/tx/ERROR: " +:+ substring 0 200 m)).
Proof.
  split_and!; try done.
  - intros c k i s Hin. unfold verifyUrl.
    destruct (Js.truthy (tx_hash c)) eqn:Ht.
    + rewrite mint_when_minted by done. split; [done|by eexists].
    + rewrite mint_when_fresh by done. split; [by intros [? ?]|done].
  - intros h Hh. unfold verifyUrl. simpl.
    by destruct (String.eqb_spec h "").
Qed.

(** ** makeTitleCase *)

Lemma split_space_nonempty (s : string) : split_space s ≠ [].
Proof.
  induction s as [|a s IH]; simpl; [done|].
  destruct (Ascii.eqb a " "); [done|]. by destruct (split_space s).
Qed.

Lemma join_space_cons_char (a : ascii) (w : string) (ws : list string) :
  join_space (String a w :: ws) = String a (join_space (w :: ws)).
Proof. by destruct ws. Qed.

Lemma join_space_empty_head (ws : list string) :
  ws ≠ [] → join_space (EmptyString :: ws) = String " " (join_space ws).
Proof. by destruct ws. Qed.

Lemma join_split_space (s : string) : join_space (split_space s) = s.
Proof.
  induction s as [|a s IH]; simpl; [done|].
  destruct (Ascii.eqb_spec a " ") as [->|Hne].
  - rewrite join_space_empty_head by apply split_space_nonempty. by rewrite IH.
  - pose proof (split_space_nonempty s) as Hs.
    destruct (split_space s) as [|w ws]; [done|].
    by rewrite join_space_cons_char, IH.
Qed.

Lemma makeTitleCase_pass (s : string) :
  join_space (capitalize <$> split_space s) = title_pass true s
  ∧ ∀ w ws, split_space s = w :: ws →
            join_space (w :: (capitalize <$> ws)) = title_pass false s.
Proof.
  induction s as [|a s [IH1 IH2]]; cbn [split_space title_pass].
  - split; [done|]. intros w ws ?. by simplify_eq.
  - pose proof (split_space_nonempty s) as Hs.
    destruct (Ascii.eqb_spec a " ") as [->|Hne].
    + assert (Hne : capitalize <$> split_space s ≠ [])
        by (by destruct (split_space s)).
      split.
      * rewrite fmap_cons. simpl capitalize.
        by rewrite join_space_empty_head, IH1.
      * intros w ws ?. simplify_eq.
        by rewrite join_space_empty_head, IH1.
    + destruct (split_space s) as [|w ws]; [done|]. split.
      * rewrite fmap_cons. simpl capitalize.
        by rewrite join_space_cons_char, (IH2 w ws).
      * intros w' ws' ?. simplify_eq.
        rewrite join_space_cons_char. f_equal. by apply IH2.
Qed.

Lemma upperChar_facts (a : ascii) :
  upperChar (upperChar a) = upperChar a
  ∧ Ascii.eqb (upperChar a) " " = Ascii.eqb a " "
  ∧ same_letter (upperChar a) a = true
  ∧ Js.lowerChar (upperChar a) = Js.lowerChar a.
Proof.
  assert (Hall : forallb (λ x,
            Ascii.eqb (upperChar (upperChar x)) (upperChar x)
            && Bool.eqb (Ascii.eqb (upperChar x) " ") (Ascii.eqb x " ")
            && same_letter (upperChar x) x
            && Ascii.eqb (Js.lowerChar (upperChar x)) (Js.lowerChar x))
            all_ascii = true) by (vm_compute; reflexivity).
  rewrite forallb_forall in Hall.
  specialize (Hall a (proj1 (list_elem_of_In _ _) (elem_of_all_ascii a))).
  repeat (apply andb_prop in Hall as [Hall ?]).
  split_and!; [by apply Ascii.eqb_eq|by apply Bool.eqb_prop|done|by apply Ascii.eqb_eq].
Qed.

Lemma same_letter_refl (a : ascii) : same_letter a a = true.
Proof. unfold same_letter. by rewrite Ascii.eqb_refl. Qed.

Lemma title_pass_facts (b : bool) (s : string) :
  String.length (title_pass b s) = String.length s
  ∧ title_pass b (title_pass b s) = title_pass b s
  ∧ eq_ignore_case (title_pass b s) s = true
  ∧ Js.toLowerCase (title_pass b s) = Js.toLowerCase s.
Proof.
  revert b. induction s as [|a s IH]; intros b; [done|].
  destruct (upperChar_facts a) as (Hidem & Hsp & Hsame & Hlow).
  cbn [title_pass]. destruct (Ascii.eqb a " ") eqn:Ha.
  - destruct (IH true) as (Hlen & Hid & Heq & Hlc).
    cbn [title_pass String.length eq_ignore_case Js.toLowerCase].
    rewrite Ha, Hlen, Hid, Heq, Hlc, same_letter_refl. done.
  - destruct (IH false) as (Hlen & Hid & Heq & Hlc).
    destruct b; cbn [title_pass String.length eq_ignore_case Js.toLowerCase].
    + rewrite Hsp, Hidem, Hlen, Hid, Heq, Hlc, Hsame, Hlow. done.
    + rewrite Ha, Hlen, Hid, Heq, Hlc, same_letter_refl. done.
Qed.

(** X21.  [makeTitleCase] on a string of code units below 128: splitting
    at spaces and joining again loses nothing, so the result has the
    length of the input and its spaces where they were; it is the input
    with the first letter of every word in upper case, equal to the input
    up to the case of letters, and applying it twice changes nothing
    more. *)
Theorem makeTitleCase_keeps_the_text (s : string) :
  ascii_only s = true →
  join_space (split_space s) = s
  ∧ makeTitleCase s = title_pass true s
  ∧ String.length (makeTitleCase s) = String.length s
  ∧ makeTitleCase (makeTitleCase s) = makeTitleCase s
  ∧ eq_ignore_case (makeTitleCase s) s = true
  ∧ Js.toLowerCase (makeTitleCase s) = Js.toLowerCase s.
Proof.
  intros _. unfold makeTitleCase.
  destruct (makeTitleCase_pass s) as [Hpass _].
  destruct (title_pass_facts true s) as (Hlen & Hid & Heq & Hlc).
  split_and!; rewrite ?Hpass; try done.
  - apply join_split_space.
  - destruct (makeTitleCase_pass (title_pass true s)) as [-> _]. done.
Qed.

(** ** The whole sweep at work *)


(** * The further properties at work *)

Ltac in_list := apply list_elem_of_In; simpl; auto 20.

(** Record 3 of the sweep over [Sample.store]. *)
Lemma creates_carry_city_and_category_witness :
  exec Run.sweep (init Sample.store) = Some (Run.sweep_events, Run.sweep_state)
  ∧ Submit (LogComplaint 3 "Unknown" "General") ∈ Run.sweep_events
  ∧ ∃ c, MintInvoked c ∈ Run.sweep_events ∧ complaintId c = 3.
Proof.
  assert (Hex : exec Run.sweep (init Sample.store)
                = Some (Run.sweep_events, Run.sweep_state))
    by (vm_compute; reflexivity).
  assert (Hin : Submit (LogComplaint 3 "Unknown" "General") ∈ Run.sweep_events)
    by in_list.
  split; [exact Hex|]. split; [exact Hin|].
  destruct (creates_carry_city_and_category _ _ _ _ _ _ _ Hex Hin)
    as (c & Hc & Hid & _).
  exists c. split; assumption.
Defined.

(** The three UPDATE notifications for record 7. *)
Lemma status_updates_carry_enum_codes_witness :
  exec Run.status_updates (init ∅) = Some (Run.status_events, Run2.status_state)
  ∧ Submit (UpdateComplaintStatus 7 2) ∈ Run.status_events
  ∧ (2 = 0 ∨ 2 = 1 ∨ 2 = 2).
Proof.
  assert (Hex : exec Run.status_updates (init ∅)
                = Some (Run.status_events, Run2.status_state))
    by (vm_compute; reflexivity).
  assert (Hin : Submit (UpdateComplaintStatus 7 2) ∈ Run.status_events) by in_list.
  split; [exact Hex|]. split; [exact Hin|].
  exact (status_updates_carry_enum_codes _ _ _ _ _ _ Hex Hin).
Defined.

(** The rejected mint of row 7: the row stays, with its other columns. *)
Lemma engine_only_sets_tx_hash_witness :
  exec Run.failing_mint (init (<[7 := Sample.blank]> ∅))
  = Some (Run2.failing_mint_events, Run2.failed_state)
  ∧ db (init (<[7 := Sample.blank]> ∅)) !! 7 = Some Sample.blank
  ∧ ∃ r', db Run2.failed_state !! 7 = Some r' ∧ same_columns Sample.blank r'.
Proof.
  assert (Hex : exec Run.failing_mint (init (<[7 := Sample.blank]> ∅))
                = Some (Run2.failing_mint_events, Run2.failed_state))
    by (vm_compute; reflexivity).
  assert (Hr : db (init (<[7 := Sample.blank]> ∅)) !! 7 = Some Sample.blank)
    by (vm_compute; reflexivity).
  split; [exact Hex|]. split; [exact Hr|].
  destruct (proj1 (engine_only_sets_tx_hash _ _ _ _ 7 Hex) _ Hr)
    as (r' & Hr' & Hc & _).
  exists r'. split; assumption.
Defined.

(** Record 7 in flight with a second notification waiting. *)
Lemma in_flight_sets_match_invocations_witness :
  exec Run.duplicate_insert (init ∅)
  = Some (Run2.duplicate_events, Run.duplicate_state)
  ∧ NoDup (mint_ids (tasks Run.duplicate_state)).
Proof.
  assert (Hex : exec Run.duplicate_insert (init ∅)
                = Some (Run2.duplicate_events, Run.duplicate_state))
    by (vm_compute; reflexivity).
  split; [exact Hex|].
  exact (proj1 (proj2 (proj2 (in_flight_sets_match_invocations _ _ _ _ Hex)))).
Defined.

(** The text in row 7 after the rejected mint is an error text. *)
Lemma tx_hash_is_receipt_or_error_text_witness :
  exec Run.failing_mint (init (<[7 := Sample.blank]> ∅))
  = Some (Run2.failing_mint_events, Run2.failed_state)
  ∧ db Run2.failed_state !! 7 = Some Run2.marked
  ∧ row_tx_hash Run2.marked = Some "ERROR: nonce too low"
  ∧ ((∃ r0, (<[7 := Sample.blank]> ∅ : gmap Z row) !! 7 = Some r0
            ∧ row_tx_hash r0 = Some "ERROR: nonce too low")
     ∨ (∃ r', StoreInsert 7 r' ∈ Run.failing_mint
              ∧ row_tx_hash r' = Some "ERROR: nonce too low")
     ∨ (∃ c, complaintId c = 7
             ∧ Confirmed (mint_op c) "ERROR: nonce too low"
               ∈ Run2.failing_mint_events)
     ∨ (∃ m, "ERROR: nonce too low" = "ERROR: " +:+ substring 0 200 m)).
Proof.
  assert (Hex : exec Run.failing_mint (init (<[7 := Sample.blank]> ∅))
                = Some (Run2.failing_mint_events, Run2.failed_state))
    by (vm_compute; reflexivity).
  assert (Hr : db Run2.failed_state !! 7 = Some Run2.marked)
    by (vm_compute; reflexivity).
  split; [exact Hex|]. split; [exact Hr|]. split; [reflexivity|].
  exact (tx_hash_is_receipt_or_error_text _ _ _ _ _ _ _ Hex Hr eq_refl).
Defined.

(** The whole sweep over [Sample.store] and the step that sets up the
    listener: one call for record 3, then one for record 7. *)
Lemma sweep_sends_every_fetched_record_witness :
  exec Run2.whole_sweep (init Sample.store)
  = Some (Run2.whole_sweep_events, Run2.whole_sweep_state)
  ∧ listening Run2.whole_sweep_state = false
  ∧ step (Resume 0 TimerFired) Run2.whole_sweep_state = Some ([Subscribed], Run2.swept)
  ∧ listening Run2.swept = true
  ∧ skips Run2.whole_sweep_events = []
  ∧ submits (Run2.whole_sweep_events ++ [Subscribed])
    = creates [Run.three; Run.seven_row].
Proof.
  assert (Hex : exec Run2.whole_sweep (init Sample.store)
                = Some (Run2.whole_sweep_events, Run2.whole_sweep_state))
    by (vm_compute; reflexivity).
  assert (Hstep : step (Resume 0 TimerFired) Run2.whole_sweep_state
                  = Some ([Subscribed], Run2.swept))
    by (vm_compute; reflexivity).
  split; [exact Hex|]. split; [reflexivity|]. split; [exact Hstep|].
  split; [reflexivity|].
  destruct (sweep_sends_every_fetched_record _ _ _ _ Hex eq_refl)
    as (Hskip & _ & _ & Hend & _).
  split; [exact Hskip|].
  destruct (Hend _ _ _ Hstep eq_refl)
    as (_ & _ & [(cs & Hf & _ & Hsub)|(Habs & _)]); [|discriminate Habs].
  rewrite Hsub. vm_compute in Hf. injection Hf as <-. reflexivity.
Defined.

(** Three resumes into a sweep of two records. *)
Lemma sweep_is_bounded_witness :
  exec Run.sweep (init Sample.store) = Some (Run.sweep_events, Run.sweep_state)
  ∧ listening Run.sweep_state = false
  ∧ ∃ r, is_Some (step (Resume 0 r) Run.sweep_state).
Proof.
  assert (Hex : exec Run.sweep (init Sample.store)
                = Some (Run.sweep_events, Run.sweep_state))
    by (vm_compute; reflexivity).
  split; [exact Hex|]. split; [reflexivity|].
  exact (proj1 (proj2 (sweep_is_bounded _ _ _ _ Hex eq_refl))).
Defined.

(** The process ended while the mint of row 7 was in flight; the next
    process sends row 7 again. *)
Lemma restart_mints_unwritten_rows_witness :
  db Run.sending_state !! 7 = Some Sample.blank
  ∧ row_tx_hash Sample.blank = None
  ∧ exec Run2.rerun (restart Run.sending_state)
    = Some (Run2.failing_mint_events, Run2.rerun_state)
  ∧ listening Run2.rerun_state = false
  ∧ step (Resume 0 TimerFired) Run2.rerun_state = Some ([Subscribed], Run2.rerun_end)
  ∧ listening Run2.rerun_end = true
  ∧ fetched (Run2.failing_mint_events ++ [Subscribed]) ≠ []
  ∧ Submit (LogComplaint 7 (city_of (select_row (7, Sample.blank)))
              (category_of (select_row (7, Sample.blank))))
    ∈ (Run2.failing_mint_events ++ [Subscribed])%list.
Proof.
  assert (Hr : db Run.sending_state !! 7 = Some Sample.blank)
    by (vm_compute; reflexivity).
  assert (Hex : exec Run2.rerun (restart Run.sending_state)
                = Some (Run2.failing_mint_events, Run2.rerun_state))
    by (vm_compute; reflexivity).
  assert (Hstep : step (Resume 0 TimerFired) Run2.rerun_state
                  = Some ([Subscribed], Run2.rerun_end))
    by (vm_compute; reflexivity).
  assert (Hf : fetched (Run2.failing_mint_events ++ [Subscribed]) ≠ [])
    by (vm_compute; discriminate).
  split; [exact Hr|]. split; [reflexivity|]. split; [exact Hex|].
  split; [reflexivity|]. split; [exact Hstep|]. split; [reflexivity|].
  split; [exact Hf|].
  exact (proj2 (proj2 (restart_mints_unwritten_rows _ _ _ _ _ _ _ _ _
                         Hr eq_refl Hex eq_refl Hstep eq_refl Hf))).
Defined.

(** An INSERT notification for record 7 that goes through. *)
Lemma insert_mint_success_path_witness :
  tasks Run2.settling !! 0%nat = Some (TInsertSettle Sample.seven)
  ∧ (complaintId Sample.seven ∉ processingComplaints Run2.settling)
  ∧ Js.truthy (tx_hash Sample.seven) = false
  ∧ exec [Resume 0 TimerFired; Resume 0 (Resolved "0x0a");
          Resume 0 (Resolved "0x0b"); Resume 0 DbOk] Run2.settling
    = Some ([MintInvoked Sample.seven;
             Submit (LogComplaint (complaintId Sample.seven)
                       (city_of Sample.seven) (category_of Sample.seven));
             Confirmed (LogComplaint (complaintId Sample.seven)
                          (city_of Sample.seven) (category_of Sample.seven)) "0x0b";
             ReleaseMint (complaintId Sample.seven);
             MintReturned (complaintId Sample.seven)],
            State (processingComplaints Run2.settling)
              (processingStatusUpdates Run2.settling)
              (alter (with_tx_hash (Some "0x0b")) (complaintId Sample.seven)
                 (db Run2.settling))
              (listening Run2.settling) (delete 0%nat (tasks Run2.settling))).
Proof.
  assert (Hin : complaintId Sample.seven ∉ processingComplaints Run2.settling)
    by (vm_compute; intros H; discriminate H).
  split; [reflexivity|]. split; [exact Hin|]. split; [reflexivity|].
  exact (insert_mint_success_path Run2.settling 0%nat Sample.seven "0x0a" "0x0b"
           eq_refl Hin eq_refl).
Defined.

(** The store refuses the error text of row 7. *)
Lemma unrecorded_mint_outcomes_witness :
  tasks Run.rejected_state !! 0%nat
  = Some (TMint Run.seven_row (AwaitStoreError "ERROR: nonce too low") (FromBacklog []))
  ∧ unrecorded_outcome (AwaitStoreError "ERROR: nonce too low") DbError = true
  ∧ step (Resume 0 DbError) Run.rejected_state
    = Some ([ReleaseMint 7; MintReturned 7], Run2.rerun_state)
  ∧ db Run2.rerun_state = db Run.rejected_state.
Proof.
  assert (Hstep : step (Resume 0 DbError) Run.rejected_state
                  = Some ([ReleaseMint 7; MintReturned 7], Run2.rerun_state))
    by (vm_compute; reflexivity).
  split; [reflexivity|]. split; [reflexivity|]. split; [exact Hstep|].
  exact (proj1 (proj2 (unrecorded_mint_outcomes Run.rejected_state Run2.rerun_state
                         0%nat Run.seven_row
                         (AwaitStoreError "ERROR: nonce too low") (FromBacklog [])
                         DbError _ eq_refl eq_refl Hstep))).
Defined.

(** The store throws on the receipt of record 3. *)
Lemma write_back_throw_stores_error_text_witness :
  tasks Run.sweep_state !! 0%nat
  = Some (TMint Run.three (AwaitStoreHash "0x02") (FromBacklog [Run.seven_row]))
  ∧ exec [Resume 0 (Thrown (Some "fetch failed")); Resume 0 DbOk] Run.sweep_state
    = Some ([ReleaseMint (complaintId Run.three); MintReturned (complaintId Run.three)],
            State (processingComplaints Run.sweep_state ∖ {[complaintId Run.three]})
              (processingStatusUpdates Run.sweep_state)
              (alter (with_tx_hash (Some ("ERROR: " +:+ substring 0 200 "fetch failed")))
                 (complaintId Run.three) (db Run.sweep_state))
              (listening Run.sweep_state)
              (return_to (FromBacklog [Run.seven_row]) 0 (tasks Run.sweep_state))).
Proof.
  split; [reflexivity|].
  exact (write_back_throw_stores_error_text Run.sweep_state 0%nat Run.three
           (FromBacklog [Run.seven_row]) "0x02" "fetch failed" eq_refl).
Defined.


(** An UPDATE notification leaves the table alone. *)
Lemma coordinators_are_independent_witness :
  step (NotifyUpdate None (Some Sample.seven_resolved)) Run2.settling
  = Some ([Submit (UpdateComplaintStatus 7 1)],
          State ∅ {["7:1"]} Sample.store true
            [TInsertSettle Sample.seven;
             TStatus Sample.seven_resolved AwaitUpdateStatus])
  ∧ db (State ∅ {["7:1"]} Sample.store true
          [TInsertSettle Sample.seven;
           TStatus Sample.seven_resolved AwaitUpdateStatus])
    = db Run2.settling.
Proof.
  assert (Hstep : step (NotifyUpdate None (Some Sample.seven_resolved)) Run2.settling
                  = Some ([Submit (UpdateComplaintStatus 7 1)],
                          State ∅ {["7:1"]} Sample.store true
                            [TInsertSettle Sample.seven;
                             TStatus Sample.seven_resolved AwaitUpdateStatus]))
    by (vm_compute; reflexivity).
  split; [exact Hstep|].
  exact (proj1 (proj1 coordinators_are_independent _ _ _ _ _ Hstep)).
Defined.

(** A POST whose [complaintId] is the empty string and whose [city] is
    the number 5, and a POST for complaint id 0. *)
Lemma post_validation_witness :
  missingFields (RequestBody (Some (JString "")) (Some (JNumber (JInt 5)))
                   (Some (JString "roads"))) = true
  ∧ missingFields (json_of_body Run2.zero_body) = true
  ∧ postLogComplaint Run2.zero_body (boot ∅) = ([], [BadRequest], boot ∅).
Proof.
  assert (Hbad : missingFields (json_of_body Run2.zero_body) = true)
    by reflexivity.
  split.
  - apply (proj1 post_validation). left. unfold is_falsy. simpl. auto 6.
  - split; [exact Hbad|].
    exact (proj1 (proj2 (proj2 post_validation)) Run2.zero_body (boot ∅) Hbad).
Defined.

(** A POST for record 7 while the engine has it in flight. *)
Lemma manual_endpoint_bypasses_guards_witness :
  listening (engine (Server Run.duplicate_state [])) = true
  ∧ 7 ∈ processingComplaints (engine (Server Run.duplicate_state []))
  ∧ serve (PostLogComplaint (Body (Some 7) (Some "Pune") (Some "roads")))
      (Server Run.duplicate_state [])
    = Some ([Submit (LogComplaint 7 "Pune" "roads")], [],
            Server (engine (Server Run.duplicate_state []))
              (posts (Server Run.duplicate_state [])
               ++ [Post 7 "Pune" "roads" PostAwaitLogComplaint])).
Proof.
  split; [reflexivity|]. split; [vm_compute; reflexivity|].
  apply (proj1 manual_endpoint_bypasses_guards (Server Run.duplicate_state [])
           7 "Pune" "roads"); [reflexivity|discriminate..].
Defined.

(** A POST that is sent and confirmed gets one 200 reply. *)
Lemma every_post_is_answered_once_witness :
  serve_all Run2.post_run (boot ∅)
  = Some (Run2.post_events, Run2.post_replies, Server Run2.idle [])
  ∧ (List.length Run2.post_replies + List.length (posts (Server Run2.idle []))
     = List.length (posts (boot ∅))
       + List.length (List.filter is_post Run2.post_run))%nat.
Proof.
  assert (Hall : serve_all Run2.post_run (boot ∅)
                 = Some (Run2.post_events, Run2.post_replies, Server Run2.idle []))
    by (vm_compute; reflexivity).
  split; [exact Hall|].
  exact (proj1 (every_post_is_answered_once _ _ _ _ _ Hall)).
Defined.

(** The sweep over [Sample.store], seen from the server. *)
Lemma no_request_served_during_sweep_witness :
  serve_all (Engine <$> Run.sweep) (boot Sample.store)
  = Some (Run.sweep_events, [], Server Run.sweep_state [])
  ∧ listening (engine (Server Run.sweep_state [])) = false
  ∧ serialized Run.sweep_events = true.
Proof.
  assert (Hall : serve_all (Engine <$> Run.sweep) (boot Sample.store)
                 = Some (Run.sweep_events, [], Server Run.sweep_state []))
    by (vm_compute; reflexivity).
  split; [exact Hall|]. split; [reflexivity|].
  exact (proj2 (proj2 (proj2 (no_request_served_during_sweep _ _ _ _ _
                                Hall eq_refl)))).
Defined.

(** "Resolved" is stored as 1 and shown as "resolved". *)
Lemma statusText_inverts_mapStatusToEnum_witness :
  mapStatusToEnum (Some "Resolved") ≠ 0
  ∧ statusText (mapStatusToEnum (Some "Resolved")) = Js.toLowerCase "Resolved".
Proof.
  assert (Hne : mapStatusToEnum (Some "Resolved") ≠ 0) by discriminate.
  split; [exact Hne|].
  exact (proj1 (proj2 (proj2 statusText_inverts_mapStatusToEnum)) "Resolved" Hne).
Defined.

(** "OPEN" is a red marker. *)
Lemma marker_colour_matches_ledger_code_witness :
  eq_ignore_case (Js.toStringOrEmpty (Some "OPEN")) "open" = true
  ∧ markerColorForStatus (Some "OPEN") = "#d32f2f".
Proof.
  split; [reflexivity|].
  apply (proj2 (proj2 (proj2 (proj2 (marker_colour_matches_ledger_code (Some "OPEN")))))).
  right. reflexivity.
Defined.

(** A record with a receipt: the button is shown and the mint is skipped. *)
Lemma verify_button_matches_mint_guard_witness :
  (complaintId Sample.seven_minted ∉ processingComplaints Run2.idle)
  ∧ is_Some (verifyUrl (tx_hash Sample.seven_minted))
  ∧ (mintComplaintToBlockchain Sample.seven_minted FromInsert 0 Run2.idle).1
    = [MintInvoked Sample.seven_minted;
       SkipMinted (complaintId Sample.seven_minted) (tx_hash Sample.seven_minted);
       MintReturned (complaintId Sample.seven_minted)].
Proof.
  assert (Hin : complaintId Sample.seven_minted ∉ processingComplaints Run2.idle)
    by (vm_compute; intros H; discriminate H).
  assert (Hshown : is_Some (verifyUrl (tx_hash Sample.seven_minted)))
    by (eexists; reflexivity).
  split; [exact Hin|]. split; [exact Hshown|].
  exact (proj1 (proj1 verify_button_matches_mint_guard Sample.seven_minted
                  FromInsert 0%nat Run2.idle Hin) Hshown).
Defined.

(** Two words. *)
Lemma makeTitleCase_keeps_the_text_witness :
  ascii_only "open  issues" = true
  ∧ makeTitleCase "open  issues" = title_pass true "open  issues"
  ∧ String.length (makeTitleCase "open  issues") = String.length "open  issues".
Proof.
  split; [reflexivity|].
  destruct (makeTitleCase_keeps_the_text "open  issues" eq_refl)
    as (_ & Hpass & Hlen & _).
  split; assumption.
Defined.

(** A short message is stored in full. *)
Lemma error_text_keeps_short_messages_witness :
  (String.length "nonce too low" ≤ 200)%nat
  ∧ error_marker "nonce too low" = "ERROR: " +:+ "nonce too low".
Proof.
  assert (Hle : (String.length "nonce too low" ≤ 200)%nat) by (simpl; lia).
  split; [exact Hle|].
  exact (proj2 (proj2 (error_text_keeps_short_messages "nonce too low")) Hle).
Defined.

(** Row 7 carries the receipt "0xabc" when a notification without
    [tx_hash] arrives and its call is rejected. *)
Lemma stale_payload_overwrites_receipt_witness :
  tasks Run2.settling_minted !! 0%nat = Some (TInsertSettle Sample.seven)
  ∧ (complaintId Sample.seven ∉ processingComplaints Run2.settling_minted)
  ∧ Js.truthy (tx_hash Sample.seven) = false
  ∧ db Run2.settling_minted !! complaintId Sample.seven
    = Some (with_tx_hash (Some "0xabc") Sample.blank)
  ∧ row_tx_hash (with_tx_hash (Some "0xabc") Sample.blank) = Some "0xabc"
  ∧ ∃ evs s',
      exec [Resume 0 TimerFired; Resume 0 (Thrown (Some "already exists"));
            Resume 0 DbOk] Run2.settling_minted
      = Some (evs, s')
      ∧ submits evs = [Submit (mint_op Sample.seven)]
      ∧ db s' !! complaintId Sample.seven
        = Some (with_tx_hash (Some ("ERROR: " +:+ substring 0 200 "already exists"))
                  (with_tx_hash (Some "0xabc") Sample.blank)).
Proof.
  assert (Hin : complaintId Sample.seven ∉ processingComplaints Run2.settling_minted)
    by (vm_compute; intros H; discriminate H).
  assert (Hr : db Run2.settling_minted !! complaintId Sample.seven
               = Some (with_tx_hash (Some "0xabc") Sample.blank))
    by (vm_compute; reflexivity).
  split; [reflexivity|]. split; [exact Hin|]. split; [reflexivity|].
  split; [exact Hr|]. split; [reflexivity|].
  exact (proj2 stale_payload_overwrites_receipt Run2.settling_minted 0%nat
           Sample.seven (with_tx_hash (Some "0xabc") Sample.blank) "0xabc"
           "already exists" eq_refl Hin eq_refl Hr eq_refl).
Defined.

(** Record 3 of the sweep over [Sample.store] was among the rows fetched. *)
Lemma mints_come_from_sweep_or_notification_witness :
  exec Run.sweep (init Sample.store) = Some (Run.sweep_events, Run.sweep_state)
  ∧ Submit (LogComplaint 3 "Unknown" "General") ∈ Run.sweep_events
  ∧ ∃ c, LogComplaint 3 "Unknown" "General" = mint_op c.
Proof.
  assert (Hex : exec Run.sweep (init Sample.store)
                = Some (Run.sweep_events, Run.sweep_state))
    by (vm_compute; reflexivity).
  assert (Hin : Submit (LogComplaint 3 "Unknown" "General") ∈ Run.sweep_events)
    by in_list.
  split; [exact Hex|]. split; [exact Hin|].
  destruct (mints_come_from_sweep_or_notification _ _ _ _ _ _ _ Hex Hin)
    as (c & Hc & _).
  exists c. exact Hc.
Defined.
